(** * DeepCpG: network assembly ([deepcpg/net.py]) and training script
      ([scripts/train.py])

    A shallow embedding of the graph-assembly and bookkeeping code of the
    repository.  Keras layer constructors are data (an inductive [layer]),
    the [CpgGraph] under construction is a record that logs the inputs,
    nodes and outputs added to it, a Python dictionary is a [gmap] where
    it is only looked up and the list of its items, in insertion order,
    where it is iterated, a [float] is the double it is, and a raised
    exception is the [Raise] case of [result]. *)

From Stdlib Require Import ZArith QArith Qround.
From stdpp Require Import gmap strings list fin_maps pretty.

Open Scope string_scope.
Open Scope list_scope.
Open Scope Z_scope.

(** ** Python values shared by both files *)

Inductive exn :=
| IndexError
| KeyError (k : string)
| AssertionError (msg : string)
| ZeroDivisionError
| OverflowError
| TypeError (what : string)
| IOError (path : string)
| UnpicklingError (path : string)
| ValueError (what : string).

Inductive result (A : Type) :=
| Ok (a : A)
| Raise (e : exn).
Arguments Ok {A} a.
Arguments Raise {A} e.

(** The error monad: a raised exception skips the rest of the block. *)
#[global] Instance result_ret : MRet result := fun A a => Ok a.
#[global] Instance result_bind : MBind result := fun A B k r =>
  match r with
  | Ok a => k a
  | Raise e => Raise e
  end.

Definition is_Ok {A} (r : result A) : Prop := exists a, r = Ok a.

(** [xs[i]] for an index produced by [range]: never negative. *)
Definition index {A} (xs : list A) (i : nat) : result A :=
  match xs !! i with
  | Some x => Ok x
  | None => Raise IndexError
  end.

(** Truth value of a Python [int] and of a Python [float] (a rational
    here; the not-a-number case does not occur in a configuration). *)
Definition truthyZ (n : Z) : bool := negb (n =? 0).
Definition truthyQ (q : Q) : bool := negb (Qnum q =? 0).

(** ['%s_%s' % (a, b)] and ['<c>%d' % n]. *)
Definition fmt_join (a b : string) : string := a +:+ "_" +:+ b.
Definition fmt_d (c : string) (n : nat) : string := c +:+ pretty n.

(** ** Floating-point numbers

    A Python [float] is a double (binary64); numpy also stores halves
    ([float16], binary16).  A finite value is kept as the rational it
    stands for, the positive zero included; the negative zero, the
    infinities and not-a-number are values of their own. *)

Inductive pyfloat :=
| Finite (q : Q)
| NegZero
| Inf (negative : bool)
| NaN.

(** A binary format: the bits of a significand, the exponent of the
    least positive value, and the power of two that is out of range. *)
Record binary_format := {
  prec : Z;
  emin : Z;
  emax : Z
}.

Definition binary64 : binary_format :=
  {| prec := 53; emin := -1074; emax := 1024 |}.
Definition binary16 : binary_format :=
  {| prec := 11; emin := -24; emax := 16 |}.

(** [floor(log2(a / b))] for positive [a] and [b]. *)
Definition ilog2_ratio (a b : Z) : Z :=
  let d := Z.log2 a - Z.log2 b in
  if a * 2 ^ Z.max 0 (- d) <? b * 2 ^ Z.max 0 d then d - 1 else d.

(** The integer nearest to [a / b], the even one of two that are equally
    near. *)
Definition div_nearest_even (a b : Z) : Z :=
  let q := a / b in
  let r := a mod b in
  if 2 * r <? b then q
  else if b <? 2 * r then q + 1
  else if Z.even q then q else q + 1.

(** Rounding to nearest, ties to even: the significand [m] and the
    exponent [e] of the value [m * 2 ^ e] of the format that is nearest
    to [a / b], for positive [a] and [b] and before the range is
    checked. *)
Definition round_ratio (fmt : binary_format) (a b : Z) : Z * Z :=
  let e := Z.max (ilog2_ratio a b - (prec fmt - 1)) (emin fmt) in
  (div_nearest_even (a * 2 ^ Z.max 0 (- e)) (b * 2 ^ Z.max 0 e), e).

(** [m * 2 ^ e] as a rational in lowest terms. *)
Definition scaled (m e : Z) : Q :=
  if 0 <=? e then inject_Z (m * 2 ^ e)
  else Qred (Qmake m (Z.to_pos (2 ^ (- e)))).

(** The value of the format nearest to [a / b] (or to [- a / b]): an
    infinity from [2 ^ emax] on, a zero below half the least positive
    value. *)
Definition round_signed (fmt : binary_format) (negative : bool) (a b : Z)
    : pyfloat :=
  let '(m, e) := round_ratio fmt a b in
  if 2 ^ (emax fmt + Z.max 0 (- e)) <=? m * 2 ^ Z.max 0 e then Inf negative
  else if m =? 0 then (if negative then NegZero else Finite 0)
  else Finite (if negative then (- scaled m e)%Q else scaled m e).

Definition round_Q (fmt : binary_format) (q : Q) : pyfloat :=
  if Qnum q =? 0 then Finite 0
  else round_signed fmt (Qnum q <? 0) (Z.abs (Qnum q)) (Z.pos (Qden q)).

(** [a / b] on two [int]s: the double nearest to the quotient; a
    quotient out of the range of a double raises. *)
Definition true_div (a b : Z) : result pyfloat :=
  if b =? 0 then Raise ZeroDivisionError
  else if a =? 0 then Ok (if b <? 0 then NegZero else Finite 0)
  else
    match round_signed binary64 (xorb (a <? 0) (b <? 0)) (Z.abs a) (Z.abs b)
    with
    | Inf _ => Raise OverflowError
    | x => Ok x
    end.

(** [x * n] for a [float] [x] and a positive [int] [n] that is a double
    as it is (such as 100). *)
Definition float_mul_int (x : pyfloat) (n : positive) : pyfloat :=
  match x with
  | Finite q => round_Q binary64 (q * inject_Z (Z.pos n))
  | x => x
  end.

(** [int(np.ceil(x))]. *)
Definition int_ceil (x : pyfloat) : result Z :=
  match x with
  | Finite q => Ok (Qceiling q)
  | NegZero => Ok 0
  | Inf _ => Raise OverflowError
  | NaN => Raise (ValueError "cannot convert float NaN to integer")
  end.

(** The value that a [float16] array keeps when [x] is stored in it. *)
Definition to_float16 (x : pyfloat) : pyfloat :=
  match x with
  | Finite q => round_Q binary16 q
  | x => x
  end.

(** [x == q] for a [float] [x] and a number [q]. *)
Definition float_eqb (x : pyfloat) (q : Q) : bool :=
  match x with
  | Finite p => Qeq_bool p q
  | NegZero => Qeq_bool 0 q
  | Inf _ | NaN => false
  end.

(** [sys.maxsize] of a 64-bit build (a 32-bit build has less): [len] of
    a list is never more. *)
Definition sys_maxsize : Z := 2 ^ 63 - 1.

(** ** Dictionaries that are iterated

    A [dict] keeps its items in the order in which their keys were
    first inserted, and has no key twice. *)

Record odict (V : Type) := {
  items : list (string * V);
  keys_distinct : bool_decide (NoDup items.*1)
}.
Arguments items {V} _.
Arguments keys_distinct {V} _.

#[global] Instance odict_lookup {V} : Lookup string V (odict V) :=
  fun k d => (list_to_map (items d) : gmap string V) !! k.

(** The same dictionary where only lookups matter. *)
Definition to_map {V} (d : odict V) : gmap string V := list_to_map (items d).

(** [d[k]]. *)
Definition od_getitem {V} (d : odict V) (k : string) : result V :=
  match d !! k with
  | Some v => Ok v
  | None => Raise (KeyError k)
  end.

Module Net.

(** ** Layers, as the constructors of [keras.layers] are called *)

Record WeightRegularizer := { reg_l1 : Q; reg_l2 : Q }.

Inductive layer :=
| Dropout (p : Q)
| Convolution1D (nb_filter filter_length : Z) (activation init : string)
    (W_regularizer : WeightRegularizer) (border_mode : string)
| Convolution2D (nb_filter nb_row nb_col : Z) (activation init : string)
    (W_regularizer : WeightRegularizer) (border_mode : string)
| MaxPooling1D (pool_length : Z)
| MaxPooling2D (pool_size : Z * Z)
| Flatten
| Dense (output_dim : Z) (activation init : string)
| BatchNormalization
| Activation (activation : string).

Definition named_layer : Type := string * layer.

(** ** Parameters ([deepcpg.net_params]) as [net.py] reads them *)

Record ConvParams := {
  drop_in : Q;
  nb_filter : list Z;
  filter_len : list Z;
  pool_len : list Z;
  l1 : Q;
  l2 : Q;
  activation : string;
  drop_out : Q;
  nb_hidden : Z;
  batch_norm : bool
}.

Record DenseParams := {
  d_nb_hidden : Z;
  d_activation : string;
  d_drop_out : Q;
  d_batch_norm : bool
}.

(** ** [cpg_layers] and [seq_layers] *)

(** The body of [for l in range(nb_layer)] in [cpg_layers], run over the
    remaining indices [ls] with the list built so far. *)
Fixpoint cpg_conv_loop (params : ConvParams) (w_reg : WeightRegularizer)
    (ls : list nat) (layers : list named_layer) : result (list named_layer) :=
  match ls with
  | [] => Ok layers
  | l :: ls' =>
      nf ← index (nb_filter params) l;
      fl ← index (filter_len params) l;
      let layer := Convolution2D nf 1 fl (activation params)
                     "glorot_uniform" w_reg "same" in
      let layers := layers ++ [(fmt_d "c" (l + 1)%nat, layer)] in
      pl ← index (pool_len params) l;
      let layer := MaxPooling2D (1, pl) in
      let layers := layers ++ [(fmt_d "p" (l + 1)%nat, layer)] in
      cpg_conv_loop params w_reg ls' layers
  end.

Definition cpg_layers (params : ConvParams) : result (list named_layer) :=
  let layers := [] in
  let layers :=
    if truthyQ (drop_in params)
    then layers ++ [("xd", Dropout (drop_in params))] else layers in
  let nb_layer := length (nb_filter params) in
  let w_reg := {| reg_l1 := l1 params; reg_l2 := l2 params |} in
  layers ← cpg_conv_loop params w_reg (seq 0 nb_layer) layers;
  let layers := layers ++ [("f1", Flatten)] in
  let layers :=
    if truthyQ (drop_out params)
    then layers ++ [("f1d", Dropout (drop_out params))] else layers in
  let layers :=
    if truthyZ (nb_hidden params) then
      let layers :=
        layers ++ [("h1", Dense (nb_hidden params) "linear" "glorot_uniform")] in
      let layers :=
        if batch_norm params
        then layers ++ [("h1b", BatchNormalization)] else layers in
      let layers := layers ++ [("h1a", Activation (activation params))] in
      if truthyQ (drop_out params)
      then layers ++ [("h1d", Dropout (drop_out params))] else layers
    else layers in
  Ok layers.

Fixpoint seq_conv_loop (params : ConvParams) (w_reg : WeightRegularizer)
    (ls : list nat) (layers : list named_layer) : result (list named_layer) :=
  match ls with
  | [] => Ok layers
  | l :: ls' =>
      nf ← index (nb_filter params) l;
      fl ← index (filter_len params) l;
      let layer := Convolution1D nf fl (activation params)
                     "glorot_uniform" w_reg "same" in
      let layers := layers ++ [(fmt_d "c" (l + 1)%nat, layer)] in
      pl ← index (pool_len params) l;
      let layer := MaxPooling1D pl in
      let layers := layers ++ [(fmt_d "p" (l + 1)%nat, layer)] in
      seq_conv_loop params w_reg ls' layers
  end.

Definition seq_layers (params : ConvParams) : result (list named_layer) :=
  let layers := [] in
  let layers :=
    if truthyQ (drop_in params)
    then layers ++ [("xd", Dropout (drop_in params))] else layers in
  let nb_layer := length (nb_filter params) in
  let w_reg := {| reg_l1 := l1 params; reg_l2 := l2 params |} in
  layers ← seq_conv_loop params w_reg (seq 0 nb_layer) layers;
  let layers := layers ++ [("f1", Flatten)] in
  let layers :=
    if truthyQ (drop_out params)
    then layers ++ [("f1d", Dropout (drop_out params))] else layers in
  let layers :=
    if truthyZ (nb_hidden params) then
      let layers :=
        layers ++ [("h1", Dense (nb_hidden params) "linear" "glorot_uniform")] in
      let layers :=
        if batch_norm params
        then layers ++ [("h1b", BatchNormalization)] else layers in
      let layers := layers ++ [("h1a", Activation (activation params))] in
      if truthyQ (drop_out params)
      then layers ++ [("h1d", Dropout (drop_out params))] else layers
    else layers in
  Ok layers.

(** ** [joint_layers] and [target_layers] *)

Definition joint_layers (params : DenseParams) : list named_layer :=
  let layers := [] in
  let layers :=
    layers ++ [("h1", Dense (d_nb_hidden params) "linear" "glorot_uniform")] in
  let layers :=
    if d_batch_norm params
    then layers ++ [("h1b", BatchNormalization)] else layers in
  let layers := layers ++ [("h1a", Activation (d_activation params))] in
  let layers :=
    if truthyQ (d_drop_out params)
    then layers ++ [("h1d", Dropout (d_drop_out params))] else layers in
  layers.

Definition target_layers (params : DenseParams) : list named_layer :=
  let layers := [] in
  let layers :=
    if truthyZ (d_nb_hidden params) then
      let layers :=
        layers ++ [("h1", Dense (d_nb_hidden params) "linear" "glorot_uniform")] in
      let layers :=
        if d_batch_norm params
        then layers ++ [("h1b", BatchNormalization)] else layers in
      let layers := layers ++ [("h1a", Activation (d_activation params))] in
      if truthyQ (d_drop_out params)
      then layers ++ [("h1d", Dropout (d_drop_out params))] else layers
    else layers in
  let layers := layers ++ [("o", Dense 1 "sigmoid" "glorot_uniform")] in
  layers.

(** ** The graph under construction

    [CpgGraph] comes from the Keras fork the repository depends on.  The
    embedding keeps what [build] hands to it, in call order: the inputs
    with their shapes, the nodes with their layer and wiring, the outputs,
    and what [compile] stores.  The fork's own checks on names are not
    part of [net.py]. *)

Inductive wiring :=
| FromInput (input : string)          (* add_node(input=...) *)
| FromInputs (inputs : list string).  (* add_node(inputs=...): merged *)

Record Node := {
  node_name : string;
  node_layer : layer;
  node_wiring : wiring
}.

Record Optimizer := {
  opt_name : string;
  opt_params : list (string * Q)
}.

Record CpgGraph := {
  inputs : list (string * list Z);
  nodes : list Node;
  outputs : list (string * string);
  loss : option (gmap string string);
  optimizer : option Optimizer
}.

Definition new_graph : CpgGraph :=
  {| inputs := []; nodes := []; outputs := []; loss := None;
     optimizer := None |}.

Definition add_input (model : CpgGraph) (name : string) (input_shape : list Z)
    : CpgGraph :=
  {| inputs := inputs model ++ [(name, input_shape)]; nodes := nodes model;
     outputs := outputs model; loss := loss model;
     optimizer := optimizer model |}.

Definition add_node (model : CpgGraph) (w : wiring) (name : string)
    (l : layer) : CpgGraph :=
  {| inputs := inputs model;
     nodes := nodes model ++
       [{| node_name := name; node_layer := l; node_wiring := w |}];
     outputs := outputs model; loss := loss model;
     optimizer := optimizer model |}.

(** [add_output(input=..., name=...)], kept as [(name, input)]. *)
Definition add_output (model : CpgGraph) (input name : string) : CpgGraph :=
  {| inputs := inputs model; nodes := nodes model;
     outputs := outputs model ++ [(name, input)]; loss := loss model;
     optimizer := optimizer model |}.

Definition output_order (model : CpgGraph) : list string :=
  (outputs model).*1.

Definition compile_graph (model : CpgGraph) (l : gmap string string)
    (o : Optimizer) : CpgGraph :=
  {| inputs := inputs model; nodes := nodes model; outputs := outputs model;
     loss := Some l; optimizer := Some o |}.

(** ** [add_layers] *)

Fixpoint add_layers (model : CpgGraph) (layers : list named_layer)
    (prev_nodes : list string) (prefix : string)
    : result (CpgGraph * list string) :=
  match layers with
  | [] => Ok (model, prev_nodes)
  | (cur_node, cur_layer) :: layers' =>
      let cur_node := fmt_join prefix cur_node in
      model ←
        (if (1 <? length prev_nodes)%nat
         then Ok (add_node model (FromInputs prev_nodes) cur_node cur_layer)
         else
           p ← index prev_nodes 0;
           Ok (add_node model (FromInput p) cur_node cur_layer));
      let prev_nodes := [cur_node] in
      add_layers model layers' prev_nodes prefix
  end.

(** ** [loss_from_ids] *)

(** The [spec] argument when it is not [None]: a dictionary, or any other
    value, which then is the loss of every output. *)
Inductive LossSpec :=
| SpecDict (d : gmap string string)
| SpecValue (v : string).

Definition startswith (x pre : string) : bool :=
  String.prefix pre x.

Definition loss_from_ids (ids : list string) (spec : option LossSpec)
    : gmap string string :=
  let loss :=
    foldl (fun (loss : gmap string string) x =>
             if startswith x "s"
             then <[x := "mse"]> loss
             else <[x := "binary_crossentropy"]> loss) ∅ ids in
  match spec with
  | None => loss
  | Some (SpecDict d) =>
      foldl (fun (loss : gmap string string) kv => <[kv.1 := kv.2]> loss)
            loss (map_to_list d)
  | Some (SpecValue v) =>
      foldl (fun (loss : gmap string string) k => <[k := v]> loss)
            loss (map_to_list loss).*1
  end.

(** ** [build] *)

Record Params := {
  seq : option ConvParams;
  cpg : option ConvParams;
  joint : option DenseParams;
  target : DenseParams;
  p_optimizer : string;
  p_optimizer_params : list (string * Q);
  p_loss : option LossSpec
}.

Definition optimizer_from_params (params : Params) : Optimizer :=
  {| opt_name := p_optimizer params; opt_params := p_optimizer_params params |}.

(** [assert x is not None, msg], giving the value of [x]. *)
Definition assert_not_None {A} (x : option A) (msg : string) : result A :=
  match x with
  | Some a => Ok a
  | None => Raise (AssertionError msg)
  end.

(** The [for target in targets] loop of [build]. *)
Fixpoint build_targets (model : CpgGraph) (params : Params)
    (branch_nodes : list string) (targets : list string)
    (outputs : list string) : result (CpgGraph * list string) :=
  match targets with
  | [] => Ok (model, outputs)
  | target :: targets' =>
      let layers := target_layers (Net.target params) in
      '(model, last) ← add_layers model layers branch_nodes target;
      let output := fmt_join target "y" in
      last0 ← index last 0;
      let model := add_output model last0 output in
      let outputs := outputs ++ [output] in
      build_targets model params branch_nodes targets' outputs
  end.

Definition build (params : Params) (targets : list string)
    (seq_len cpg_len : option Z) (compile : bool) (nb_unit : option Z)
    : result CpgGraph :=
  let model := new_graph in
  let branch_nodes := [] in
  '(model, branch_nodes) ←
    match seq params with
    | Some seq_params =>
        seq_len ← assert_not_None seq_len "seq_len required!";
        let prev_nodes := ["s_x"] in
        let model := add_input model "s_x" [seq_len; 4] in
        layers ← seq_layers seq_params;
        '(model, prev_nodes) ← add_layers model layers prev_nodes "s";
        Ok (model, branch_nodes ++ prev_nodes)
    | None => Ok (model, branch_nodes)
    end;
  '(model, branch_nodes) ←
    match cpg params with
    | Some cpg_params =>
        cpg_len ← assert_not_None cpg_len "cpg_len required!";
        let nb_unit :=
          match nb_unit with
          | None => Z.of_nat (length targets)
          | Some n => n
          end in
        let prev_nodes := ["c_x"] in
        let model :=
          add_input model "c_x" [2; nb_unit; cpg_len] in
        layers ← cpg_layers cpg_params;
        '(model, prev_nodes) ← add_layers model layers prev_nodes "c";
        Ok (model, branch_nodes ++ prev_nodes)
    | None => Ok (model, branch_nodes)
    end;
  '(model, branch_nodes) ←
    match joint params with
    | Some joint_params =>
        if 0 <? d_nb_hidden joint_params then
          let layers := joint_layers joint_params in
          add_layers model layers branch_nodes "j"
        else Ok (model, branch_nodes)
    | None => Ok (model, branch_nodes)
    end;
  '(model, outputs) ← build_targets model params branch_nodes targets [];
  let model :=
    if compile then
      let optimizer := optimizer_from_params params in
      let loss := loss_from_ids (output_order model) (p_loss params) in
      compile_graph model loss optimizer
    else model in
  Ok model.

(** ** Model interchange: [model_from_json], [model_from_pickle],
       [model_from_list], [model_to_pickle], [model_to_json]

    The file system is a map from paths to files.  What Keras and [pickle]
    do with a model is theirs: [to_json] and [kmodels_model_from_json]
    (architecture as JSON text and back), [saved_weights] and
    [load_weights_into] (the weights a model stores in an HDF5 file, and
    loading them) are parameters. *)

Section Interchange.
Context {Model Weights : Type}.
Variable to_json : Model -> string.
Variable kmodels_model_from_json : string -> bool -> result Model.
Variable saved_weights : Model -> Weights.
Variable load_weights_into : Model -> Weights -> result Model.

(** A file holds text, HDF5 weights or a pickled model; reading it as
    another kind fails. *)
Inductive file :=
| TextFile (text : string)
| Hdf5File (w : Weights)
| PickleFile (m : Model).

(** [open(path, 'r')] followed by [f.read()]. *)
Definition read_text (fs : gmap string file) (path : string)
    : result string :=
  match fs !! path with
  | Some (TextFile text) => Ok text
  | Some _ => Raise (ValueError path)
  | None => Raise (IOError path)
  end.

(** [model.load_weights(weights_file)]. *)
Definition load_weights (fs : gmap string file) (model : Model)
    (weights_file : option string) : result Model :=
  match weights_file with
  | None => Raise (TypeError "weights_file")
  | Some path =>
      match fs !! path with
      | Some (Hdf5File w) => load_weights_into model w
      | _ => Raise (IOError path)
      end
  end.

Definition model_from_json (fs : gmap string file) (json_file : string)
    (weights_file : option string) (compile : bool) : result Model :=
  model ← read_text fs json_file;
  model ← kmodels_model_from_json model compile;
  model ← load_weights fs model weights_file;
  Ok model.

Definition model_from_pickle (fs : gmap string file) (pickle_file : string)
    : result Model :=
  match fs !! pickle_file with
  | Some (PickleFile model) => Ok model
  | Some _ => Raise (UnpicklingError pickle_file)
  | None => Raise (IOError pickle_file)
  end.

(** The [fnames] argument: a list, or another iterable that [list(...)]
    turns into one (a tuple, or a string, whose items are its
    characters). *)
Inductive Fnames :=
| FnList (l : list string)
| FnTuple (l : list string)
| FnStr (s : string).

Definition chars (s : string) : list string :=
  (fun c => String c EmptyString) <$> String.list_ascii_of_string s.

(** [fnames] itself when it is a list, [list(fnames)] otherwise. *)
Definition as_list (fnames : Fnames) : list string :=
  match fnames with
  | FnList l => l
  | FnTuple l => l
  | FnStr s => chars s
  end.

Definition model_from_list (fs : gmap string file) (fnames : Fnames)
    (compile : bool) : result Model :=
  let fnames := as_list fnames in
  if (length fnames =? 2)%nat then
    f0 ← index fnames 0;
    f1 ← index fnames 1;
    model_from_json fs f0 (Some f1) compile
  else
    f0 ← index fnames 0;
    model_from_pickle fs f0.

Definition model_to_pickle (fs : gmap string file) (model : Model)
    (path : string) : gmap string file :=
  <[path := PickleFile model]> fs.

Definition model_to_json (fs : gmap string file) (model : Model)
    (json_file : string) (weights_file : option string)
    : gmap string file :=
  let fs := <[json_file := TextFile (to_json model)]> fs in
  match weights_file with
  | Some weights_file => <[weights_file := Hdf5File (saved_weights model)]> fs
  | None => fs
  end.
End Interchange.

(** ** [copy_weights]

    Only the weights of the layer behind each node name matter here, so a
    model is its [nodes] dictionary read as a map from node name to the
    weights of that node's layer; [set_weights] replaces them.  Every node
    has a layer of its own, as [build] creates them.  [src.nodes] is
    iterated, in the order in which the nodes were added; [dst.nodes]
    is only looked up. *)

Section CopyWeights.
Context {W : Type}.
(** [re.search(regex, s)] finds a match. *)
Variable re_search : string -> string -> bool.

(** Modelled from the spec: [deepcpg.utils.filter_regex] is not among the
    sources.  It keeps the strings of [x] that match at least one of
    [regexs]; a single string counts as a list of one. *)
Definition filter_regex (x : list string) (regexs : list string)
    : list string :=
  List.filter (fun xi => existsb (fun regex => re_search regex xi) regexs) x.

Definition truthy_list {A} (l : list A) : bool :=
  match l with
  | [] => false
  | _ => true
  end.

(** [d[k]] on a dictionary. *)
Definition getitem (d : gmap string W) (k : string) : result W :=
  match d !! k with
  | Some v => Ok v
  | None => Raise (KeyError k)
  end.

(** One round of [for k, v in src.nodes.items()]. *)
Definition copy_step (src : odict W) (regexs : list string)
    (st : result (gmap string W * list string)) (kv : string * W)
    : result (gmap string W * list string) :=
  '(dst, copied) ← st;
  let k := kv.1 in
  if truthy_list (filter_regex [k] regexs) && bool_decide (is_Some (dst !! k))
  then
    w ← od_getitem src k;
    _ ← getitem dst k;
    Ok (<[k := w]> dst, copied ++ [k])
  else Ok (dst, copied).

Definition copy_weights (src : odict W) (dst : gmap string W)
    (regexs : list string) : result (gmap string W * list string) :=
  foldl (copy_step src regexs) (Ok (dst, [])) (items src).
End CopyWeights.

(** ** [progress] *)

(** What ['%5d / %d (%.1f%%)'] is filled with. *)
Record ProgressMsg := {
  msg_index : Z;
  msg_total : Z;
  msg_percent : pyfloat
}.

(** [int(np.ceil(a / b))] for [int]s [a] and [b]: the quotient is a
    double, and it is the double that is rounded up. *)
Definition ceil_div (a b : Z) : result Z :=
  q ← true_div a b;
  int_ceil q.

Definition progress (batch_index nb_batch s : Z) : result (option ProgressMsg) :=
  c ← ceil_div nb_batch s;
  let s := Z.max 1 c in
  let f := None in
  let batch_index := batch_index + 1 in
  if (batch_index =? 1) || (batch_index =? nb_batch)
     || (batch_index mod s =? 0)
  then
    r ← true_div batch_index nb_batch;
    Ok (Some {| msg_index := batch_index; msg_total := nb_batch;
                msg_percent := float_mul_int r 100 |})
  else Ok f.

(** ** [optimizer_from_config] and [optimizer_from_json]

    A configuration is what [optimizer_from_json] reads (a string) or a
    dictionary; the value under ['optimizer'] is itself a dictionary of
    strings and numbers.  [kopt.get(identifier, kwargs)] is Keras': the
    embedding keeps its two arguments.  A value without the attribute
    asked of it raises [AttributeError]. *)

Inductive scalar :=
| Text (s : string)
| Number (q : Q).

Inductive entry :=
| Scalar (v : scalar)
| Dict (d : gmap string scalar).

Inductive config :=
| ConfigText (text : string)
| ConfigDict (d : gmap string entry).

Record OptimizerGet := {
  identifier : scalar;
  kwargs : gmap string scalar
}.

Inductive raised :=
| Builtin (e : exn)
| AttributeError (attr : string).

Inductive outcome (A : Type) :=
| Returns (a : A)
| Raises (r : raised).
Arguments Returns {A} a.
Arguments Raises {A} r.

Definition optimizer_from_config (config : config) : outcome OptimizerGet :=
  let optimizer_params : gmap string scalar := ∅ in
  match config with
  | ConfigText _ => Raises (AttributeError "get")
  | ConfigDict d =>
      match d !! "optimizer" with
      | Some (Dict o) =>
          let optimizer_params :=
            foldl (fun (optimizer_params : gmap string scalar) kv =>
                     <[kv.1 := kv.2]> optimizer_params)
                  optimizer_params (map_to_list o) in
          match optimizer_params !! "name" with
          | Some optimizer_name =>
              let optimizer_params := delete "name" optimizer_params in
              Returns {| identifier := optimizer_name;
                         kwargs := optimizer_params |}
          | None => Raises (Builtin (KeyError "name"))
          end
      | _ => Raises (AttributeError "items")
      end
  end.

Definition optimizer_from_json {Model Weights : Type}
    (fs : gmap string (@file Model Weights)) (path : string)
    : outcome OptimizerGet :=
  match read_text fs path with
  | Ok config => optimizer_from_config (ConfigText config)
  | Raise e => Raises (Builtin e)
  end.

(** ** [predict_loop] and [write_loop]

    [km.make_batches] and [km.slice_X] are Keras'; [f], [fun] and
    [write_fun] are the caller's.  An input is the list of its rows; an
    array of predictions is its rows and the shape they share, rows being
    taken as they are (no broadcasting inside a row).  What a loop tells
    its logger and callbacks, and what it writes, is the trace of these
    calls. *)

(** [l[start:end]] for indices that are not negative. *)
Definition slice {A} (l : list A) (batch_start batch_end : nat) : list A :=
  drop batch_start (take batch_end l).

Section Loops.
Context {Row RowShape InsBatch Outs Callback : Type}.
Variable make_batches : nat -> nat -> list (nat * nat).
Variable slice_X : list (list Row) -> list nat -> InsBatch.
(** A row of [np.zeros] of the given row shape. *)
Variable zero_row : RowShape -> Row.

Inductive notice :=
| Log (msg : ProgressMsg)
| CallbackCall (callback : Callback) (batch_index nb_batch : nat).

Inductive call :=
| Notice (n : notice)
| WriteFun (batch_outs : Outs) (batch_start batch_end : nat).

Record array := {
  row_shape : RowShape;
  rows : list Row
}.

(** What [f] returns: a list of arrays, or one array. *)
Inductive predicted :=
| Arrays (l : list array)
| OneArray (a : array).

(** [np.zeros((nb_sample,) + batch_out.shape[1:])]. *)
Definition zeros_like (nb_sample : nat) (batch_out : array) : array :=
  {| row_shape := row_shape batch_out;
     rows := replicate nb_sample (zero_row (row_shape batch_out)) |}.

(** [out[batch_start:batch_end] = batch_out]: the slice is cut to the
    array; as many rows as the slice has are stored, one row is repeated
    over the slice, any other number raises. *)
Definition assign_slice (out : array) (batch_start batch_end : nat)
    (batch_out : array) : result array :=
  let lo := Nat.min batch_start (length (rows out)) in
  let hi := Nat.min batch_end (length (rows out)) in
  let width := (hi - lo)%nat in
  let stored (new_rows : list Row) :=
    {| row_shape := row_shape out;
       rows := take lo (rows out) ++ new_rows
               ++ drop (lo + width) (rows out) |} in
  if (length (rows batch_out) =? width)%nat then Ok (stored (rows batch_out))
  else
    match rows batch_out with
    | [row] => Ok (stored (replicate width row))
    | _ => Raise (ValueError "could not broadcast")
    end.

(** [for i, batch_out in enumerate(batch_outs)], from [i] on. *)
Fixpoint assign_outs (outs : list array) (i : nat) (batch_outs : list array)
    (batch_start batch_end : nat) : result (list array) :=
  match batch_outs with
  | [] => Ok outs
  | batch_out :: batch_outs' =>
      out ← index outs i;
      out ← assign_slice out batch_start batch_end batch_out;
      assign_outs (<[i := out]> outs) (S i) batch_outs' batch_start batch_end
  end.

(** The body of [for batch_index, (batch_start, batch_end) in
    enumerate(batches)] of [predict_loop], from [batch_index] on. *)
Fixpoint predict_batches (ins : list (list Row)) (f : InsBatch -> predicted)
    (callbacks : list Callback) (log : bool) (index_array : list nat)
    (nb_sample nb_batch : nat) (batch_index : nat)
    (batches : list (nat * nat)) (outs : list array) (trace : list notice)
    : result (list array * list notice) :=
  match batches with
  | [] => Ok (outs, trace)
  | (batch_start, batch_end) :: batches' =>
      trace ←
        (if log then
           s ← progress (Z.of_nat batch_index) (Z.of_nat nb_batch) 20;
           match s with
           | Some s => Ok (trace ++ [Log s])
           | None => Ok trace
           end
         else Ok trace);
      let trace :=
        trace ++ ((fun callback => CallbackCall callback batch_index nb_batch)
                    <$> callbacks) in
      let batch_ids := slice index_array batch_start batch_end in
      let ins_batch := slice_X ins batch_ids in
      let batch_outs :=
        match f ins_batch with
        | Arrays l => l
        | OneArray a => [a]
        end in
      let outs :=
        if (batch_index =? 0)%nat
        then outs ++ (zeros_like nb_sample <$> batch_outs)
        else outs in
      outs ← assign_outs outs 0 batch_outs batch_start batch_end;
      predict_batches ins f callbacks log index_array nb_sample nb_batch
        (S batch_index) batches' outs trace
  end.

(** [[data[name] for name in names]]. *)
Fixpoint getitems (data : gmap string (list Row)) (names : list string)
    : result (list (list Row)) :=
  match names with
  | [] => Ok []
  | name :: names' =>
      x ← getitem data name;
      xs ← getitems data names';
      Ok (x :: xs)
  end.

(** [dict(zip(keys, values))]: a later pair with the same key wins. *)
Definition dict_zip (keys : list string) (values : list array)
    : gmap string array :=
  foldl (fun (d : gmap string array) kv => <[kv.1 := kv.2]> d) ∅
        (zip keys values).

(** [predict_loop]; [model_predict] is [model._predict], taken when [f]
    is [None]. *)
Definition predict_loop (input_order output_order : list string)
    (model_predict : InsBatch -> predicted) (data : gmap string (list Row))
    (batch_size : nat) (callbacks : list Callback) (log : bool)
    (f : option (InsBatch -> predicted))
    : result (gmap string array * list notice) :=
  let f :=
    match f with
    | None => model_predict
    | Some f => f
    end in
  ins ← getitems data input_order;
  ins0 ← index ins 0;
  let nb_sample := length ins0 in
  let outs := [] in
  let batches := make_batches nb_sample batch_size in
  let index_array := List.seq 0 nb_sample in
  let nb_batch := length batches in
  '(outs, trace) ←
    predict_batches ins f callbacks log index_array nb_sample nb_batch 0
      batches outs [];
  Ok (dict_zip output_order outs, trace).

(** The body of [for batch_index, (batch_start, batch_end) in
    enumerate(batches)] of [write_loop], from [batch_index] on. *)
Fixpoint write_batches (ins : list (list Row)) (fun_ : InsBatch -> Outs)
    (callbacks : list Callback) (log : bool) (index_array : list nat)
    (nb_batch : nat) (batch_index : nat) (batches : list (nat * nat))
    (trace : list call) : result (list call) :=
  match batches with
  | [] => Ok trace
  | (batch_start, batch_end) :: batches' =>
      trace ←
        (if log then
           s ← progress (Z.of_nat batch_index) (Z.of_nat nb_batch) 20;
           match s with
           | Some s => Ok (trace ++ [Notice (Log s)])
           | None => Ok trace
           end
         else Ok trace);
      let trace :=
        trace ++ ((fun callback =>
                     Notice (CallbackCall callback batch_index nb_batch))
                    <$> callbacks) in
      let batch_ids := slice index_array batch_start batch_end in
      let ins_batch := slice_X ins batch_ids in
      let batch_outs := fun_ ins_batch in
      let trace := trace ++ [WriteFun batch_outs batch_start batch_end] in
      write_batches ins fun_ callbacks log index_array nb_batch
        (S batch_index) batches' trace
  end.

Definition write_loop (ins : list (list Row)) (fun_ : InsBatch -> Outs)
    (batch_size : nat) (callbacks : list Callback) (log : bool)
    : result (list call) :=
  ins0 ← index ins 0;
  let nb_sample := length ins0 in
  let batches := make_batches nb_sample batch_size in
  let index_array := List.seq 0 nb_sample in
  let nb_batch := length batches in
  write_batches ins fun_ callbacks log index_array nb_batch 0 batches [].
End Loops.

End Net.

Module Train.

(** ** Arrays

    A numpy array (or the HDF5 dataset behind it) is its shape and its
    entries in row-major order.  Labels are numbers; a weight and a
    prediction are floating-point values. *)

Record ndarray (A : Type) := {
  shape : list nat;
  flat : list A
}.
Arguments shape {A} _.
Arguments flat {A} _.

Definition size_of (shape : list nat) : nat := foldr Nat.mul 1%nat shape.

(** The invariant of an array: as many entries as its shape says. *)
Definition wf_array {A} (a : ndarray A) : Prop :=
  length (flat a) = size_of (shape a).

(** [d[k]] on a dictionary. *)
Definition getitem {A} (d : gmap string A) (k : string) : result A :=
  match d !! k with
  | Some v => Ok v
  | None => Raise (KeyError k)
  end.

(** [re.search(pat, s)] for a pattern without special characters: [pat]
    occurs in [s]. *)
Fixpoint contains (pat s : string) : bool :=
  String.prefix pat s ||
  match s with
  | EmptyString => false
  | String _ s' => contains pat s'
  end.

Section Weights.
(** [io.MASK], the label of a missing observation ([deepcpg.io]). *)
Variable MASK : Q.
(** [a.mean()] of numpy, not-a-number for an array without entries. *)
Variable mean : list Q -> pyfloat.
(** [1 - t], computed in the floating-point type of [t]. *)
Variable one_minus : pyfloat -> pyfloat.

(** [np.ones(shape, dtype='float16')]. *)
Definition ones (shape : list nat) : ndarray pyfloat :=
  {| shape := shape; flat := replicate (size_of shape) (Finite 1) |}.

(** [y == k], entry by entry. *)
Definition eq_mask (y : ndarray Q) (k : Q) : ndarray bool :=
  {| shape := shape y; flat := (fun a => Qeq_bool a k) <$> flat y |}.

(** [~h]. *)
Definition invert (h : ndarray bool) : ndarray bool :=
  {| shape := shape h; flat := negb <$> flat h |}.

(** [a[mask] = v] on a [float16] array, for a mask of the shape of [a]
    (in [get_sample_weights] the array is made with the shape of the
    mask): what is stored is [v] as a half. *)
Definition assign_where (a : ndarray pyfloat) (mask : ndarray bool)
    (v : pyfloat) : ndarray pyfloat :=
  {| shape := shape a;
     flat := zip_with (fun (m : bool) w => if m then to_float16 v else w)
               (flat mask) (flat a) |}.

(** [a[mask]], the boolean indexing of numpy.  The shape of the mask
    has to be the beginning of the shape of [a] (the whole of it, for
    arrays of the same shape), else the indexing raises; an entry of
    the mask then stands for the block of entries of [a] below its
    position, and the entries of the blocks where the mask holds are
    selected, in order. *)
Definition select_where {A} (a : ndarray A) (mask : ndarray bool)
    : result (list A) :=
  if bool_decide (shape mask `prefix_of` shape a) then
    let block := size_of (drop (length (shape mask)) (shape a)) in
    Ok (concat
          (imap (fun i (m : bool) =>
                   if m then take block (drop (i * block) (flat a)) else [])
                (flat mask)))
  else Raise IndexError.

(** [d[k] = v] on a dictionary with numbers as keys, kept in insertion
    order. *)
Fixpoint dict_set {V} (d : list (Q * V)) (k : Q) (v : V) : list (Q * V) :=
  match d with
  | [] => [(k, v)]
  | (k', v') :: d' =>
      if Qeq_bool k' k then (k', v) :: d' else (k', v') :: dict_set d' k v
  end.

Definition get_sample_weights (y : ndarray Q) (weight_classes : bool)
    : ndarray pyfloat :=
  let class_weights := [(MASK, Finite 0)] in
  let class_weights :=
    if weight_classes then
      let t := mean (List.filter (fun a => negb (Qeq_bool a MASK)) (flat y)) in
      let class_weights := dict_set class_weights 0%Q t in
      dict_set class_weights 1%Q (one_minus t)
    else class_weights in
  let sample_weights := ones (shape y) in
  foldl (fun sample_weights kv => assign_where sample_weights (eq_mask y kv.1) kv.2)
        sample_weights class_weights.

(** [np.all(a == v)]. *)
Definition all_eq (a : list pyfloat) (v : Q) : bool :=
  forallb (fun w => float_eqb w v) a.

Definition assert (b : bool) : result unit :=
  if b then Ok tt else Raise (AssertionError "").

(** [check_weights], over [model.output_order]. *)
Fixpoint check_weights (output_order : list string)
    (y : gmap string (ndarray Q)) (weights : gmap string (ndarray pyfloat))
    : result unit :=
  match output_order with
  | [] => Ok tt
  | output :: rest =>
      yo ← getitem y output;
      let h := eq_mask yo MASK in
      w ← getitem weights output;
      w_masked ← select_where w h;
      _ ← assert (all_eq w_masked 0%Q);
      w_other ← select_where w (invert h);
      _ ← assert (all_eq w_other 1%Q);
      check_weights rest y weights
  end.

(** Modelled from the spec: [io.to_view] is not among the sources.  It
    wraps every array of the dictionary in a view onto the same
    entries, so reading through the view gives the array back. *)
Definition to_view {A} (d : gmap string (ndarray A)) : gmap string (ndarray A) :=
  d.

(** The [for k in model.output_order] loop of [read_data]. *)
Fixpoint read_weights (output_order : list string)
    (data : gmap string (ndarray Q)) (weights : gmap string (ndarray pyfloat))
    : result (gmap string (ndarray pyfloat)) :=
  match output_order with
  | [] => Ok weights
  | k :: rest =>
      yk ← getitem data k;
      read_weights rest data (<[k := get_sample_weights yk false]> weights)
  end.

(** [read_data], from the dictionary that [io.read_hdf] returns. *)
Definition read_data (data : gmap string (ndarray Q))
    (output_order : list string)
    : result (gmap string (ndarray Q) * gmap string (ndarray pyfloat)) :=
  let weights := ∅ in
  weights ← read_weights output_order data weights;
  let data := to_view data in
  let weights := to_view weights in
  _ ← check_weights output_order data weights;
  Ok (data, weights).
End Weights.

(** ** [eval_io]

    The predictions [z] and [model.loss] are dictionaries that
    [eval_io] iterates; the labels [y] are only looked up.  The
    dictionaries made for a group of outputs are handed to
    [ev.evaluate_all] as their items. *)

Inductive eval_funs :=
| EvalFuns          (* ev.eval_funs *)
| EvalFunsRegress.  (* ev.eval_funs_regress *)

Section EvalIO.
Context {Frame : Type}.
Variable MASK : Q.
(** [ev.evaluate_all(y, z, funs=..., mask=...)]; without [mask] it
    masks nothing. *)
Variable evaluate_all :
  list (string * ndarray Q) -> list (string * list pyfloat) ->
  eval_funs -> option Q -> Frame.
(** The renaming and sorting of the index at the end of [evaluate]. *)
Variable index_by_target : Frame -> list string -> Frame.
Variable to_string : Frame -> string.

Inductive event :=
| WriteZ (path : string)                (* io.write_z(y, z, targets, path) *)
| PrintOut (text : string)               (* print(text) *)
| EvalToFile (e : Frame) (path : string).

Definition evaluate (y : list (string * ndarray Q))
    (z : list (string * list pyfloat)) (targets : list string)
    (funs : eval_funs) (mask : option Q) : Frame :=
  let p := evaluate_all y z funs mask in
  index_by_target p targets.

Definition isnan (x : pyfloat) : bool :=
  match x with
  | NaN => true
  | _ => false
  end.

(** The loop over [model.loss.items()]. *)
Definition split_outputs (loss_items : list (string * string))
    : list string * list string :=
  foldl (fun '(cla, reg) '(k, v) =>
           if contains "binary_crossentropy" v
           then (cla ++ [k], reg)
           else (cla, reg ++ [k]))
        ([], []) loss_items.

(** [{k: lookup(k) for k in ks}], from the items [made] so far: a key
    that comes again keeps its place (and gets the same value). *)
Fixpoint restrict {A} (lookup : string -> result A) (ks : list string)
    (made : list (string * A)) : result (list (string * A)) :=
  match ks with
  | [] => Ok made
  | k :: ks' =>
      v ← lookup k;
      restrict lookup ks'
        (if bool_decide (k ∈ made.*1) then made else made ++ [(k, v)])
  end.

(** ['%s_<suffix>' % (out_base)]. *)
Definition out_name (out_base suffix : string) : string :=
  out_base +:+ suffix.

(** [evaluate] returns a data frame or raises, so the tests
    [if e is not None] always succeed.  [eval_io] returns [None] in every
    case; what it does is the trace. *)
Definition eval_io (loss : odict string)
    (y : gmap string (ndarray Q)) (z : odict (list pyfloat))
    (out_base : string) (targets : list string) : result (list event) :=
  z0 ← index (items z).*2 0;
  if existsb isnan z0 then Ok []
  else
    let trace := [WriteZ (out_name out_base "_z.h5")] in
    let '(cla, reg) := split_outputs (items loss) in
    trace ←
      (if negb (length cla =? 0)%nat then
         ys ← restrict (getitem y) cla [];
         zs ← restrict (od_getitem z) cla [];
         let e := evaluate ys zs targets EvalFuns (Some MASK) in
         Ok (trace ++ [PrintOut "Classification:"; PrintOut (to_string e);
                       EvalToFile e (out_name out_base "_cla.csv")])
       else Ok trace);
    trace ←
      (if negb (length reg =? 0)%nat then
         ys ← restrict (getitem y) reg [];
         zs ← restrict (od_getitem z) reg [];
         let e := evaluate ys zs targets EvalFunsRegress None in
         Ok (trace ++ [PrintOut "Regression:"; PrintOut (to_string e);
                       EvalToFile e (out_name out_base "_reg.csv")])
       else Ok trace);
    Ok trace.
End EvalIO.

(** ** [App.adjust_batch_size] and the batch-size step of [App.main] *)

Section BatchSize.
Context {Model : Type}.
(** [model.train_on_batch] on the first [batch_size] samples: the model
    afterwards, and whether the call returned ([true]) or raised. *)
Variable train_on_batch : Model -> Z -> Model * bool.
(** [model.optimizer.lr.set_value]. *)
Variable set_lr : Model -> Q -> Model.

Inductive log_entry :=
| Info (msg : string)
| Error (msg : string).

Definition configs : list (Z * Q) :=
  [(512, 0.000125%Q); (256, 0.00025%Q); (128, 0.0005%Q);
   (64, 0.001%Q); (32, 0.001%Q); (16, 0.001%Q)].

(** The [for i in range(len(configs))] loop, from index [i] on, until
    [break]; [idx] stays [None] when no attempt succeeds. *)
Fixpoint try_configs (model : Model) (nb_sample : Z) (log : list log_entry)
    (i : nat) (todo : list (Z * Q))
    : Model * list log_entry * option nat :=
  match todo with
  | [] => (model, log, None)
  | c :: todo' =>
      let batch_size := c.1 in
      if nb_sample <? batch_size then
        try_configs model nb_sample log (S i) todo'
      else
        let log := log ++ [Info ("Try batch size " +:+ pretty batch_size)] in
        let '(model, returned) := train_on_batch model batch_size in
        if returned then (model, log, Some i)
        else
          let log :=
            log ++ [Info ("Batch size " +:+ pretty batch_size +:+ " failed!")] in
          try_configs model nb_sample log (S i) todo'
  end.

(** [idx], when set, is an index of [configs]. *)
Definition adjust_batch_size (model : Model) (nb_sample : Z)
    (log : list log_entry)
    : Model * list log_entry * (option Z * option Q) :=
  let '(model, log, idx) := try_configs model nb_sample log 0 configs in
  match idx with
  | None => (model, log, (None, None))
  | Some idx =>
      match configs !! idx with
      | Some c => (model, log, (Some c.1, Some c.2))
      | None => (model, log, (None, None))
      end
  end.

(** How [main] goes on after the "Define batch size" step: it returns an
    exit code, or trains with a batch size. *)
Inductive step :=
| Return (code : Z)
| TrainWith (batch_size : Z).

(** The "Define batch size" step of [main].  [params_batch_size] is
    [model_params.batch_size] when a parameter file was given.
    [adjust_batch_size] returns a learning rate whenever it returns a
    batch size. *)
Definition define_batch_size (opts_batch_size : option Z)
    (opts_batch_size_auto : bool) (params_batch_size : option Z)
    (model : Model) (nb_sample : Z) (log : list log_entry)
    : Model * list log_entry * step :=
  let given :=
    match opts_batch_size with
    | Some n => truthyZ n
    | None => false
    end in
  if given then (model, log, TrainWith (default 0 opts_batch_size))
  else if opts_batch_size_auto || bool_decide (params_batch_size = None) then
    let log := log ++ [Info "Adjust batch size"] in
    let '(model, log, (batch_size, lr)) :=
      adjust_batch_size model nb_sample log in
    match batch_size, lr with
    | Some batch_size, Some lr => (set_lr model lr, log, TrainWith batch_size)
    | _, _ => (model, log ++ [Error "GPU memory to small"], Return 1)
    end
  else (model, log, TrainWith (default 0 params_batch_size)).
End BatchSize.

(** ** [build_model]

    The data file is read for the shapes of the datasets of its group
    ['data'] only: [g] maps a dataset name to its shape. *)

(** The lines of [build_model] before it calls [net.build]:
    [(seq_len, cpg_len, nb_unit)]. *)
Definition read_shapes (g : gmap string (list Z))
    : result (option Z * option Z * option Z) :=
  let seq_len := None in
  let cpg_len := None in
  let nb_unit := None in
  seq_len ←
    match g !! "s_x" with
    | Some shape => n ← index shape 1; Ok (Some n)
    | None => Ok seq_len
    end;
  '(nb_unit, cpg_len) ←
    match g !! "c_x" with
    | Some shape =>
        nb_unit ← index shape 2;
        cpg_len ← index shape 3;
        Ok (Some nb_unit, Some cpg_len)
    | None => Ok (nb_unit, cpg_len)
    end;
  Ok (seq_len, cpg_len, nb_unit).

Definition build_model (params : Net.Params) (g : gmap string (list Z))
    (targets_id : list string) : result Net.CpgGraph :=
  '(seq_len, cpg_len, nb_unit) ← read_shapes g;
  Net.build params targets_id seq_len cpg_len false nb_unit.

(** ** The steps of [App.main] around the model *)

Section CompileStep.
Context {Weights : Type}.
(** [kopt.get(identifier, kwargs)] of Keras, as [compile] stores it. *)
Variable kopt_get : Net.OptimizerGet -> Net.Optimizer.

(** The "Compile model" step of [main]: [opts_model] is [opts.model]; a
    model has the attribute [loss] once it has been compiled. *)
Definition compile_step (opts_compile : bool)
    (model_params : option Net.Params) (opts_model : option (list string))
    (fs : gmap string (@Net.file Net.CpgGraph Weights))
    (model : Net.CpgGraph) : Net.outcome Net.CpgGraph :=
  let hasattr_loss := bool_decide (is_Some (Net.loss model)) in
  if opts_compile || negb hasattr_loss then
    match model_params with
    | None =>
        match opts_model with
        | None => Net.Raises (Net.Builtin (TypeError "opts.model[0]"))
        | Some names =>
            match index names 0 with
            | Raise e => Net.Raises (Net.Builtin e)
            | Ok name =>
                match Net.optimizer_from_json fs name with
                | Net.Raises r => Net.Raises r
                | Net.Returns optimizer =>
                    let loss := None in
                    let loss := Net.loss_from_ids (Net.output_order model) loss in
                    Net.Returns
                      (Net.compile_graph model loss (kopt_get optimizer))
                end
            end
        end
    | Some model_params =>
        let optimizer := Net.optimizer_from_params model_params in
        let loss := Net.p_loss model_params in
        let loss := Net.loss_from_ids (Net.output_order model) loss in
        Net.Returns (Net.compile_graph model loss optimizer)
    end
  else Net.Returns model.
End CompileStep.

(** [os.path.join(a, b)]. *)
Fixpoint ends_with_slash (a : string) : bool :=
  match a with
  | EmptyString => false
  | String c rest =>
      match rest with
      | EmptyString => String.eqb (String c "") "/"
      | String _ _ => ends_with_slash rest
      end
  end.

Definition path_join (a b : string) : string :=
  if String.prefix "/" b then b
  else if String.eqb a "" || ends_with_slash a then a +:+ b
  else a +:+ "/" +:+ b.

Definition of_result {A} (r : result A) : Net.outcome A :=
  match r with
  | Ok a => Net.Returns a
  | Raise e => Net.Raises (Net.Builtin e)
  end.

Section ModelSteps.
Context {Weights : Type}.
Variable to_json : Net.CpgGraph -> string.
Variable kmodels_model_from_json : string -> bool -> result Net.CpgGraph.
Variable saved_weights : Net.CpgGraph -> Weights.
Variable load_weights_into : Net.CpgGraph -> Weights -> result Net.CpgGraph.

(** The "Build model" step of [main], from the targets read to the
    model; [g] holds the shapes of the datasets of the training file.
    Raising a string is a [TypeError]; [assert 'Parameter file needed!']
    asserts a string that is not empty, so it passes; [net.build] on
    [None] fails at [params.seq]. *)
Definition model_step (targets_name targets_id : list string)
    (model_params : option Net.Params) (opts_model : option (list string))
    (g : gmap string (list Z))
    (fs : gmap string (@Net.file Net.CpgGraph Weights))
    : Net.outcome Net.CpgGraph :=
  if (length targets_name =? 0)%nat then
    Net.Raises (Net.Builtin (TypeError "exceptions must derive from BaseException"))
  else
    match opts_model with
    | None =>
        match model_params with
        | Some params => of_result (build_model params g targets_id)
        | None =>
            match read_shapes g with
            | Ok _ => Net.Raises (Net.AttributeError "seq")
            | Raise e => Net.Raises (Net.Builtin e)
            end
        end
    | Some fnames =>
        of_result
          (Net.model_from_list kmodels_model_from_json load_weights_into fs
             (Net.FnList fnames) false)
    end.

(** The "Save model" step of [main]: [model_to_json] without a weights
    file, then [model.save_weights]. *)
Definition save_model (fs : gmap string (@Net.file Net.CpgGraph Weights))
    (model : Net.CpgGraph) (out_dir : string)
    : gmap string (@Net.file Net.CpgGraph Weights) :=
  let fs :=
    Net.model_to_json to_json saved_weights fs model
      (path_join out_dir "model.json") None in
  <[path_join out_dir "model_weights.h5" := Net.Hdf5File (saved_weights model)]>
    fs.
End ModelSteps.

(** [output.replace('_y', '')]: every ['_y'] is taken out, from the left. *)
Fixpoint replace_y (s : string) : string :=
  match s with
  | EmptyString => EmptyString
  | String c rest =>
      match rest with
      | String c' rest' =>
          if String.eqb (String c (String c' "")) "_y" then replace_y rest'
          else String c (replace_y rest)
      | EmptyString => String c EmptyString
      end
  end.

(** [l.index(x)]: the first position of [x]. *)
Fixpoint list_index (l : list string) (x : string) : result nat :=
  match l with
  | [] => Raise (ValueError x)
  | y :: l' =>
      if String.eqb y x then Ok 0%nat
      else i ← list_index l' x; Ok (S i)
  end.

(** The lines that [main] prints under "Targets:". *)
Fixpoint print_targets (output_order : list string)
    (targets_id targets_name : list string) : result (list string) :=
  match output_order with
  | [] => Ok []
  | output :: rest =>
      h ← list_index targets_id (replace_y output);
      id ← index targets_id h;
      name ← index targets_name h;
      lines ← print_targets rest targets_id targets_name;
      Ok ((id +:+ ": " +:+ name) :: lines)
  end.

End Train.

(** * Vocabulary of the properties *)

(** ** Losses *)

(** The loss an output id gets without a spec. *)
Definition default_loss (x : string) : string :=
  if Net.startswith x "s" then "mse" else "binary_crossentropy".

(** ** Layer lists *)

(** A layer that is there only when [b] holds. *)
Definition opt_layer (b : bool) (l : Net.named_layer) : list Net.named_layer :=
  if b then [l] else [].

(** The dense hidden head: ['h1'], batch normalisation if asked for, the
    activation ['h1a'], drop-out if asked for. *)
Definition hidden_head (nb_hidden : Z) (activation : string)
    (batch_norm : bool) (drop_out : Q) : list Net.named_layer :=
  [("h1", Net.Dense nb_hidden "linear" "glorot_uniform")]
  ++ opt_layer batch_norm ("h1b", Net.BatchNormalization)
  ++ [("h1a", Net.Activation activation)]
  ++ opt_layer (truthyQ drop_out) ("h1d", Net.Dropout drop_out).

(** Every index of [nb_filter] is one of [filter_len] and of [pool_len]. *)
Definition lists_parallel (p : Net.ConvParams) : Prop :=
  (length (Net.nb_filter p) <= length (Net.filter_len p))%nat /\
  (length (Net.nb_filter p) <= length (Net.pool_len p))%nat.

(** The shape of a convolutional branch with convolutions [conv] and
    poolings [pool]: optional input drop-out, then for every index [l]
    of [nb_filter] the convolution ['c<l+1>'] at position [2l] directly
    followed by the pooling ['p<l+1>'], then ['f1'], optional drop-out,
    and the hidden head exactly when [nb_hidden] is truthy. *)
Definition conv_branch_shape (conv : Z -> Z -> Net.layer) (pool : Z -> Net.layer)
    (p : Net.ConvParams) (layers : list Net.named_layer) : Prop :=
  exists blocks,
    layers =
      opt_layer (truthyQ (Net.drop_in p)) ("xd", Net.Dropout (Net.drop_in p))
      ++ blocks ++ [("f1", Net.Flatten)]
      ++ opt_layer (truthyQ (Net.drop_out p)) ("f1d", Net.Dropout (Net.drop_out p))
      ++ (if truthyZ (Net.nb_hidden p)
          then hidden_head (Net.nb_hidden p) (Net.activation p)
                 (Net.batch_norm p) (Net.drop_out p)
          else []) /\
    length blocks = (2 * length (Net.nb_filter p))%nat /\
    forall (l : nat) nf, Net.nb_filter p !! l = Some nf ->
      exists fl pl,
        Net.filter_len p !! l = Some fl /\
        Net.pool_len p !! l = Some pl /\
        blocks !! (2 * l)%nat = Some (fmt_d "c" (l + 1), conv nf fl) /\
        blocks !! (2 * l + 1)%nat = Some (fmt_d "p" (l + 1), pool pl).

(** The loop of [cpg_layers] and [seq_layers] for any convolution and
    pooling. *)
Fixpoint conv_loop (conv : Z -> Z -> Net.layer) (pool : Z -> Net.layer)
    (params : Net.ConvParams) (ls : list nat) (layers : list Net.named_layer)
    : result (list Net.named_layer) :=
  match ls with
  | [] => Ok layers
  | l :: ls' =>
      nf ← index (Net.nb_filter params) l;
      fl ← index (Net.filter_len params) l;
      let layers := layers ++ [(fmt_d "c" (l + 1), conv nf fl)] in
      pl ← index (Net.pool_len params) l;
      let layers := layers ++ [(fmt_d "p" (l + 1), pool pl)] in
      conv_loop conv pool params ls' layers
  end.

(** ** Graphs *)

(** How a layer list is wired to the nodes [prev]: merged when there are
    several, from the single one otherwise; there is no wiring from no
    node. *)
Definition wiring_of (prev : list string) : option Net.wiring :=
  match prev with
  | [] => None
  | [p] => Some (Net.FromInput p)
  | _ => Some (Net.FromInputs prev)
  end.

(** The nodes of a layer list under [prefix]: the first wired by [w],
    each further one to the node before it. *)
Fixpoint chain (prefix : string) (w : Net.wiring)
    (layers : list Net.named_layer) : list Net.Node :=
  match layers with
  | [] => []
  | (name, l) :: layers' =>
      {| Net.node_name := fmt_join prefix name; Net.node_layer := l;
         Net.node_wiring := w |}
      :: chain prefix (Net.FromInput (fmt_join prefix name)) layers'
  end.

(** The name of the last node of a layer list under [prefix]. *)
Definition last_node (prefix : string) (layers : list Net.named_layer)
    : option string :=
  (fun l : Net.named_layer => fmt_join prefix l.1) <$> last layers.

(** A graph with further nodes and outputs. *)
Definition extend (model : Net.CpgGraph) (ns : list Net.Node)
    (os : list (string * string)) : Net.CpgGraph :=
  {| Net.inputs := Net.inputs model; Net.nodes := Net.nodes model ++ ns;
     Net.outputs := Net.outputs model ++ os; Net.loss := Net.loss model;
     Net.optimizer := Net.optimizer model |}.

(** The nodes and the output of the head of one target. *)
Definition head_nodes (params : Net.Params) (w : Net.wiring)
    (target : string) : list Net.Node :=
  chain target w (Net.target_layers (Net.target params)).
Definition head_output (target : string) : string * string :=
  (fmt_join target "y", fmt_join target "o").

(** What a branch contributes: nothing when it is off, else the chain of
    its layers from its input and, as output, the last node of it. *)
Definition branch_of (params : option Net.ConvParams)
    (layers_of : Net.ConvParams -> result (list Net.named_layer))
    (prefix input : string) (ns : list Net.Node) (out : list string) : Prop :=
  match params with
  | None => ns = [] /\ out = []
  | Some p =>
      exists layers last,
        layers_of p = Ok layers /\
        ns = chain prefix (Net.FromInput input) layers /\
        last_node prefix layers = Some last /\
        out = [last]
  end.

(** Whether [build] adds the joint branch. *)
Definition joint_enabled (params : Net.Params) : bool :=
  match Net.joint params with
  | Some joint_params => 0 <? Net.d_nb_hidden joint_params
  | None => false
  end.

(** Enough for [build] to return: a length for every enabled branch,
    parallel lists in its parameters, and at least one branch. *)
Definition build_ready (params : Net.Params) (seq_len cpg_len : option Z)
    : Prop :=
  (forall sp, Net.seq params = Some sp -> is_Some seq_len /\ lists_parallel sp) /\
  (forall cp, Net.cpg params = Some cp -> is_Some cpg_len /\ lists_parallel cp) /\
  (is_Some (Net.seq params) \/ is_Some (Net.cpg params)).

(** ** The phases of [build] *)

Definition seq_phase (params : Net.Params) (seq_len : option Z)
    (model : Net.CpgGraph) (branch_nodes : list string)
    : result (Net.CpgGraph * list string) :=
  match Net.seq params with
  | Some seq_params =>
      seq_len ← Net.assert_not_None seq_len "seq_len required!";
      let prev_nodes := ["s_x"] in
      let model := Net.add_input model "s_x" [seq_len; 4] in
      layers ← Net.seq_layers seq_params;
      '(model, prev_nodes) ← Net.add_layers model layers prev_nodes "s";
      Ok (model, branch_nodes ++ prev_nodes)
  | None => Ok (model, branch_nodes)
  end.

Definition cpg_phase (params : Net.Params) (targets : list string)
    (cpg_len nb_unit : option Z) (model : Net.CpgGraph)
    (branch_nodes : list string) : result (Net.CpgGraph * list string) :=
  match Net.cpg params with
  | Some cpg_params =>
      cpg_len ← Net.assert_not_None cpg_len "cpg_len required!";
      let nb_unit :=
        match nb_unit with
        | None => Z.of_nat (length targets)
        | Some n => n
        end in
      let prev_nodes := ["c_x"] in
      let model := Net.add_input model "c_x" [2; nb_unit; cpg_len] in
      layers ← Net.cpg_layers cpg_params;
      '(model, prev_nodes) ← Net.add_layers model layers prev_nodes "c";
      Ok (model, branch_nodes ++ prev_nodes)
  | None => Ok (model, branch_nodes)
  end.

Definition joint_phase (params : Net.Params) (model : Net.CpgGraph)
    (branch_nodes : list string) : result (Net.CpgGraph * list string) :=
  match Net.joint params with
  | Some joint_params =>
      if 0 <? Net.d_nb_hidden joint_params then
        let layers := Net.joint_layers joint_params in
        Net.add_layers model layers branch_nodes "j"
      else Ok (model, branch_nodes)
  | None => Ok (model, branch_nodes)
  end.

Definition compile_phase (params : Net.Params) (compile : bool)
    (model : Net.CpgGraph) : Net.CpgGraph :=
  if compile then
    Net.compile_graph model
      (Net.loss_from_ids (Net.output_order model) (Net.p_loss params))
      (Net.optimizer_from_params params)
  else model.

(** ** Batch sizes *)

Section BatchSizeVocabulary.
Context {Model : Type}.
Variable train_on_batch : Model -> Z -> Model * bool.

(** The model after [train_on_batch] was called for each of [cs]. *)
Definition train_all (model : Model) (cs : list (Z * Q)) : Model :=
  foldl (fun m c => (train_on_batch m c.1).1) model cs.

(** Every attempt of [cs], made in this order from [model] on, raises. *)
Definition all_raise (model : Model) (cs : list (Z * Q)) : Prop :=
  forall pre c post, cs = pre ++ c :: post ->
    (train_on_batch (train_all model pre) c.1).2 = false.
End BatchSizeVocabulary.

(** The two messages [adjust_batch_size] logs for a configuration. *)
Definition try_msg (c : Z * Q) : Train.log_entry :=
  Train.Info ("Try batch size " +:+ pretty c.1).
Definition failed_msg (c : Z * Q) : Train.log_entry :=
  Train.Info ("Batch size " +:+ pretty c.1 +:+ " failed!").

(** ** Copied nodes *)

Section CopyVocabulary.
Context {W : Type}.
Variable re_search : string -> string -> bool.

(** [k] matches at least one of [regexs]. *)
Definition matches_any (regexs : list string) (k : string) : Prop :=
  exists regex, regex ∈ regexs /\ re_search regex k = true.

(** The condition under which a node is copied. *)
Definition copies (regexs : list string) (dst : gmap string W)
    (k : string) : Prop :=
  matches_any regexs k /\ is_Some (dst !! k).

(** The same as a test, and the assignment that goes with it. *)
Definition copied_node (regexs : list string) (dst : gmap string W)
    (k : string) : bool :=
  existsb (fun regex => re_search regex k) regexs
  && bool_decide (is_Some (dst !! k)).

Definition set_node (regexs : list string) (dst : gmap string W)
    (d : gmap string W) (kv : string * W) : gmap string W :=
  if copied_node regexs dst kv.1 then <[kv.1 := kv.2]> d else d.
End CopyVocabulary.

(** ** Evaluation reports *)

Section EvalVocabulary.
Context {Frame : Type}.
Variable evaluate_all :
  list (string * Train.ndarray Q) -> list (string * list pyfloat) ->
  Train.eval_funs -> option Q -> Frame.
Variable index_by_target : Frame -> list string -> Frame.
Variable to_string : Frame -> string.

(** The items of a group of outputs, in the order of the group. *)
Definition group_items {A} (lookup : string -> option A) (ks : list string)
    : list (string * A) :=
  omap (fun k => pair k <$> lookup k) ks.

(** What [eval_io] does with one group of outputs: nothing when the
    group is empty, else it evaluates the labels and predictions of the
    group, prints the result under [title] and writes it to
    [out_base ++ suffix]. *)
Definition group_report (y : gmap string (Train.ndarray Q))
    (z : odict (list pyfloat)) (out_base : string)
    (targets : list string) (ks : list string) (funs : Train.eval_funs)
    (mask : option Q) (title suffix : string) : list (Train.event (Frame := Frame)) :=
  match ks with
  | [] => []
  | _ =>
      let e := Train.evaluate evaluate_all index_by_target
                 (group_items (fun k => y !! k) ks)
                 (group_items (fun k => z !! k) ks) targets funs mask in
      [Train.PrintOut title; Train.PrintOut (to_string e);
       Train.EvalToFile e (out_base +:+ suffix)]
  end.
End EvalVocabulary.

(** ** The inputs of [build] and when it returns *)

(** The input of the sequence branch and of the CpG branch: none when
    the branch is off. *)
Definition seq_input (params : Net.Params) (seq_len : option Z)
    : list (string * list Z) :=
  match Net.seq params, seq_len with
  | Some _, Some n => [("s_x", [n; 4])]
  | _, _ => []
  end.

Definition cpg_input (params : Net.Params) (targets : list string)
    (cpg_len nb_unit : option Z) : list (string * list Z) :=
  match Net.cpg params, cpg_len with
  | Some _, Some n =>
      [("c_x", [2; default (Z.of_nat (length targets)) nb_unit; n])]
  | _, _ => []
  end.

(** A length for every enabled branch, parallel lists in its
    parameters, and a node to start from: a branch, or nothing to
    attach (no joint layers and no target). *)
Definition build_returns (params : Net.Params) (targets : list string)
    (seq_len cpg_len : option Z) : Prop :=
  (forall sp, Net.seq params = Some sp -> is_Some seq_len /\ lists_parallel sp) /\
  (forall cp, Net.cpg params = Some cp -> is_Some cpg_len /\ lists_parallel cp) /\
  (is_Some (Net.seq params) \/ is_Some (Net.cpg params) \/
   (joint_enabled params = false /\ targets = [])).

(** ** The data file of [build_model] *)

(** Dimension [i] of the dataset [name], when there is one. *)
Definition dataset_dim (g : gmap string (list Z)) (name : string) (i : nat)
    : option Z :=
  match g !! name with
  | Some shape => shape !! i
  | None => None
  end.

(** ** Batches and what the loops tell *)

(** Consecutive batches from [lo] up to [hi]. *)
Fixpoint tiles (batches : list (nat * nat)) (lo hi : nat) : Prop :=
  match batches with
  | [] => lo = hi
  | (batch_start, batch_end) :: batches' =>
      batch_start = lo /\ (lo <= batch_end)%nat /\ tiles batches' batch_end hi
  end.

(** [make_batches] of Keras: [ceil(size / batch_size)] batches of
    [batch_size] samples, the last one cut at [size]. *)
Definition keras_make_batches (size batch_size : nat) : list (nat * nat) :=
  let nb_batch := ((size + batch_size - 1) / batch_size)%nat in
  (fun i => ((i * batch_size)%nat, Nat.min size ((i + 1) * batch_size)))
    <$> seq 0 nb_batch.

(** The sample indices of a batch. *)
Definition batch_ids (nb_sample : nat) (b : nat * nat) : list nat :=
  Net.slice (seq 0 nb_sample) b.1 b.2.

(** A number of batches that [len] can return. *)
Definition fits (n : nat) : Prop := Z.of_nat n <= sys_maxsize.

(** What is logged for a batch: the message of [progress], if logging
    is on and there is one. *)
Definition progress_log {Callback} (log : bool) (nb_batch batch_index : nat)
    : list (@Net.notice Callback) :=
  if log then
    match Net.progress (Z.of_nat batch_index) (Z.of_nat nb_batch) 20 with
    | Ok (Some s) => [Net.Log s]
    | _ => []
    end
  else [].

(** What a loop tells before it works on a batch: the progress, then
    every callback in turn. *)
Definition batch_notices {Callback} (callbacks : list Callback) (log : bool)
    (nb_batch batch_index : nat) : list (@Net.notice Callback) :=
  progress_log log nb_batch batch_index
  ++ ((fun callback => Net.CallbackCall callback batch_index nb_batch)
        <$> callbacks).





(** ** One branch as the other *)

(** The layer of the CpG branch that stands where the sequence branch
    has [l]: a 2-D convolution with one row for a 1-D convolution, a
    2-D pooling with one row for a 1-D pooling, the same layer
    otherwise. *)
Definition to_2d (l : Net.layer) : Net.layer :=
  match l with
  | Net.Convolution1D nb_filter filter_length activation init w_reg border =>
      Net.Convolution2D nb_filter 1 filter_length activation init w_reg border
  | Net.MaxPooling1D pool_length => Net.MaxPooling2D (1, pool_length)
  | l => l
  end.

(** ** Progress lines *)

(** Whether [progress], with its default of twenty steps, has a message
    for a batch. *)
Definition has_message (nb_batch batch_index : nat) : bool :=
  match Net.progress (Z.of_nat batch_index) (Z.of_nat nb_batch) 20 with
  | Ok (Some _) => true
  | _ => false
  end.

Definition is_log {Callback} (n : @Net.notice Callback) : bool :=
  match n with
  | Net.Log _ => true
  | Net.CallbackCall _ _ _ => false
  end.

Definition is_log_call {Outs Callback} (c : @Net.call Outs Callback) : bool :=
  match c with
  | Net.Notice n => is_log n
  | Net.WriteFun _ _ _ => false
  end.

(** ** Names *)

Definition no_underscore (x : string) : Prop := Train.contains "_" x = false.

(** The names that the graph keeps apart: its inputs and its nodes. *)
Definition namespace (model : Net.CpgGraph) : list string :=
  (Net.inputs model).*1 ++ (Net.node_name <$> Net.nodes model).

(** The names of the convolution and pooling layers for the indices
    [ls]. *)
Definition block_names (ls : list nat) : list string :=
  flat_map (fun l => [fmt_d "c" (l + 1); fmt_d "p" (l + 1)]) ls.

(** The names of the other layers of a layer list. *)
Definition fixed_names : list string :=
  ["xd"; "f1"; "f1d"; "h1"; "h1b"; "h1a"; "h1d"; "o"].

(** The layer names of a convolutional branch. *)
Definition branch_names (p : Net.ConvParams) : list string :=
  (if truthyQ (Net.drop_in p) then ["xd"] else [])
  ++ block_names (seq 0 (length (Net.nb_filter p)))
  ++ ["f1"]
  ++ (if truthyQ (Net.drop_out p) then ["f1d"] else [])
  ++ (if truthyZ (Net.nb_hidden p)
      then ["h1"] ++ (if Net.batch_norm p then ["h1b"] else [])
           ++ ["h1a"] ++ (if truthyQ (Net.drop_out p) then ["h1d"] else [])
      else []).

(** The names of a group of layers under one prefix. *)
Definition prefixed (g : string * list string) : list string :=
  fmt_join g.1 <$> g.2.

(** ** Wiring *)

(** The names a wiring refers to. *)
Definition sources (w : Net.wiring) : list string :=
  match w with
  | Net.FromInput p => [p]
  | Net.FromInputs ps => ps
  end.

(** Every node is fed by at least one name, and only by names that
    are [known] or belong to nodes before it. *)
Fixpoint well_wired (known : list string) (nodes : list Net.Node) : Prop :=
  match nodes with
  | [] => True
  | n :: nodes' =>
      sources (Net.node_wiring n) <> [] /\
      (forall p, p ∈ sources (Net.node_wiring n) -> p ∈ known) /\
      well_wired (Net.node_name n :: known) nodes'
  end.

(** ** Examples *)

(** Two convolution blocks and a hidden head, for either branch. *)
Definition ex_conv : Net.ConvParams :=
  {| Net.drop_in := 0; Net.nb_filter := [4; 8]; Net.filter_len := [8; 4];
     Net.pool_len := [4; 2]; Net.l1 := 0; Net.l2 := 0;
     Net.activation := "relu"; Net.drop_out := 0.2;
     Net.nb_hidden := 32; Net.batch_norm := false |}.

Definition ex_dense : Net.DenseParams :=
  {| Net.d_nb_hidden := 16; Net.d_activation := "relu"; Net.d_drop_out := 0;
     Net.d_batch_norm := true |}.

Definition ex_params : Net.Params :=
  {| Net.seq := Some ex_conv; Net.cpg := Some ex_conv;
     Net.joint := Some ex_dense; Net.target := ex_dense;
     Net.p_optimizer := "adam"; Net.p_optimizer_params := [];
     Net.p_loss := None |}.

(** Four labels, two of them masked, read as the output ["c_y"]. *)
Definition ex_labels : Train.ndarray Q :=
  {| Train.shape := [2; 2]%nat; Train.flat := [1; -1; 0; -1]%Q |}.

(** Three labels and a masked one, read as one row. *)
Definition ex_classes : Train.ndarray Q :=
  {| Train.shape := [4]%nat; Train.flat := [1; 0; 0; -1]%Q |}.

(** What numpy computes for labels that are whole numbers, as 0, 1 and
    the mask are: their exact sum divided, as doubles, by their number;
    not-a-number when there is no label. *)
Definition int_mean (l : list Q) : pyfloat :=
  match l with
  | [] => NaN
  | _ => round_Q binary64 (foldr Qplus 0%Q l / inject_Z (Z.of_nat (length l)))
  end.

(** [1 - t] for a double [t]. *)
Definition one_minus64 (t : pyfloat) : pyfloat :=
  match t with
  | Finite q => round_Q binary64 (1 - q)
  | NegZero => Finite 1
  | Inf negative => Inf (negb negative)
  | NaN => NaN
  end.

(** A classification and a regression output; of the predictions only
    the second array holds a not-a-number. *)
Definition ex_loss : odict string :=
  {| items := [("c_y", "binary_crossentropy"); ("s_y", "mse")];
     keys_distinct := I |}.
Definition ex_y : gmap string (Train.ndarray Q) :=
  <["c_y" := ex_labels]> {["s_y" := ex_labels]}.
Definition ex_z : odict (list pyfloat) :=
  {| items := [("c_y", [Finite 0.9; Finite 0.5; Finite 0.1; Finite 0.5]);
               ("s_y", [Finite 0.2; NaN; Finite 0.7; Finite 0.4])];
     keys_distinct := I |}.

(** The same predictions, inserted in the other order. *)
Definition ex_z_nan_first : odict (list pyfloat) :=
  {| items := [("s_y", [Finite 0.2; NaN; Finite 0.7; Finite 0.4]);
               ("c_y", [Finite 0.9; Finite 0.5; Finite 0.1; Finite 0.5])];
     keys_distinct := I |}.

(** The losses of a model built for the targets ["u0"] and ["s1"], in
    the order of the targets. *)
Definition ex_built_loss : odict string :=
  {| items := [("u0_y", "binary_crossentropy"); ("s1_y", "mse")];
     keys_distinct := I |}.

(** The five nodes of a CpG branch, in the order in which [build] adds
    them, with a number for the weights of each. *)
Definition ex_nodes : odict Z :=
  {| items := [("c_c1", 1); ("c_p1", 2); ("c_f1", 3); ("c_h1", 4);
               ("c_h1a", 5)];
     keys_distinct := I |}.

(** The datasets of a training file: 1000 samples, sequence windows of
    length 501, CpG windows of length 25 for 6 units. *)
Definition ex_group : gmap string (list Z) :=
  <["s_x" := [1000; 501; 4]]> {["c_x" := [1000; 2; 6; 25]]}.

(** * Properties *)

(** ** [progress] *)

(** *** Rounding to a double *)

Lemma shift_le (x y p q p' q' : Z) :
  0 <= y -> 0 <= p -> 0 <= q -> 0 <= p' -> 0 <= q' ->
  x * 2 ^ p <= y * 2 ^ q -> p' - q' <= p - q ->
  x * 2 ^ p' <= y * 2 ^ q'.
Proof.
  intros Hy Hp Hq Hp' Hq' Hle Hd.
  assert (HP : 0 < 2 ^ p) by (apply Z.pow_pos_nonneg; lia).
  assert (HQ : 0 < 2 ^ q) by (apply Z.pow_pos_nonneg; lia).
  assert (HP' : 0 < 2 ^ p') by (apply Z.pow_pos_nonneg; lia).
  assert (HQ' : 0 < 2 ^ q') by (apply Z.pow_pos_nonneg; lia).
  assert (Hexp : 2 ^ p' * 2 ^ q <= 2 ^ q' * 2 ^ p).
  { rewrite <- !Z.pow_add_r by lia. apply Z.pow_le_mono_r; lia. }
  apply (Z.mul_le_mono_pos_r _ _ (2 ^ p * 2 ^ q)); [lia|].
  transitivity (x * 2 ^ p * (2 ^ p' * 2 ^ q)); [apply Z.eq_le_incl; ring|].
  transitivity (y * 2 ^ q * (2 ^ p' * 2 ^ q)).
  { apply Z.mul_le_mono_nonneg_r; lia. }
  transitivity (y * 2 ^ q * (2 ^ q' * 2 ^ p)).
  { apply Z.mul_le_mono_nonneg_l; [|done]. apply Z.mul_nonneg_nonneg; lia. }
  apply Z.eq_le_incl; ring.
Qed.

Lemma shift_lt (x y p q p' q' : Z) :
  0 <= y -> 0 <= p -> 0 <= q -> 0 <= p' -> 0 <= q' ->
  x * 2 ^ p < y * 2 ^ q -> p' - q' <= p - q ->
  x * 2 ^ p' < y * 2 ^ q'.
Proof.
  intros Hy Hp Hq Hp' Hq' Hlt Hd.
  assert (HP : 0 < 2 ^ p) by (apply Z.pow_pos_nonneg; lia).
  assert (HQ : 0 < 2 ^ q) by (apply Z.pow_pos_nonneg; lia).
  assert (HP' : 0 < 2 ^ p') by (apply Z.pow_pos_nonneg; lia).
  assert (HQ' : 0 < 2 ^ q') by (apply Z.pow_pos_nonneg; lia).
  assert (Hexp : 2 ^ p' * 2 ^ q <= 2 ^ q' * 2 ^ p).
  { rewrite <- !Z.pow_add_r by lia. apply Z.pow_le_mono_r; lia. }
  apply (Z.mul_lt_mono_pos_r (2 ^ p * 2 ^ q)); [lia|].
  apply Z.lt_le_trans with (y * 2 ^ q * (2 ^ p' * 2 ^ q)).
  { replace (x * 2 ^ p' * (2 ^ p * 2 ^ q))
      with (x * 2 ^ p * (2 ^ p' * 2 ^ q)) by ring.
    apply Z.mul_lt_mono_pos_r; lia. }
  transitivity (y * 2 ^ q * (2 ^ q' * 2 ^ p)).
  { apply Z.mul_le_mono_nonneg_l; [|done]. apply Z.mul_nonneg_nonneg; lia. }
  apply Z.eq_le_incl; ring.
Qed.

(** [ilog2_ratio a b] is the [k] with [2 ^ k <= a / b < 2 ^ (k + 1)]. *)
Lemma ilog2_ratio_spec (a b : Z) :
  0 < a -> 0 < b ->
  let k := ilog2_ratio a b in
  b * 2 ^ Z.max 0 k <= a * 2 ^ Z.max 0 (- k) /\
  a * 2 ^ Z.max 0 (- k) < b * 2 ^ (Z.max 0 k + 1).
Proof.
  intros Ha Hb k.
  destruct (Z.log2_spec a Ha) as [Hla Hua].
  destruct (Z.log2_spec b Hb) as [Hlb Hub].
  pose proof (Z.log2_nonneg a) as Hna. pose proof (Z.log2_nonneg b) as Hnb.
  rewrite <- Z.add_1_r in Hua, Hub.
  (* a and b against powers of two *)
  assert (Hab : b * 2 ^ Z.log2 a < a * 2 ^ (Z.log2 b + 1)).
  { apply Z.lt_le_trans with (2 ^ (Z.log2 b + 1) * 2 ^ Z.log2 a).
    - apply Z.mul_lt_mono_pos_r; [apply Z.pow_pos_nonneg; lia | done].
    - rewrite (Z.mul_comm a). apply Z.mul_le_mono_nonneg_l; [|done].
      apply Z.pow_nonneg. lia. }
  assert (Hba : a * 2 ^ Z.log2 b < b * 2 ^ (Z.log2 a + 1)).
  { apply Z.lt_le_trans with (2 ^ (Z.log2 a + 1) * 2 ^ Z.log2 b).
    - apply Z.mul_lt_mono_pos_r; [apply Z.pow_pos_nonneg; lia | done].
    - rewrite (Z.mul_comm b). apply Z.mul_le_mono_nonneg_l; [|done].
      apply Z.pow_nonneg. lia. }
  unfold k, ilog2_ratio. cbv zeta.
  set (d := Z.log2 a - Z.log2 b).
  destruct (Z.ltb_spec (a * 2 ^ Z.max 0 (- d)) (b * 2 ^ Z.max 0 d)) as [Ht|Ht].
  - split.
    + apply Z.lt_le_incl.
      apply (shift_lt b a (Z.log2 a) (Z.log2 b + 1)); try lia.
    + apply (shift_lt a b (Z.max 0 (- d)) (Z.max 0 d)); try lia.
  - split.
    + done.
    + apply (shift_lt a b (Z.log2 b) (Z.log2 a + 1)); try lia.
Qed.

(** The nearest integer is within a half of the quotient. *)
Lemma div_nearest_even_bounds (a b : Z) :
  0 < b ->
  let m := div_nearest_even a b in
  2 * a - b <= 2 * b * m /\ 2 * b * m <= 2 * a + b.
Proof.
  intros Hb m. unfold m, div_nearest_even. cbv zeta.
  pose proof (Z.div_mod a b ltac:(lia)) as Hd.
  pose proof (Z.mod_pos_bound a b Hb) as Hm.
  destruct (Z.ltb_spec (2 * (a mod b)) b); [nia|].
  destruct (Z.ltb_spec b (2 * (a mod b))); [nia|].
  destruct (Z.even (a / b)); nia.
Qed.

Lemma div_nearest_even_le (a b n : Z) :
  0 < b -> a <= n * b -> div_nearest_even a b <= n.
Proof.
  intros Hb Hn. pose proof (div_nearest_even_bounds a b Hb) as [_ Hu].
  cbv zeta in Hu. nia.
Qed.

Lemma div_nearest_even_ge (a b n : Z) :
  0 < b -> n * b <= a -> n <= div_nearest_even a b.
Proof.
  intros Hb Hn. pose proof (div_nearest_even_bounds a b Hb) as [Hl _].
  cbv zeta in Hl. nia.
Qed.

Lemma div_nearest_even_gt (a b n : Z) :
  0 < b -> b < 2 * (a - n * b) -> n < div_nearest_even a b.
Proof.
  intros Hb Hn. pose proof (div_nearest_even_bounds a b Hb) as [Hl _].
  cbv zeta in Hl. nia.
Qed.


(** [int(np.ceil(m * 2 ^ e))]. *)
Lemma Qceiling_scaled (m e : Z) :
  Qceiling (scaled m e)
  = if 0 <=? e then m * 2 ^ e else - ((- m) / 2 ^ (- e)).
Proof.
  unfold scaled. destruct (Z.leb_spec 0 e) as [He|He].
  - apply Qceiling_Z.
  - rewrite (Qceiling_comp _ _ (Qred_correct _)).
    unfold Qceiling, Qfloor, Qopp. cbn [Qnum Qden].
    rewrite Z2Pos.id by (apply Z.pow_pos_nonneg; lia). done.
Qed.

Lemma scaled_nonneg (m e : Z) : 0 <= m -> (0 <= scaled m e)%Q.
Proof.
  intros Hm. unfold scaled. destruct (Z.leb_spec 0 e) as [He|He].
  - change 0%Q with (inject_Z 0). rewrite <- Zle_Qle.
    apply Z.mul_nonneg_nonneg; [done | apply Z.pow_nonneg; lia].
  - rewrite Qred_correct. unfold Qle. cbn. lia.
Qed.

Lemma Qceiling_nonpos (x : Q) : (x <= 0)%Q -> Qceiling x <= 0.
Proof.
  intros Hx. apply Qceiling_resp_le in Hx. exact Hx.
Qed.

Section RoundRatio.
Variables a b : Z.
Hypothesis Ha : 0 < a.
Hypothesis Hb : 0 < b.

#[local] Abbreviation k := (ilog2_ratio a b).
#[local] Abbreviation e := (Z.max (k - 52) (-1074)).
#[local] Abbreviation m :=
  (div_nearest_even (a * 2 ^ Z.max 0 (- e)) (b * 2 ^ Z.max 0 e)).

Lemma round_ratio_64 : round_ratio binary64 a b = (m, e).
Proof. reflexivity. Qed.

Lemma scale_pos : 0 < b * 2 ^ Z.max 0 e.
Proof. apply Z.mul_pos_pos; [done | apply Z.pow_pos_nonneg; lia]. Qed.

Lemma significand_bounds : 0 <= m <= 2 ^ 53.
Proof.
  pose proof scale_pos as HB.
  destruct (ilog2_ratio_spec a b Ha Hb) as [_ Hup]. cbv zeta in Hup.
  split.
  - apply div_nearest_even_ge; [done|].
    apply Z.mul_nonneg_nonneg; [lia | apply Z.pow_nonneg; lia].
  - apply div_nearest_even_le; [done|].
    rewrite (Z.mul_comm (2 ^ 53)), <- Z.mul_assoc, <- Z.pow_add_r by lia.
    apply Z.lt_le_incl.
    apply (shift_lt a b (Z.max 0 (- k)) (Z.max 0 k + 1)); try lia.
Qed.

(** Below [2 ^ 1023] times the divisor the quotient is no overflow. *)
Lemma no_overflow :
  a < b * 2 ^ 1023 ->
  (2 ^ (1024 + Z.max 0 (- e)) <=? m * 2 ^ Z.max 0 e) = false.
Proof.
  intros Hab. apply Z.leb_gt.
  destruct significand_bounds as [Hm0 Hm].
  destruct (ilog2_ratio_spec a b Ha Hb) as [Hlow _]. cbv zeta in Hlow.
  destruct (Z_le_gt_dec e 970) as [He|He].
  - apply Z.le_lt_trans with (2 ^ 53 * 2 ^ Z.max 0 e).
    + apply Z.mul_le_mono_nonneg_r; [apply Z.pow_nonneg; lia | done].
    + rewrite <- Z.pow_add_r by lia. apply Z.pow_lt_mono_r; lia.
  - exfalso.
    assert (Hk : 1023 <= k) by lia.
    assert (b * 2 ^ 1023 <= a * 2 ^ 0); [|lia].
    apply (shift_le b a (Z.max 0 k) (Z.max 0 (- k))); try lia.
Qed.

(** A quotient below [2 ^ 53] is rounded to a number with the same
    ceiling, unless that is below 1. *)
Lemma ceiling_kept :
  a < 2 ^ 53 ->
  Z.max 1 (if 0 <=? e then m * 2 ^ e else - ((- m) / 2 ^ (- e)))
  = Z.max 1 (- ((- a) / b)).
Proof.
  intros Ha53.
  pose proof scale_pos as HB.
  destruct significand_bounds as [Hm0 Hm].
  destruct (ilog2_ratio_spec a b Ha Hb) as [Hlow Hup]. cbv zeta in Hlow, Hup.
  pose proof (Z.div_mod (- a) b ltac:(lia)) as Hdm.
  pose proof (Z.mod_pos_bound (- a) b Hb) as Hmod.
  set (K := - (- a / b)) in *.
  assert (HK : (K - 1) * b < a <= K * b) by (unfold K; nia).
  destruct (Z_lt_le_dec a b) as [Hlt|Hge].
  - (* the quotient is below 1 *)
    assert (HK1 : K = 1) by nia.
    assert (Hk : k < 0).
    { destruct (Z_lt_le_dec k 0) as [|Hk0]; [done|]. exfalso.
      rewrite (Z.max_r 0 k), (Z.max_l 0 (- k)) in Hlow by lia.
      assert (1 <= 2 ^ k) by (apply (Z.pow_le_mono_r 2 0 k); lia).
      change (2 ^ 0) with 1 in Hlow. nia. }
    destruct (Z.leb_spec 0 e) as [He|He]; [lia|].
    rewrite HK1.
    assert (Hp : 0 < 2 ^ (- e)) by (apply Z.pow_pos_nonneg; lia).
    assert (Hm1 : m <= 2 ^ (- e)).
    { apply div_nearest_even_le; [done|].
      rewrite (Z.max_r 0 (- e)), (Z.max_l 0 e) by lia.
      change (2 ^ 0) with 1. nia. }
    pose proof (Z.div_mod (- m) (2 ^ (- e)) ltac:(lia)) as Hd2.
    pose proof (Z.mod_pos_bound (- m) (2 ^ (- e)) Hp) as Hm2.
    assert (- (- m / 2 ^ (- e)) <= 1) by nia. lia.
  - assert (Hk : 0 <= k).
    { destruct (Z_lt_le_dec k 0) as [Hk0|]; [|done]. exfalso.
      rewrite (Z.max_l 0 k), (Z.max_r 0 (- k)) in Hup by lia.
      change (2 ^ (0 + 1)) with 2 in Hup.
      assert (2 <= 2 ^ (- k)) by (apply (Z.pow_le_mono_r 2 1 (- k)); lia).
      nia. }
    rewrite (Z.max_r 0 k), (Z.max_l 0 (- k)) in Hlow by lia.
    change (2 ^ 0) with 1 in Hlow. rewrite Z.mul_1_r in Hlow.
    assert (Hk52 : k <= 52).
    { destruct (Z_le_gt_dec k 52) as [|Hk53]; [done|]. exfalso.
      assert (2 ^ 53 <= 2 ^ k) by (apply Z.pow_le_mono_r; lia). nia. }
    f_equal.
    destruct (Z.leb_spec 0 e) as [He|He].
    + (* the divisor is 1 *)
      assert (Hk' : k = 52) by lia.
      assert (He0 : e = 0) by lia.
      rewrite Hk' in Hlow. change (2 ^ 53) with (2 * 2 ^ 52) in Ha53.
      assert (Hb1 : b = 1) by nia.
      assert (Hm_eq : m = a).
      { apply Z.le_antisymm.
        - apply div_nearest_even_le; [done|]. rewrite He0.
          change (Z.max 0 (- 0)) with 0. change (Z.max 0 0) with 0.
          change (2 ^ 0) with 1. nia.
        - apply div_nearest_even_ge; [done|]. rewrite He0.
          change (Z.max 0 (- 0)) with 0. change (Z.max 0 0) with 0.
          change (2 ^ 0) with 1. nia. }
      rewrite Hm_eq, He0. change (2 ^ 0) with 1. nia.
    + assert (Hp : 0 < 2 ^ (- e)) by (apply Z.pow_pos_nonneg; lia).
      assert (He' : e = k - 52) by lia.
      assert (Hb2 : b < 2 * 2 ^ (- e)).
      { assert (Hpk : 2 ^ 53 = 2 * 2 ^ (- e) * 2 ^ k).
        { rewrite <- (Z.pow_succ_r 2 (- e)), <- Z.pow_add_r by lia.
          f_equal. lia. }
        assert (0 < 2 ^ k) by (apply Z.pow_pos_nonneg; lia). nia. }
      assert (Hmk : m <= K * 2 ^ (- e)).
      { apply div_nearest_even_le; [done|].
        rewrite (Z.max_r 0 (- e)), (Z.max_l 0 e) by lia.
        change (2 ^ 0) with 1. nia. }
      assert (Hmk' : (K - 1) * 2 ^ (- e) < m).
      { apply div_nearest_even_gt; [done|].
        rewrite (Z.max_r 0 (- e)), (Z.max_l 0 e) by lia.
        change (2 ^ 0) with 1. nia. }
      pose proof (Z.div_mod (- m) (2 ^ (- e)) ltac:(lia)) as Hd2.
      pose proof (Z.mod_pos_bound (- m) (2 ^ (- e)) Hp) as Hm2.
      nia.
Qed.
End RoundRatio.


(** With twenty steps, the rounded step is more than a 21st of the
    dividend. *)
Lemma twenty_bound (a : Z) :
  0 < a ->
  let e := Z.max (ilog2_ratio a 20 - 52) (-1074) in
  let m := div_nearest_even (a * 2 ^ Z.max 0 (- e)) (20 * 2 ^ Z.max 0 e) in
  a < 21 * Z.max 1 (if 0 <=? e then m * 2 ^ e else - ((- m) / 2 ^ (- e))).
Proof.
  intros Ha e m.
  destruct (Z_le_gt_dec a 20) as [Hsmall|Hbig]; [lia|].
  destruct (ilog2_ratio_spec a 20 Ha ltac:(lia)) as [Hlow Hup].
  cbv zeta in Hlow, Hup.
  set (k := ilog2_ratio a 20) in *.
  assert (Hk : 0 <= k).
  { destruct (Z_lt_le_dec k 0) as [Hk0|]; [|done]. exfalso.
    rewrite (Z.max_l 0 k), (Z.max_r 0 (- k)) in Hup by lia.
    change (2 ^ (0 + 1)) with 2 in Hup.
    assert (2 <= 2 ^ (- k)) by (apply (Z.pow_le_mono_r 2 1 (- k)); lia).
    nia. }
  rewrite (Z.max_r 0 k), (Z.max_l 0 (- k)) in Hlow by lia.
  change (2 ^ 0) with 1 in Hlow. rewrite Z.mul_1_r in Hlow.
  assert (He : e = k - 52) by lia.
  assert (HB : 0 < 20 * 2 ^ Z.max 0 e).
  { apply Z.mul_pos_pos; [lia | apply Z.pow_pos_nonneg; lia]. }
  pose proof (div_nearest_even_bounds (a * 2 ^ Z.max 0 (- e))
                (20 * 2 ^ Z.max 0 e) HB) as [Hl _].
  cbv zeta in Hl. fold m in Hl.
  assert (21 * (if 0 <=? e then m * 2 ^ e else - ((- m) / 2 ^ (- e))) > a);
    [|lia].
  destruct (Z.leb_spec 0 e) as [He0|He0].
  - rewrite (Z.max_r 0 e), (Z.max_l 0 (- e)) in Hl by lia.
    change (2 ^ 0) with 1 in Hl.
    assert (HE : 0 < 2 ^ e) by (apply Z.pow_pos_nonneg; lia).
    assert (Hke : 2 ^ k = 2 ^ 52 * 2 ^ e).
    { rewrite <- Z.pow_add_r by lia. f_equal. lia. }
    rewrite Hke in Hlow. change (2 ^ 52) with 4503599627370496 in Hlow.
    nia.
  - rewrite (Z.max_l 0 e), (Z.max_r 0 (- e)) in Hl by lia.
    change (2 ^ 0) with 1 in Hl.
    assert (HP : 0 < 2 ^ (- e)) by (apply Z.pow_pos_nonneg; lia).
    assert (HK : 0 < 2 ^ k) by (apply Z.pow_pos_nonneg; lia).
    assert (Hke : 2 ^ (- e) * 2 ^ k = 2 ^ 52).
    { rewrite <- Z.pow_add_r by lia. f_equal. lia. }
    change (2 ^ 52) with 4503599627370496 in Hke.
    pose proof (Z.div_mod (- m) (2 ^ (- e)) ltac:(lia)) as Hd2.
    pose proof (Z.mod_pos_bound (- m) (2 ^ (- e)) HP) as Hm2.
    set (P := 2 ^ (- e)) in *. set (K := 2 ^ k) in *.
    set (C := - (- m / P)) in *.
    assert (HC : m <= C * P) by (unfold C; nia).
    assert (HaP : 20 * 4503599627370496 <= a * P) by nia.
    nia.
Qed.

(** The ceiling of an exact quotient. *)
Lemma Qceiling_div (a b : Z) :
  b ≠ 0 -> Qceiling (inject_Z a / inject_Z b) = - ((- a) / b).
Proof.
  intros Hb.
  unfold Qceiling, Qfloor, Qdiv, Qmult, Qinv, Qopp, inject_Z. simpl.
  destruct b as [|p|p]; [done| |]; simpl.
  - by rewrite Z.mul_1_r.
  - replace (- (a * -1)) with a by lia.
    change (Z.neg p) with (- Z.pos p).
    by rewrite Z.div_opp_opp.
Qed.

(** [Net.ceil_div] on positive numbers: the ceiling of the rounded
    quotient, unless that overflows. *)
Lemma ceil_div_pos (a b : Z) :
  0 < a -> 0 < b ->
  let e := Z.max (ilog2_ratio a b - 52) (-1074) in
  let m := div_nearest_even (a * 2 ^ Z.max 0 (- e)) (b * 2 ^ Z.max 0 e) in
  Net.ceil_div a b
  = if 2 ^ (1024 + Z.max 0 (- e)) <=? m * 2 ^ Z.max 0 e
    then Raise OverflowError
    else Ok (if 0 <=? e then m * 2 ^ e else - ((- m) / 2 ^ (- e))).
Proof.
  intros Ha Hb e m. unfold Net.ceil_div, true_div.
  destruct (Z.eqb_spec b 0) as [|_]; [lia|].
  destruct (Z.eqb_spec a 0) as [|_]; [lia|].
  destruct (Z.ltb_spec a 0) as [|_]; [lia|].
  destruct (Z.ltb_spec b 0) as [|_]; [lia|].
  rewrite (Z.abs_eq a), (Z.abs_eq b) by lia.
  unfold round_signed, round_ratio. cbn [prec emin emax binary64 xorb].
  change (53 - 1) with 52. fold e. fold m.
  destruct (_ <=? _); [done|].
  destruct (Z.eqb_spec m 0) as [Hm|Hm]; cbn [mbind result_bind int_ceil].
  - rewrite Hm. f_equal. change (Qceiling 0) with 0.
    destruct (0 <=? e); [lia|].
    reflexivity.
  - by rewrite Qceiling_scaled.
Qed.

(** A positive number over a negative one: the step is not positive. *)
Lemma ceil_div_neg (a b c : Z) :
  0 < a -> b < 0 -> Net.ceil_div a b = Ok c -> c <= 0.
Proof.
  intros Ha Hb. unfold Net.ceil_div, true_div.
  destruct (Z.eqb_spec b 0) as [|_]; [lia|].
  destruct (Z.eqb_spec a 0) as [|_]; [lia|].
  destruct (Z.ltb_spec a 0) as [|_]; [lia|].
  destruct (Z.ltb_spec b 0) as [_|]; [|lia].
  rewrite (Z.abs_eq a), (Z.abs_neq b) by lia.
  unfold round_signed, round_ratio. cbn [prec emin emax binary64 xorb].
  change (53 - 1) with 52.
  pose proof (significand_bounds a (- b) Ha ltac:(lia)) as [Hm0 _].
  set (e := Z.max (ilog2_ratio a (- b) - 52) (-1074)) in *.
  set (m := div_nearest_even _ _) in *.
  destruct (_ <=? _); [done|].
  destruct (Z.eqb_spec m 0) as [Hm|Hm]; cbn [mbind result_bind int_ceil].
  - by intros [= <-].
  - intros [= <-]. apply Qceiling_nonpos.
    apply (Qopp_le_compat 0), scaled_nonneg. done.
Qed.

Lemma true_div_returns (a b : Z) :
  0 < a -> 0 < b -> a < b * 2 ^ 1023 -> is_Ok (true_div a b).
Proof.
  intros Ha Hb Hab. unfold true_div.
  destruct (Z.eqb_spec b 0) as [|_]; [lia|].
  destruct (Z.eqb_spec a 0) as [|_]; [lia|].
  rewrite (Z.abs_eq a), (Z.abs_eq b) by lia.
  unfold round_signed, round_ratio. cbn [prec emin emax binary64].
  change (53 - 1) with 52.
  rewrite (no_overflow a b Ha Hb Hab).
  destruct (_ =? 0); [destruct (xorb _ _)|]; by eexists.
Qed.

Lemma ceil_div_returns (a b : Z) :
  0 < a < 2 ^ 1023 -> b ≠ 0 -> is_Ok (Net.ceil_div a b).
Proof.
  intros [Ha Ha'] Hb.
  assert (Hab : a < Z.abs b * 2 ^ 1023).
  { assert (0 < 2 ^ 1023) by (by apply Z.pow_pos_nonneg). nia. }
  unfold Net.ceil_div, true_div.
  destruct (Z.eqb_spec b 0) as [|_]; [lia|].
  destruct (Z.eqb_spec a 0) as [|_]; [lia|].
  rewrite (Z.abs_eq a) by lia.
  unfold round_signed, round_ratio. cbn [prec emin emax binary64].
  change (53 - 1) with 52.
  rewrite (no_overflow a (Z.abs b) Ha ltac:(lia) Hab).
  destruct (_ =? 0); [destruct (xorb _ _)|]; by eexists.
Qed.

(** Below [2 ^ 53] batches the step is the one of exact arithmetic. *)
Lemma ceil_div_exact (a b c : Z) :
  0 < a < 2 ^ 53 -> b ≠ 0 -> Net.ceil_div a b = Ok c ->
  Z.max 1 c = Z.max 1 (Qceiling (inject_Z a / inject_Z b)).
Proof.
  intros [Ha Ha'] Hb Hc. rewrite Qceiling_div by done.
  destruct (Z_lt_le_dec b 0) as [Hneg|Hpos].
  - apply ceil_div_neg in Hc; [|done..].
    pose proof (Z.div_mod (- a) b ltac:(lia)) as Hdm.
    pose proof (Z.mod_neg_bound (- a) b Hneg) as Hmod.
    assert (- (- a / b) <= 0) by nia. lia.
  - rewrite ceil_div_pos in Hc by lia. cbv zeta in Hc.
    destruct (_ <=? _); [done|]. injection Hc as <-.
    apply ceiling_kept; lia.
Qed.

Lemma ceil_div_twenty (a c : Z) :
  0 < a -> Net.ceil_div a 20 = Ok c -> a < 21 * Z.max 1 c.
Proof.
  intros Ha Hc. rewrite ceil_div_pos in Hc by lia. cbv zeta in Hc.
  destruct (_ <=? _); [done|]. injection Hc as <-.
  by apply twenty_bound.
Qed.

(** [progress] returns whenever its two quotients are doubles. *)
Lemma progress_returns (batch_index nb_batch s : Z) :
  0 <= batch_index < nb_batch -> nb_batch < 2 ^ 1023 -> s ≠ 0 ->
  is_Ok (Net.progress batch_index nb_batch s).
Proof.
  intros Hbi Hnb Hs. unfold Net.progress.
  destruct (ceil_div_returns nb_batch s) as [c ->]; [lia | done |].
  cbn [mbind result_bind].
  case_match; [|by eexists].
  destruct (true_div_returns (batch_index + 1) nb_batch) as [r ->];
    [lia | lia | | by eexists].
  assert (1 <= 2 ^ 1023) by (by apply (Z.pow_le_mono_r 2 0 1023)). nia.
Qed.

(** *** [progress] *)

(** C10 (as amended): for [nb_batch >= 1] and
    [0 <= batch_index < nb_batch], [progress batch_index nb_batch s]
    returns a message exactly when [batch_index + 1] is 1, is
    [nb_batch], or is divisible by the step [max 1 c], where [c] is what
    the code computes: the double nearest to [nb_batch / s], rounded
    up.  Below [2 ^ 53] batches this step is
    [max 1 (ceil (nb_batch / s))].  The first and the last batch always
    give a message.  The call returns exactly when [nb_batch / s] is a
    double, which it is for every [s] other than zero and [nb_batch]
    below [2 ^ 1023]. *)
Theorem progress_message_iff (batch_index nb_batch s : Z) :
  1 <= nb_batch -> 0 <= batch_index < nb_batch ->
  (is_Ok (Net.progress batch_index nb_batch s)
   <-> is_Ok (Net.ceil_div nb_batch s)) /\
  (s ≠ 0 -> nb_batch < 2 ^ 1023 ->
   is_Ok (Net.progress batch_index nb_batch s)) /\
  (forall f, Net.progress batch_index nb_batch s = Ok f ->
     exists c,
       Net.ceil_div nb_batch s = Ok c /\
       (is_Some f <->
          batch_index + 1 = 1 \/ batch_index + 1 = nb_batch \/
          (Z.max 1 c | batch_index + 1)) /\
       (nb_batch < 2 ^ 53 ->
        Z.max 1 c = Z.max 1 (Qceiling (inject_Z nb_batch / inject_Z s))) /\
       (batch_index = 0 \/ batch_index = nb_batch - 1 -> is_Some f) /\
       (forall m, f = Some m ->
          Net.msg_index m = batch_index + 1 /\ Net.msg_total m = nb_batch)).
Proof.
  intros Hnb Hbi.
  assert (Hstep : forall c,
    (batch_index + 1 =? 1) || (batch_index + 1 =? nb_batch)
      || ((batch_index + 1) mod Z.max 1 c =? 0) = true <->
    batch_index + 1 = 1 \/ batch_index + 1 = nb_batch \/
      (Z.max 1 c | batch_index + 1)).
  { intros c. rewrite !orb_true_iff, !Z.eqb_eq, Z.mod_divide by lia. tauto. }
  assert (Hpercent : is_Ok (true_div (batch_index + 1) nb_batch)).
  { apply true_div_returns; [lia | lia |].
    assert (1 <= 2 ^ 1023) by (by apply (Z.pow_le_mono_r 2 0 1023)). nia. }
  destruct Hpercent as [r Hr].
  split_and!.
  - unfold Net.progress. destruct (Net.ceil_div nb_batch s) as [c|err];
      cbn [mbind result_bind].
    + rewrite Hr. cbn [mbind result_bind].
      split; intros _; [by eexists|]. case_match; by eexists.
    + split; by intros [? [=]].
  - intros Hs Hnb'. by apply progress_returns.
  - intros f. unfold Net.progress.
    destruct (Net.ceil_div nb_batch s) as [c|err] eqn:Hc;
      cbn [mbind result_bind]; [|done].
    rewrite Hr. cbn [mbind result_bind].
    specialize (Hstep c). intros Hf. exists c.
    assert (Hs : s ≠ 0).
    { intros ->. unfold Net.ceil_div, true_div in Hc. done. }
    destruct ((batch_index + 1 =? 1) || (batch_index + 1 =? nb_batch)
              || ((batch_index + 1) mod Z.max 1 c =? 0)) eqn:Htest;
      injection Hf as <-.
    + split_and!; try done.
      * split; [intros _; by apply Hstep | by eexists].
      * intros Hnb'. apply (ceil_div_exact nb_batch s c); [lia | done..].
      * by intros m [= <-].
    + split_and!; try done.
      * split; [by intros [? [=]] | intros H; apply Hstep in H; done].
      * intros Hnb'. apply (ceil_div_exact nb_batch s c); [lia | done..].
      * intros H. assert (false = true) as [=] by (apply Hstep; lia).
Qed.

(** The fifth of a hundred batches, with the default twenty steps. *)
Lemma progress_message_iff_witness :
  1 <= 100 /\ 0 <= 4 < 100 /\
  exists m, Net.progress 4 100 20 = Ok (Some m) /\ Net.msg_index m = 5.
Proof.
  split; [lia|]. split; [lia|].
  destruct (progress_message_iff 4 100 20 ltac:(lia) ltac:(lia))
    as (_ & Hret & Hmsg).
  destruct Hret as [f Hf]; [lia | reflexivity |].
  destruct (Hmsg f Hf) as (c & Hc & Hiff & Hexact & _ & Hfields).
  assert (Hsome : is_Some f).
  { apply Hiff. right. right.
    rewrite (Hexact eq_refl). by exists 1. }
  destruct Hsome as [m ->]. exists m. split; [done|].
  by destruct (Hfields m eq_refl).
Defined.

(** With [20 * 2 ^ 52 + 1] batches the quotient [nb_batch / 20] is
    rounded down to [2 ^ 52]: batch [2 ^ 52] gets a message, although
    [2 ^ 52] is neither 1, nor the number of batches, nor divisible by
    the ceiling [2 ^ 52 + 1] of the exact quotient. *)
Lemma progress_step_is_rounded :
  1 <= 90071992547409921 /\
  0 <= 4503599627370495 < 90071992547409921 /\
  (exists m, Net.progress 4503599627370495 90071992547409921 20 = Ok (Some m)) /\
  ~ (4503599627370495 + 1 = 1 \/
     4503599627370495 + 1 = 90071992547409921 \/
     (Z.max 1 (Qceiling (inject_Z 90071992547409921 / inject_Z 20))
      | 4503599627370495 + 1)).
Proof.
  split; [lia|]. split; [lia|]. split.
  - eexists. vm_compute. reflexivity.
  - intros [H|[H|H]]; [lia | lia |].
    apply Z.mod_divide in H; [|by vm_compute]. by vm_compute in H.
Qed.

Example progress_fifth_of_hundred :
  Net.progress 4 100 20
  = Ok (Some {| Net.msg_index := 5; Net.msg_total := 100;
                Net.msg_percent := Finite 5 |}).
Proof. vm_compute. reflexivity. Qed.

Example progress_fourth_of_hundred : Net.progress 3 100 20 = Ok None.
Proof. vm_compute. reflexivity. Qed.

Example progress_zero_steps : Net.progress 0 1 0 = Raise ZeroDivisionError.
Proof. reflexivity. Qed.

(** A third of the batches is shown as the double [33.33333333333333]
    that Python prints with one decimal. *)
Example progress_first_of_three :
  Net.msg_percent <$> (match Net.progress 0 3 20 with
                       | Ok f => f
                       | Raise _ => None
                       end)
  = Some (Finite (2345624805922133 # 70368744177664)).
Proof. vm_compute. reflexivity. Qed.

(** ** [loss_from_ids] *)

Lemma default_losses_lookup (ids : list string) (m : gmap string string) k :
  foldl (fun (loss : gmap string string) x =>
           if Net.startswith x "s"
           then <[x := "mse"]> loss
           else <[x := "binary_crossentropy"]> loss) m ids !! k
  = if decide (k ∈ ids) then Some (default_loss k) else m !! k.
Proof.
  revert m. induction ids as [|x ids IH]; intros m; cbn [foldl].
  - case_decide; [set_solver | done].
  - rewrite IH. destruct (decide (k ∈ ids)) as [Hin|Hin].
    + rewrite decide_True by (by right). done.
    + destruct (decide (k = x)) as [->|Hne].
      * rewrite decide_True by (by left). unfold default_loss.
        destruct (Net.startswith x "s"); by rewrite lookup_insert_eq.
      * rewrite decide_False by set_solver.
        destruct (Net.startswith x "s"); by rewrite lookup_insert_ne.
Qed.

Lemma insert_items_lookup (l : list (string * string))
    (m : gmap string string) k :
  NoDup l.*1 ->
  foldl (fun (loss : gmap string string) kv => <[kv.1 := kv.2]> loss) m l !! k
  = match list_to_map (M := gmap string string) l !! k with
    | Some v => Some v
    | None => m !! k
    end.
Proof.
  revert m. induction l as [|[k' v'] l IH]; intros m Hnd; simpl; [done|].
  apply NoDup_cons in Hnd as [Hk' Hnd]. rewrite IH by done.
  destruct (decide (k = k')) as [->|Hne].
  - rewrite lookup_insert_eq.
    rewrite (not_elem_of_list_to_map_1 l k') by done.
    by rewrite lookup_insert_eq.
  - rewrite !lookup_insert_ne by done. done.
Qed.

Lemma insert_value_lookup (ks : list string) (v : string)
    (m : gmap string string) k :
  foldl (fun (loss : gmap string string) k => <[k := v]> loss) m ks !! k
  = if decide (k ∈ ks) then Some v else m !! k.
Proof.
  revert m. induction ks as [|x ks IH]; intros m; cbn [foldl].
  - case_decide; [set_solver | done].
  - rewrite IH. destruct (decide (k ∈ ks)) as [Hin|Hin].
    + rewrite decide_True by (by right). done.
    + destruct (decide (k = x)) as [->|Hne].
      * rewrite decide_True by (by left). by rewrite lookup_insert_eq.
      * rewrite decide_False by set_solver. by rewrite lookup_insert_ne.
Qed.

Lemma loss_from_ids_None_lookup (ids : list string) k :
  Net.loss_from_ids ids None !! k
  = if decide (k ∈ ids) then Some (default_loss k) else None.
Proof.
  unfold Net.loss_from_ids. rewrite default_losses_lookup.
  by rewrite lookup_empty.
Qed.

Lemma loss_from_ids_dict (ids : list string) (d : gmap string string) :
  Net.loss_from_ids ids (Some (Net.SpecDict d)) = d ∪ Net.loss_from_ids ids None.
Proof.
  apply map_eq. intros k. unfold Net.loss_from_ids.
  rewrite insert_items_lookup by apply NoDup_fst_map_to_list.
  rewrite list_to_map_to_list, lookup_union.
  destruct (d !! k) as [v|]; simpl; by destruct (foldl _ _ _ !! k).
Qed.

Lemma loss_from_ids_value_lookup (ids : list string) (v : string) k :
  Net.loss_from_ids ids (Some (Net.SpecValue v)) !! k
  = if decide (k ∈ ids) then Some v else None.
Proof.
  unfold Net.loss_from_ids. rewrite insert_value_lookup.
  set (loss := foldl _ _ ids).
  assert (Hl : forall k, loss !! k
    = if decide (k ∈ ids) then Some (default_loss k) else None).
  { intros k'. unfold loss. rewrite default_losses_lookup.
    by rewrite lookup_empty. }
  destruct (decide (k ∈ (map_to_list loss).*1)) as [Hin|Hin].
  - apply list_elem_of_fmap in Hin as ([k' v'] & -> & Hin).
    apply elem_of_map_to_list in Hin. rewrite Hl in Hin. simpl.
    by case_decide.
  - rewrite Hl. case_decide as Hk; [|done]. exfalso. apply Hin.
    apply list_elem_of_fmap. exists (k, default_loss k). split; [done|].
    apply elem_of_map_to_list. rewrite Hl. by rewrite decide_True.
Qed.

(** C9 (as amended): without a spec the keys of [loss_from_ids ids spec]
    are exactly [ids], an id starting with ['s'] having loss ['mse'] and
    every other one ['binary_crossentropy']; a dictionary spec is laid
    over these defaults, so it overrides the keys it mentions, leaves the
    other ids at their default, and adds every key it mentions that is
    not an id; any other spec keeps the keys [ids] and gives every id
    that value. *)
Theorem loss_from_ids_spec (ids : list string) :
  (dom (Net.loss_from_ids ids None) = list_to_set ids /\
   forall x, x ∈ ids ->
     Net.loss_from_ids ids None !! x
     = Some (if Net.startswith x "s" then "mse" else "binary_crossentropy")) /\
  (forall d : gmap string string,
     dom (Net.loss_from_ids ids (Some (Net.SpecDict d)))
       = list_to_set ids ∪ dom d /\
     forall k,
       Net.loss_from_ids ids (Some (Net.SpecDict d)) !! k
       = match d !! k with
         | Some v => Some v
         | None => Net.loss_from_ids ids None !! k
         end) /\
  (forall v : string,
     dom (Net.loss_from_ids ids (Some (Net.SpecValue v))) = list_to_set ids /\
     forall x, x ∈ ids ->
       Net.loss_from_ids ids (Some (Net.SpecValue v)) !! x = Some v).
Proof.
  assert (Hdom : dom (Net.loss_from_ids ids None) = list_to_set ids).
  { apply set_eq. intros k. rewrite elem_of_dom, loss_from_ids_None_lookup.
    rewrite elem_of_list_to_set. case_decide; split; done. }
  split_and!.
  - done.
  - intros x Hx. rewrite loss_from_ids_None_lookup. by rewrite decide_True.
  - intros d. split.
    + rewrite loss_from_ids_dict, dom_union_L, Hdom. set_solver.
    + intros k. rewrite loss_from_ids_dict, lookup_union.
      by destruct (d !! k), (Net.loss_from_ids ids None !! k).
  - intros v. split.
    + apply set_eq. intros k. rewrite elem_of_dom, loss_from_ids_value_lookup.
      rewrite elem_of_list_to_set. case_decide; split; done.
    + intros x Hx. rewrite loss_from_ids_value_lookup. by rewrite decide_True.
Qed.

(** A dictionary spec that names a key outside [ids] puts that key into
    the result: the key set is then not [ids]. *)
Lemma loss_from_ids_extra_key :
  dom (Net.loss_from_ids ["c_y"] (Some (Net.SpecDict {["foo" := "mse"]})))
  ≠ list_to_set ["c_y"].
Proof.
  intros H.
  assert (Hin : "foo" ∈ dom (Net.loss_from_ids ["c_y"]
                               (Some (Net.SpecDict {["foo" := "mse"]})))).
  { apply elem_of_dom. exists "mse". vm_compute. reflexivity. }
  rewrite H in Hin. apply elem_of_list_to_set, list_elem_of_singleton in Hin.
  discriminate Hin.
Qed.

(** ** [adjust_batch_size] *)

Section BatchSizeProps.
Context {Model : Type}.
Variable train_on_batch : Model -> Z -> Model * bool.
Variable set_lr : Model -> Q -> Model.

Lemma all_raise_cons model c cs :
  (train_on_batch model c.1).2 = false ->
  all_raise train_on_batch (train_on_batch model c.1).1 cs ->
  all_raise train_on_batch model (c :: cs).
Proof.
  intros Hc Hcs pre c' post Heq. destruct pre as [|p pre]; simpl in *.
  - by injection Heq as <- _.
  - injection Heq as <- ->. by apply (Hcs pre c' post).
Qed.

Lemma try_configs_spec todo :
  forall model nb_sample log i model' log' idx,
  Train.try_configs train_on_batch model nb_sample log i todo
    = (model', log', idx) ->
  exists failed,
    all_raise train_on_batch model failed /\
    match idx with
    | Some j =>
        exists c rest,
          filter (fun c => c.1 <= nb_sample) todo = failed ++ c :: rest /\
          (i <= j)%nat /\ todo !! (j - i)%nat = Some c /\
          train_on_batch (train_all train_on_batch model failed) c.1 = (model', true) /\
          log' = log ++ flat_map (fun c => [try_msg c; failed_msg c]) failed
                     ++ [try_msg c]
    | None =>
        filter (fun c => c.1 <= nb_sample) todo = failed /\
        model' = train_all train_on_batch model failed /\
        log' = log ++ flat_map (fun c => [try_msg c; failed_msg c]) failed
    end.
Proof.
  induction todo as [|c todo IH]; intros model nb_sample log i model' log' idx;
    cbn [Train.try_configs].
  - intros [= <- <- <-]. exists []. split; [by intros [] ? ? ?|].
    by rewrite app_nil_r.
  - destruct (Z.ltb_spec nb_sample c.1) as [Hskip|Htry].
    + intros Hrun. apply IH in Hrun as (failed & Hfail & Hres).
      exists failed. split; [done|].
      rewrite filter_cons_False by lia.
      destruct idx as [j|]; [|done].
      destruct Hres as (c' & rest & ? & ? & Hj & ? & ?).
      exists c', rest. split_and!; try done; [lia|].
      replace (j - i)%nat with (S (j - S i)) by lia. done.
    + rewrite filter_cons_True by lia.
      destruct (train_on_batch model c.1) as [model1 returned] eqn:Htrain.
      destruct returned.
      * intros [= <- <- <-]. exists []. split; [by intros [] ? ? ?|].
        exists c, (filter (fun c => c.1 <= nb_sample) todo).
        split_and!; try done. by rewrite Nat.sub_diag.
      * intros Hrun. apply IH in Hrun as (failed & Hfail & Hres).
        exists (c :: failed). split.
        { apply all_raise_cons; by rewrite Htrain. }
        unfold train_all in *. cbn [foldl flat_map]. rewrite Htrain.
        cbn [fst]. destruct idx as [j|].
        -- destruct Hres as (c' & rest & -> & ? & Hj & ? & ->).
           exists c', rest. split_and!; try done; [lia| |].
           ++ replace (j - i)%nat with (S (j - S i)) by lia. done.
           ++ by rewrite <- !app_assoc.
        -- destruct Hres as (-> & ? & ->). split_and!; try done.
           by rewrite <- !app_assoc.
Qed.

(** The log only grows, and nothing else depends on it. *)
Lemma try_configs_log todo :
  forall model nb_sample log i,
  Train.try_configs train_on_batch model nb_sample log i todo
  = let r := Train.try_configs train_on_batch model nb_sample [] i todo in
    (r.1.1, log ++ r.1.2, r.2).
Proof.
  induction todo as [|c todo IH]; intros model nb_sample log i;
    cbn [Train.try_configs].
  - cbn. by rewrite app_nil_r.
  - destruct (nb_sample <? c.1); [apply IH|].
    destruct (train_on_batch model c.1) as [model1 returned].
    destruct returned; [done|].
    rewrite IH. cbn [app]. rewrite (IH _ _ [_; _]). cbn.
    by rewrite <- !app_assoc.
Qed.

(** C5: [adjust_batch_size] goes through the configurations with batch
    sizes 512, 256, 128, 64, 32, 16 in this (strictly descending) order,
    leaves out those whose batch size exceeds [nb_sample], and returns
    the first pair for which [train_on_batch] returns; when every
    attempt raises (or none is made) it returns [(None, None)], and
    [main], when it adjusts the batch size (no [--batch_size], and
    [--batch_size_auto] or no parameter file), then logs an error and
    returns 1. *)
Theorem adjust_batch_size_first_fit (model : Model) (nb_sample : Z)
    (log : list Train.log_entry) :
  Train.configs.*1 = [512; 256; 128; 64; 32; 16] /\
  exists failed model' log' r,
    Train.adjust_batch_size train_on_batch model nb_sample log
      = (model', log', r) /\
    all_raise train_on_batch model failed /\
    match r with
    | (Some batch_size, Some lr) =>
        exists rest,
          filter (fun c => c.1 <= nb_sample) Train.configs
            = failed ++ (batch_size, lr) :: rest /\
          train_on_batch (train_all train_on_batch model failed) batch_size
            = (model', true) /\
          log' = log ++ flat_map (fun c => [try_msg c; failed_msg c]) failed
                     ++ [try_msg (batch_size, lr)]
    | (None, None) =>
        filter (fun c => c.1 <= nb_sample) Train.configs = failed /\
        model' = train_all train_on_batch model failed /\
        log' = log ++ flat_map (fun c => [try_msg c; failed_msg c]) failed /\
        forall opts_batch_size auto params_batch_size,
          opts_batch_size = None \/ opts_batch_size = Some 0 ->
          auto || bool_decide (params_batch_size = None) = true ->
          Train.define_batch_size train_on_batch set_lr opts_batch_size auto
            params_batch_size model nb_sample log
          = (model',
             log ++ [Train.Info "Adjust batch size"]
                 ++ flat_map (fun c => [try_msg c; failed_msg c]) failed
                 ++ [Train.Error "GPU memory to small"],
             Train.Return 1)
    | _ => False
    end.
Proof.
  split; [done|].
  assert (Hrun : forall log, exists failed model' log' idx,
    Train.try_configs train_on_batch model nb_sample log 0 Train.configs
      = (model', log', idx) /\
    all_raise train_on_batch model failed /\
    match idx with
    | Some j =>
        exists c rest,
          filter (fun c => c.1 <= nb_sample) Train.configs
            = failed ++ c :: rest /\
          Train.configs !! j = Some c /\
          train_on_batch (train_all train_on_batch model failed) c.1 = (model', true) /\
          log' = log ++ flat_map (fun c => [try_msg c; failed_msg c]) failed
                     ++ [try_msg c]
    | None =>
        filter (fun c => c.1 <= nb_sample) Train.configs = failed /\
        model' = train_all train_on_batch model failed /\
        log' = log ++ flat_map (fun c => [try_msg c; failed_msg c]) failed
    end).
  { intros log0.
    destruct (Train.try_configs train_on_batch model nb_sample log0 0
                Train.configs) as [[model' log'] idx] eqn:Hrun.
    apply try_configs_spec in Hrun as (failed & Hfail & Hres).
    exists failed, model', log', idx. split_and!; try done.
    destruct idx as [j|]; [|done].
    destruct Hres as (c & rest & ? & _ & Hj & ? & ?).
    rewrite Nat.sub_0_r in Hj. by exists c, rest. }
  destruct (Hrun log) as (failed & model' & log' & idx & Htry & Hfail & Hres).
  unfold Train.adjust_batch_size. rewrite Htry.
  destruct idx as [j|].
  - destruct Hres as ([bs lr] & rest & Hcands & Hj & Htrain & Hlog).
    rewrite Hj. exists failed, model', log', (Some bs, Some lr).
    split_and!; try done. by exists rest.
  - destruct Hres as (Hcands & Hm & Hlog).
    exists failed, model', log', (None, None). split_and!; try done.
    intros obs auto pbs Hobs Hauto. unfold Train.define_batch_size.
    assert (match obs with Some n => truthyZ n | None => false end = false)
      as -> by (by destruct Hobs as [-> | ->]).
    rewrite Hauto. unfold Train.adjust_batch_size.
    rewrite try_configs_log in Htry. rewrite try_configs_log.
    destruct (Train.try_configs train_on_batch model nb_sample [] 0
                Train.configs) as [[model0 log0] idx0].
    cbn in Htry |- *. injection Htry as -> Hlog0 ->.
    rewrite Hlog in Hlog0. apply app_inv_head in Hlog0 as ->.
    by rewrite <- !app_assoc.
Qed.
End BatchSizeProps.

(** Three hundred samples and a device that takes batches below one
    hundred: 512 is left out, 256 and 128 fail, 64 fits. *)
Example adjust_batch_size_run :
  Train.adjust_batch_size (fun (calls : nat) bs => (S calls, bs <? 100))
    0%nat 300 []
  = (3%nat,
     [Train.Info "Try batch size 256"; Train.Info "Batch size 256 failed!";
      Train.Info "Try batch size 128"; Train.Info "Batch size 128 failed!";
      Train.Info "Try batch size 64"],
     (Some 64, Some 0.001%Q)).
Proof. reflexivity. Qed.

(** ** [get_sample_weights], [check_weights], [read_data] *)

Section WeightsProps.
Variable MASK : Q.
Variable mean : list Q -> pyfloat.
Variable one_minus : pyfloat -> pyfloat.

#[local] Abbreviation is_mask := (fun a : Q => Qeq_bool a MASK).
#[local] Abbreviation weight_of :=
  (fun a : Q => if Qeq_bool a MASK then Finite 0 else Finite 1).
#[local] Abbreviation default_weights y :=
  (Train.get_sample_weights MASK mean one_minus y false).

Lemma default_weights_flat (y : Train.ndarray Q) :
  default_weights y
  = {| Train.shape := Train.shape y;
       Train.flat :=
         zip_with (fun (m : bool) w => if m then Finite 0 else w)
           (is_mask <$> Train.flat y)
           (replicate (Train.size_of (Train.shape y)) (Finite 1)) |}.
Proof. reflexivity. Qed.

Lemma zip_ones (l : list Q) (n : nat) :
  length l = n ->
  zip_with (fun (m : bool) w => if m then Finite 0 else w)
    (is_mask <$> l) (replicate n (Finite 1))
  = weight_of <$> l.
Proof.
  revert n. induction l as [|a l IH]; intros [|n] Hn; try done.
  cbn. injection Hn as Hn. by rewrite (IH n Hn).
Qed.

Lemma wf_weights_flat (y : Train.ndarray Q) :
  Train.wf_array y ->
  Train.flat (default_weights y) = weight_of <$> Train.flat y.
Proof.
  intros Hwf. rewrite default_weights_flat. cbn [Train.flat].
  by apply zip_ones.
Qed.

Lemma read_weights_lookup (output_order : list string)
    (data : gmap string (Train.ndarray Q)) :
  (forall k, k ∈ output_order -> is_Some (data !! k)) ->
  forall weights0, exists weights,
    Train.read_weights MASK mean one_minus output_order data weights0
      = Ok weights /\
    forall k,
      weights !! k
      = if decide (k ∈ output_order)
        then (fun y => default_weights y) <$> data !! k
        else weights0 !! k.
Proof.
  induction output_order as [|o rest IH]; intros Hdata weights0;
    cbn [Train.read_weights].
  - exists weights0. split; [done|]. intros k. by rewrite decide_False by by inversion 1.
  - destruct (Hdata o) as [yo Hyo]; [by left|].
    unfold Train.getitem. rewrite Hyo. cbn.
    destruct (IH (fun k Hk => Hdata k (list_elem_of_further _ _ _ Hk))
                 (<[o := default_weights yo]> weights0))
      as (weights & Hrun & Hlook).
    exists weights. split; [done|]. intros k. rewrite Hlook.
    destruct (decide (k ∈ rest)) as [Hin|Hin].
    + by rewrite decide_True by by right.
    + destruct (decide (k = o)) as [->|Hne].
      * rewrite decide_True by by left. by rewrite lookup_insert_eq, Hyo.
      * rewrite decide_False by (by intros [?|?]%elem_of_cons).
        by rewrite lookup_insert_ne.
Qed.

(** The block of [ws] below position [o] of a mask. *)
Lemma all_eq_block (ws : list pyfloat) (block o : nat) (v : Q) :
  Train.all_eq (take block (drop (o * block) ws)) v = true
  <-> forall j b, (j < block)%nat -> ws !! (o * block + j)%nat = Some b ->
        float_eqb b v = true.
Proof.
  unfold Train.all_eq. rewrite forallb_forall. split.
  - intros H j b Hj Hb. apply H, list_elem_of_In.
    apply (list_elem_of_lookup_2 _ j).
    by rewrite lookup_take_lt, lookup_drop.
  - intros H b [j Hj]%list_elem_of_In%list_elem_of_lookup_1.
    apply lookup_take_Some in Hj as [Hj Hlt]. rewrite lookup_drop in Hj.
    by apply (H j).
Qed.

(** What [np.all(w[h] == v)] asks of [w]: every entry below a position
    where the mask holds is [v]. *)
Lemma all_eq_selected (ws : list pyfloat) (block : nat) (v : Q)
    (mask : list bool) :
  forall o,
    Train.all_eq
      (concat (imap (fun i (m : bool) =>
                       if m then take block (drop ((o + i) * block) ws)
                       else [])
                    mask)) v = true
    <-> forall i j b, mask !! i = Some true -> (j < block)%nat ->
          ws !! ((o + i) * block + j)%nat = Some b -> float_eqb b v = true.
Proof.
  induction mask as [|m mask IH]; intros o.
  - split; [|done]. intros _ i j b Hi. by rewrite lookup_nil in Hi.
  - cbn [imap concat]. unfold Train.all_eq at 1.
    rewrite forallb_app, andb_true_iff. fold (Train.all_eq).
    rewrite (imap_ext _ (fun i (m : bool) =>
               if m then take block (drop ((S o + i) * block) ws) else [])
               mask)
      by (intros i x _; cbn [compose];
          by replace (o + S i)%nat with (S o + i)%nat by lia).
    fold (Train.all_eq (concat (imap (fun i (m : bool) =>
            if m then take block (drop ((S o + i) * block) ws) else [])
            mask)) v).
    rewrite (IH (S o)), Nat.add_0_r. split.
    + intros [H0 Hrest] [|i] j b Hi Hj Hb.
      * injection Hi as ->. rewrite Nat.add_0_r in Hb.
        by apply (proj1 (all_eq_block ws block o v) H0 j b).
      * apply (Hrest i j b); [done | done |].
        by replace (S o + i)%nat with (o + S i)%nat by lia.
    + intros H. split.
      * destruct m; [|done]. apply all_eq_block. intros j b Hj Hb.
        apply (H 0%nat j b); [done | done |]. by rewrite Nat.add_0_r.
      * intros i j b Hi Hj Hb. apply (H (S i) j b); [done | done |].
        by replace (o + S i)%nat with (S o + i)%nat by lia.
Qed.

(** [check_weights] passes exactly when, for every output, the shape of
    the labels is the beginning of the shape of the weights, and the
    weights below a label are all 0 when the label is the mask and all
    1 when it is not.  For weights of the shape of the labels there is
    one weight below each label. *)
Lemma check_weights_asserts (output_order : list string)
    (data : gmap string (Train.ndarray Q))
    (weights : gmap string (Train.ndarray pyfloat)) :
  (forall k, k ∈ output_order ->
     is_Some (data !! k) /\ is_Some (weights !! k)) ->
  Train.check_weights MASK output_order data weights = Ok tt <->
  forall k y w, k ∈ output_order -> data !! k = Some y -> weights !! k = Some w ->
    Train.shape y `prefix_of` Train.shape w /\
    forall i a j b,
      Train.flat y !! i = Some a ->
      (j < Train.size_of (drop (length (Train.shape y)) (Train.shape w)))%nat ->
      Train.flat w
        !! (i * Train.size_of (drop (length (Train.shape y)) (Train.shape w))
            + j)%nat = Some b ->
      (a == MASK -> float_eqb b 0 = true) /\
      (~ a == MASK -> float_eqb b 1 = true).
Proof.
  induction output_order as [|o rest IH]; intros Hall;
    cbn [Train.check_weights].
  - split; [|done]. intros _ k y w Hk. by apply elem_of_nil in Hk.
  - destruct (Hall o) as [[yo Hyo] [wo Hwo]]; [by left|].
    assert (Hrest : forall k, k ∈ rest ->
              is_Some (data !! k) /\ is_Some (weights !! k)).
    { intros k Hk. apply Hall. by right. }
    specialize (IH Hrest).
    unfold Train.getitem. rewrite Hyo, Hwo. cbn [mbind result_bind].
    unfold Train.select_where, Train.invert, Train.eq_mask.
    cbn [Train.shape Train.flat].
    set (block := Train.size_of (drop (length (Train.shape yo))
                                   (Train.shape wo))).
    assert (Hone : forall (P : Q -> bool) (v : Q),
      Train.all_eq
        (concat (imap (fun i (m : bool) =>
                         if m then take block (drop (i * block) (Train.flat wo))
                         else [])
                      (P <$> Train.flat yo))) v = true
      <-> forall i a j b,
            Train.flat yo !! i = Some a -> (j < block)%nat ->
            Train.flat wo !! (i * block + j)%nat = Some b ->
            P a = true -> float_eqb b v = true).
    { intros P v.
      rewrite (all_eq_selected (Train.flat wo) block v
                 (P <$> Train.flat yo) 0).
      split.
      - intros H i a j b Hi Hj Hb HP. apply (H i j b); [|done..].
        by rewrite list_lookup_fmap, Hi, <- HP.
      - intros H i j b Hi Hj Hb. rewrite list_lookup_fmap in Hi.
        destruct (Train.flat yo !! i) as [a|] eqn:Ha; [|done].
        injection Hi as HP. by apply (H i a j b). }
    assert (Hboth :
      (Train.all_eq
         (concat (imap (fun i (m : bool) =>
                          if m then take block (drop (i * block) (Train.flat wo))
                          else [])
                       (is_mask <$> Train.flat yo))) 0 = true /\
       Train.all_eq
         (concat (imap (fun i (m : bool) =>
                          if m then take block (drop (i * block) (Train.flat wo))
                          else [])
                       (negb <$> (is_mask <$> Train.flat yo)))) 1 = true)
      <-> forall i a j b,
            Train.flat yo !! i = Some a -> (j < block)%nat ->
            Train.flat wo !! (i * block + j)%nat = Some b ->
            (a == MASK -> float_eqb b 0 = true) /\
            (~ a == MASK -> float_eqb b 1 = true)).
    { rewrite <- list_fmap_compose.
      rewrite (Hone is_mask 0%Q), (Hone (negb ∘ is_mask) 1%Q). split.
      - intros [H0 H1] i a j b Hi Hj Hb. split; intros Ha.
        + apply (H0 i a j b); [done..|]. by apply Qeq_bool_iff.
        + apply (H1 i a j b); [done..|]. cbn.
          destruct (Qeq_bool a MASK) eqn:Hq; [|done].
          by apply Qeq_bool_iff in Hq.
      - intros H. split; intros i a j b Hi Hj Hb HP.
        + apply (H i a j b); [done..|]. by apply Qeq_bool_iff.
        + apply (H i a j b); [done..|]. intros Ha.
          apply Qeq_bool_iff in Ha. cbn in HP. by rewrite Ha in HP. }
    destruct (decide (Train.shape yo `prefix_of` Train.shape wo)) as [Hsh|Hsh].
    + rewrite bool_decide_eq_true_2 by done. cbn [mbind result_bind].
      destruct (Train.all_eq _ 0) eqn:H0;
        cbn [Train.assert mbind result_bind].
      * destruct (Train.all_eq _ 1) eqn:H1;
          cbn [Train.assert mbind result_bind].
        -- rewrite IH. split.
           ++ intros Hr k y w [->|Hk]%elem_of_cons Hy Hw.
              ** rewrite Hyo in Hy. rewrite Hwo in Hw.
                 injection Hy as <-. injection Hw as <-.
                 split; [done|]. by apply Hboth.
              ** by apply (Hr k y w).
           ++ intros Hr k y w Hk Hy Hw.
              apply (Hr k y w); [by right|done|done].
        -- split; [done|]. intros Hr.
           destruct (Hr o yo wo) as [_ He]; [by left|done|done|].
           apply Hboth in He as [_ He]. congruence.
      * split; [done|]. intros Hr.
        destruct (Hr o yo wo) as [_ He]; [by left|done|done|].
        apply Hboth in He as [He _]. congruence.
    + rewrite bool_decide_eq_false_2 by done. cbn [mbind result_bind].
      split; [done|]. intros Hr.
      destruct (Hr o yo wo) as [He _]; [by left|done|done|]. done.
Qed.

Lemma check_weights_passes (output_order : list string)
    (data : gmap string (Train.ndarray Q))
    (weights : gmap string (Train.ndarray pyfloat)) :
  (forall k, k ∈ output_order ->
     exists y, data !! k = Some y /\ Train.wf_array y /\
       weights !! k = Some (default_weights y)) ->
  Train.check_weights MASK output_order data weights = Ok tt.
Proof.
  intros Hall. apply check_weights_asserts.
  - intros k Hk. destruct (Hall k Hk) as (y & -> & _ & ->). by split; eexists.
  - intros k y w Hk Hy Hw. destruct (Hall k Hk) as (y' & Hy' & Hwf & Hw').
    rewrite Hy in Hy'. injection Hy' as <-.
    rewrite Hw in Hw'. injection Hw' as ->.
    change (Train.shape (default_weights y)) with (Train.shape y).
    split; [done|]. rewrite drop_all. cbn [Train.size_of foldr].
    intros i a j b Hi Hj. assert (j = 0%nat) as -> by lia.
    rewrite Nat.mul_1_r, Nat.add_0_r, wf_weights_flat by done.
    rewrite list_lookup_fmap, Hi. intros [= <-]. split; intros Ha.
    + apply Qeq_bool_iff in Ha. by rewrite Ha.
    + destruct (Qeq_bool a MASK) eqn:Hq; [|done].
      by apply Qeq_bool_iff in Hq.
Qed.

(** C3: [get_sample_weights y] (with [weight_classes=False]) has the
    shape of [y], weight 0 at every entry equal to [io.MASK] and weight
    1 at every other entry; [read_data], run on data that holds an
    array for every model output, computes these weights for every
    output and passes [check_weights].  What [check_weights] asserts of
    the weights of an output is that every weight below a masked label
    is 0 and every weight below another label is 1, the shape of the
    labels being the beginning of the shape of the weights (all of it,
    for the weights that [read_data] makes). *)
Theorem sample_weights_mask (y : Train.ndarray Q) :
  Train.wf_array y ->
  let w := Train.get_sample_weights MASK mean one_minus y false in
  Train.shape w = Train.shape y /\
  Train.wf_array w /\
  (forall i a, Train.flat y !! i = Some a ->
     (a == MASK -> Train.flat w !! i = Some (Finite 0)) /\
     (~ a == MASK -> Train.flat w !! i = Some (Finite 1))) /\
  (forall (data : gmap string (Train.ndarray Q)) (output_order : list string),
     (forall k, k ∈ output_order ->
        exists yk, data !! k = Some yk /\ Train.wf_array yk) ->
     exists weights,
       Train.read_data MASK mean one_minus data output_order
         = Ok (data, weights) /\
       (forall k yk, k ∈ output_order -> data !! k = Some yk ->
          weights !! k
          = Some (Train.get_sample_weights MASK mean one_minus yk false)) /\
       Train.check_weights MASK output_order data weights = Ok tt) /\
  (forall (data : gmap string (Train.ndarray Q))
          (weights : gmap string (Train.ndarray pyfloat))
          (output_order : list string),
     (forall k, k ∈ output_order ->
        is_Some (data !! k) /\ is_Some (weights !! k)) ->
     Train.check_weights MASK output_order data weights = Ok tt <->
     forall k yk wk, k ∈ output_order ->
       data !! k = Some yk -> weights !! k = Some wk ->
       Train.shape yk `prefix_of` Train.shape wk /\
       forall i a j b,
         Train.flat yk !! i = Some a ->
         (j < Train.size_of (drop (length (Train.shape yk)) (Train.shape wk)))%nat ->
         Train.flat wk
           !! (i * Train.size_of (drop (length (Train.shape yk))
                                    (Train.shape wk)) + j)%nat = Some b ->
         (a == MASK -> float_eqb b 0 = true) /\
         (~ a == MASK -> float_eqb b 1 = true)).
Proof.
  intros Hwf w. split_and!; [| | | |by intros; apply check_weights_asserts].
  - done.
  - unfold Train.wf_array, w. rewrite wf_weights_flat by done.
    by rewrite length_fmap.
  - intros i a Hi. unfold w. rewrite wf_weights_flat by done.
    rewrite list_lookup_fmap, Hi. cbn. split; intros Ha.
    + apply Qeq_bool_iff in Ha. by rewrite Ha.
    + destruct (Qeq_bool a MASK) eqn:Hb; [|done].
      by apply Qeq_bool_iff in Hb.
  - intros data output_order Hdata.
    assert (Hsome : forall k, k ∈ output_order -> is_Some (data !! k)).
    { intros k Hk. destruct (Hdata k Hk) as (yk & -> & _). by eexists. }
    destruct (read_weights_lookup output_order data Hsome ∅)
      as (weights & Hrun & Hlook).
    assert (Hw : forall k yk, k ∈ output_order -> data !! k = Some yk ->
              weights !! k = Some (default_weights yk)).
    { intros k yk Hk Hyk. by rewrite Hlook, decide_True, Hyk. }
    assert (Hcheck :
      Train.check_weights MASK output_order data weights = Ok tt).
    { apply check_weights_passes. intros k Hk.
      destruct (Hdata k Hk) as (yk & Hyk & Hwfk).
      exists yk. split_and!; try done. by apply Hw. }
    exists weights. split_and!; try done.
    unfold Train.read_data. rewrite Hrun. cbn [mbind result_bind].
    unfold Train.to_view. by rewrite Hcheck.
Qed.
End WeightsProps.

Lemma sample_weights_mask_witness :
  Train.wf_array ex_labels /\
  exists weights,
    Train.read_data (-1) int_mean one_minus64 {["c_y" := ex_labels]} ["c_y"]
      = Ok ({["c_y" := ex_labels]}, weights) /\
    Train.flat <$> weights !! "c_y"
      = Some [Finite 1; Finite 0; Finite 1; Finite 0] /\
    Train.check_weights (-1) ["c_y"] {["c_y" := ex_labels]} weights = Ok tt.
Proof.
  assert (Hwf : Train.wf_array ex_labels) by reflexivity.
  split; [exact Hwf|].
  destruct (sample_weights_mask (-1) int_mean one_minus64 ex_labels Hwf)
    as (_ & _ & _ & Hread & _).
  destruct (Hread {["c_y" := ex_labels]} ["c_y"])
    as (weights & Hrun & Hw & Hcheck).
  { intros k ->%list_elem_of_singleton. exists ex_labels.
    by rewrite lookup_singleton_eq. }
  exists weights. split_and!; [done | | done].
  rewrite (Hw "c_y" ex_labels); [done | by left | by rewrite lookup_singleton_eq].
Defined.

(** Weights with a further axis of length 1 pass [check_weights] as
    well: the mask of the labels selects along the axes it has. *)
Example check_weights_further_axis :
  Train.check_weights (-1) ["c_y"] {["c_y" := ex_labels]}
    {["c_y" := {| Train.shape := [2; 2; 1]%nat;
                  Train.flat := [Finite 1; Finite 0; Finite 1; Finite 0] |}]}
  = Ok tt.
Proof. vm_compute. reflexivity. Qed.

(** Weights of another shape are refused by the indexing itself. *)
Example check_weights_other_shape :
  Train.check_weights (-1) ["c_y"] {["c_y" := ex_labels]}
    {["c_y" := {| Train.shape := [4]%nat;
                  Train.flat := [Finite 1; Finite 0; Finite 1; Finite 0] |}]}
  = Raise IndexError.
Proof. vm_compute. reflexivity. Qed.

(** ** Dictionaries *)

Lemma odict_NoDup {V} (d : odict V) : NoDup (items d).*1.
Proof. exact (bool_decide_unpack _ (keys_distinct d)). Qed.

Lemma odict_lookup_Some {V} (d : odict V) (k : string) (v : V) :
  d !! k = Some v <-> (k, v) ∈ items d.
Proof.
  unfold lookup at 1, odict_lookup. symmetry.
  apply elem_of_list_to_map, odict_NoDup.
Qed.

Lemma odict_lookup_is_Some {V} (d : odict V) (k : string) :
  is_Some (d !! k) <-> k ∈ (items d).*1.
Proof.
  rewrite list_elem_of_fmap. split.
  - intros [v Hv%odict_lookup_Some]. by exists (k, v).
  - intros ([k' v] & -> & Hin). exists v. by apply odict_lookup_Some.
Qed.

Lemma to_map_lookup {V} (d : odict V) (k : string) : to_map d !! k = d !! k.
Proof. reflexivity. Qed.

(** ** [copy_weights] *)

Section CopyWeightsProps.
Context {W : Type}.
Variable re_search : string -> string -> bool.

Lemma filter_regex_truthy (k : string) (regexs : list string) :
  Net.truthy_list (Net.filter_regex re_search [k] regexs) = true
  <-> matches_any re_search regexs k.
Proof.
  unfold Net.filter_regex, matches_any. cbn.
  destruct (existsb _ regexs) eqn:He; cbn.
  - apply existsb_exists in He as (r & Hr & Hm).
    split; [|done]. intros _. exists r. by rewrite list_elem_of_In.
  - split; [done|]. intros (r & Hr & Hm).
    assert (existsb (fun regex => re_search regex k) regexs = true) as Ht.
    { apply existsb_exists. exists r. by rewrite <- list_elem_of_In. }
    congruence.
Qed.

Lemma copy_loop (src : odict W) (regexs : list string)
    (l : list (string * W)) :
  (forall k v, (k, v) ∈ l -> src !! k = Some v) ->
  NoDup l.*1 ->
  forall dst copied0, exists dst' copied,
    foldl (Net.copy_step re_search src regexs) (Ok (dst, copied0)) l
      = Ok (dst', copied0 ++ copied) /\
    NoDup copied /\
    (forall k, k ∈ copied <-> k ∈ l.*1 /\ copies re_search regexs dst k) /\
    (forall k, k ∈ copied -> dst' !! k = src !! k) /\
    (forall k, k ∉ copied -> dst' !! k = dst !! k) /\
    dom dst' = dom dst.
Proof.
  induction l as [|[k v] l IH]; intros Hsrc Hnd dst copied0.
  - exists dst, []. cbn. rewrite app_nil_r. split_and!; try done.
    + intros k. split; [by inversion 1 | by intros [?%elem_of_nil _]].
    + by inversion 1.
  - cbn [fmap list_fmap] in Hnd. apply NoDup_cons in Hnd as [Hk Hnd].
    assert (Hsrc' : forall k v, (k, v) ∈ l -> src !! k = Some v).
    { intros k' v' Hin. apply Hsrc. by right. }
    cbn [foldl]. unfold Net.copy_step at 2. cbn [mbind result_bind fst].
    destruct (Net.truthy_list _) eqn:Hm; cbn [andb].
    + destruct (bool_decide (is_Some (dst !! k))) eqn:Hd.
      * apply bool_decide_eq_true in Hd. destruct Hd as [w0 Hw0].
        unfold od_getitem, Net.getitem. rewrite (Hsrc k v) by by left.
        rewrite Hw0. cbn [mbind result_bind].
        destruct (IH Hsrc' Hnd (<[k := v]> dst) (copied0 ++ [k]))
          as (dst' & copied & Hrun & Hnd' & Hin & Hcop & Hkeep & Hdom).
        assert (Hsame : forall k', copies re_search regexs (<[k := v]> dst) k'
                                   <-> copies re_search regexs dst k').
        { intros k'. unfold copies. destruct (decide (k' = k)) as [->|Hne].
          - rewrite lookup_insert_eq, Hw0. by split; intros [? _].
          - by rewrite lookup_insert_ne. }
        assert (Hkc : k ∉ copied).
        { intros Hc. apply Hin in Hc as [Hc _]. done. }
        exists dst', (k :: copied). rewrite Hrun.
        rewrite <- app_assoc. split_and!; try done.
        -- by constructor.
        -- intros k'. rewrite elem_of_cons, Hin, Hsame.
           cbn [fmap list_fmap fst]. rewrite elem_of_cons. split.
           ++ intros [->|[? ?]]; [|by auto].
              split; [by left|]. split; [|by eexists].
              by apply filter_regex_truthy.
           ++ intros [[->|?] ?]; by auto.
        -- intros k' [->|Hc]%elem_of_cons; [|by apply Hcop].
           rewrite Hkeep by done. rewrite lookup_insert_eq.
           symmetry. apply Hsrc. by left.
        -- intros k' Hnc. apply not_elem_of_cons in Hnc as [Hne Hnc].
           rewrite Hkeep by done. by rewrite lookup_insert_ne.
        -- rewrite Hdom, dom_insert_L.
           assert (k ∈ dom dst) by (apply elem_of_dom; by eexists).
           set_solver.
      * apply bool_decide_eq_false in Hd.
        destruct (IH Hsrc' Hnd dst copied0)
          as (dst' & copied & Hrun & Hnd' & Hin & Hcop & Hkeep & Hdom).
        exists dst', copied. split_and!; try done.
        intros k'. rewrite Hin. cbn [fmap list_fmap fst].
        rewrite elem_of_cons. split; [by intros [? ?]; auto|].
        intros [[->|?] Hc]; [|done]. by destruct Hc as [_ ?].
    + destruct (IH Hsrc' Hnd dst copied0)
        as (dst' & copied & Hrun & Hnd' & Hin & Hcop & Hkeep & Hdom).
      exists dst', copied. split_and!; try done.
      intros k'. rewrite Hin. cbn [fmap list_fmap fst].
      rewrite elem_of_cons. split; [by intros [? ?]; auto|].
      intros [[->|?] Hc]; [|done]. destruct Hc as [Hc _].
      apply filter_regex_truthy in Hc. congruence.
Qed.

(** C4: [copy_weights src dst regexs] returns, each once, exactly the
    node names of [src] that match at least one regex and are present
    in [dst]; in [dst] afterwards each of these nodes has the weights it
    has in [src], and every other node has the weights it had. *)
Theorem copy_weights_frame (src : odict W) (dst : gmap string W)
    (regexs : list string) :
  exists dst' copied,
    Net.copy_weights re_search src dst regexs = Ok (dst', copied) /\
    NoDup copied /\
    (forall k, k ∈ copied <->
       is_Some (src !! k) /\ matches_any re_search regexs k /\ is_Some (dst !! k)) /\
    (forall k, k ∈ copied -> dst' !! k = src !! k) /\
    (forall k, k ∉ copied -> dst' !! k = dst !! k) /\
    dom dst' = dom dst.
Proof.
  destruct (copy_loop src regexs (items src)) with (dst := dst)
    (copied0 := @nil string)
    as (dst' & copied & Hrun & Hnd & Hin & Hcop & Hkeep & Hdom).
  { intros k v. by rewrite odict_lookup_Some. }
  { apply odict_NoDup. }
  exists dst', copied. split_and!; try done.
  intros k. rewrite Hin, <- odict_lookup_is_Some. unfold copies. tauto.
Qed.
End CopyWeightsProps.

(** Copying the nodes that start with ["c_"]: ["c_h1"] and ["c_c1"] are
    in both models, ["c_f1"] is only in the source, ["s_h1"] only in
    the destination; the copied names come in the order of the source. *)
Example copy_weights_run :
  (fun r => (r.1 !! "c_h1", r.1 !! "s_h1", r.1 !! "c_f1", r.2))
    <$> (match Net.copy_weights (fun regex s => String.prefix regex s)
                 ex_nodes {["c_h1" := 40; "s_h1" := 30; "c_c1" := 10]} ["c_"]
         with Ok r => Some r | Raise _ => None end)
  = Some (Some 4, Some 30, None, ["c_c1"; "c_h1"]).
Proof. vm_compute. reflexivity. Qed.

(** ** Model interchange *)

Section InterchangeProps.
Context {Model Weights : Type}.
Variable to_json : Model -> string.
Variable kmodels_model_from_json : string -> bool -> result Model.
Variable saved_weights : Model -> Weights.
Variable load_weights_into : Model -> Weights -> result Model.

#[local] Abbreviation file := (@Net.file Model Weights).
#[local] Abbreviation model_from_list :=
  (Net.model_from_list kmodels_model_from_json load_weights_into).
#[local] Abbreviation model_from_json :=
  (Net.model_from_json kmodels_model_from_json load_weights_into).
#[local] Abbreviation model_to_json :=
  (Net.model_to_json to_json saved_weights).

(** C6 (as amended): [model_from_list] loads from the JSON architecture
    [fnames[0]] and the weights file [fnames[1]] when the list has
    exactly two names, from the pickle [fnames[0]] when it has one name
    or more than two, and raises [IndexError] when it has none;
    [model_to_json] writes the architecture as JSON and, only when a
    [weights_file] is given, the weights to that file, and from the two
    files [model_from_list] rebuilds the model as Keras does from this
    JSON text and these weights; [model_to_pickle] writes the one pickle,
    from which [model_from_list] gets the model back. *)
Theorem model_interchange_dispatch (fs : gmap string file)
    (fnames : Net.Fnames) (compile : bool) :
  (length (Net.as_list fnames) = 2%nat ->
     exists json_file weights_file,
       Net.as_list fnames = [json_file; weights_file] /\
       model_from_list fs fnames compile
       = model_from_json fs json_file (Some weights_file) compile) /\
  (length (Net.as_list fnames) ≠ 2%nat ->
     forall pickle_file rest,
       Net.as_list fnames = pickle_file :: rest ->
       model_from_list fs fnames compile
       = Net.model_from_pickle fs pickle_file) /\
  (Net.as_list fnames = [] ->
     model_from_list fs fnames compile = Raise IndexError) /\
  (forall model json_file,
     model_to_json fs model json_file None
     = <[json_file := Net.TextFile (to_json model)]> fs /\
     forall weights_file,
       model_to_json fs model json_file (Some weights_file)
       = <[weights_file := Net.Hdf5File (saved_weights model)]>
           (<[json_file := Net.TextFile (to_json model)]> fs)) /\
  (forall model path,
     Net.model_to_pickle fs model path = <[path := Net.PickleFile model]> fs /\
     model_from_list (Net.model_to_pickle fs model path) (Net.FnList [path])
       compile = Ok model) /\
  (forall model json_file weights_file,
     json_file ≠ weights_file ->
     model_from_list
       (model_to_json fs model json_file (Some weights_file))
       (Net.FnList [json_file; weights_file]) compile
     = (loaded ← kmodels_model_from_json (to_json model) compile;
        load_weights_into loaded (saved_weights model))).
Proof.
  split_and!.
  - intros Hlen. unfold Net.model_from_list. rewrite Hlen.
    destruct (Net.as_list fnames) as [|f0 [|f1 [|]]]; try done.
    by exists f0, f1.
  - intros Hlen f0 rest Heq. unfold Net.model_from_list. rewrite Heq in *.
    apply Nat.eqb_neq in Hlen. by rewrite Hlen.
  - intros Heq. unfold Net.model_from_list. by rewrite Heq.
  - done.
  - intros model path. split; [done|].
    unfold Net.model_from_list, Net.model_from_pickle, Net.model_to_pickle.
    cbn. by rewrite lookup_insert_eq.
  - intros model json_file weights_file Hne.
    unfold Net.model_from_list, Net.model_from_json, Net.model_to_json,
      Net.read_text, Net.load_weights.
    cbn [Net.as_list length Nat.eqb index lookup list_lookup mbind result_bind].
    rewrite (lookup_insert_ne _ weights_file json_file)
      by (intros Heq; apply Hne; symmetry; exact Heq).
    rewrite !lookup_insert_eq. cbn [mbind result_bind].
    destruct (kmodels_model_from_json (to_json model) compile) as [loaded|];
      cbn [mbind result_bind]; [|done].
    by destruct (load_weights_into loaded (saved_weights model)).
Qed.
End InterchangeProps.

(** With one name the pickle is read, with two the JSON file and the
    weights file. *)
Lemma model_interchange_dispatch_witness :
  length (Net.as_list (Net.FnList ["model.json"; "weights.h5"])) = 2%nat /\
  Net.model_from_list (fun _ _ => Ok tt) (fun m _ => Ok m)
    {["model.json" := Net.TextFile "{}"; "weights.h5" := Net.Hdf5File tt]}
    (Net.FnList ["model.json"; "weights.h5"]) false = Ok tt.
Proof.
  split; [reflexivity|].
  destruct (model_interchange_dispatch (fun _ : unit => "{}")
              (fun _ _ => Ok tt) (fun _ : unit => tt) (fun m _ => Ok m)
              {["model.json" := Net.TextFile "{}";
                "weights.h5" := Net.Hdf5File tt]}
              (Net.FnList ["model.json"; "weights.h5"]) false)
    as (Htwo & _).
  destruct (Htwo eq_refl) as (j & w & Heq & ->).
  injection Heq as <- <-. reflexivity.
Defined.

(** [model_to_json] without a [weights_file] (as [main] calls it) leaves
    the JSON file and nothing else; and no name at all loads nothing. *)
Lemma model_to_json_default_writes_no_weights :
  dom (Net.model_to_json (Model := unit) (Weights := unit)
         (fun _ => "{}") (fun _ => tt) ∅ tt "model.json" None)
    = {["model.json"]} /\
  Net.model_from_list (Model := unit) (Weights := unit)
    (fun _ _ => Ok tt) (fun m _ => Ok m) ∅ (Net.FnList []) false
    = Raise IndexError.
Proof.
  split; [|reflexivity].
  unfold Net.model_to_json. rewrite insert_empty. apply dom_singleton_L.
Qed.

(** ** [eval_io] *)

Section EvalIOProps.
Context {Frame : Type}.
Variable MASK : Q.
Variable evaluate_all :
  list (string * Train.ndarray Q) -> list (string * list pyfloat) ->
  Train.eval_funs -> option Q -> Frame.
Variable index_by_target : Frame -> list string -> Frame.
Variable to_string : Frame -> string.

#[local] Abbreviation is_cla :=
  (fun kv : string * string => Train.contains "binary_crossentropy" kv.2).

Lemma split_outputs_loop (l : list (string * string)) cla0 reg0 :
  foldl (fun '(cla, reg) '(k, v) =>
           if Train.contains "binary_crossentropy" v
           then (cla ++ [k], reg)
           else (cla, reg ++ [k]))
        (cla0, reg0) l
  = (cla0 ++ (List.filter is_cla l).*1,
     reg0 ++ (List.filter (fun kv => negb (is_cla kv)) l).*1).
Proof.
  revert cla0 reg0. induction l as [|[k v] l IH]; intros cla0 reg0; cbn.
  - by rewrite !app_nil_r.
  - destruct (Train.contains _ v); cbn; rewrite IH;
      by rewrite <- ?app_assoc.
Qed.

Lemma filter_split_perm (l : list (string * string)) :
  (List.filter is_cla l).*1 ++ (List.filter (fun kv => negb (is_cla kv)) l).*1
  ≡ₚ l.*1.
Proof.
  induction l as [|[k v] l IH]; cbn; [done|].
  destruct (Train.contains _ v); cbn.
  - by rewrite IH.
  - rewrite <- Permutation_middle. by rewrite IH.
Qed.

(** A dictionary comprehension over distinct keys that are all there:
    the items of the keys, in their order. *)
Lemma restrict_items {A} (lookup : string -> option A)
    (get : string -> result A) (ks : list string) :
  (forall k, get k = match lookup k with
                     | Some v => Ok v
                     | None => Raise (KeyError k)
                     end) ->
  NoDup ks -> (forall k, k ∈ ks -> is_Some (lookup k)) ->
  forall made, (forall k, k ∈ ks -> k ∉ made.*1) ->
    Train.restrict get ks made = Ok (made ++ group_items lookup ks).
Proof.
  intros Hget. induction ks as [|k ks IH]; intros Hnd Hks made Hnew;
    cbn [Train.restrict group_items omap].
  - by rewrite app_nil_r.
  - apply NoDup_cons in Hnd as [Hk Hnd].
    destruct (Hks k) as [v Hv]; [by left|].
    rewrite Hget, Hv. cbn [mbind result_bind fmap option_fmap option_map].
    rewrite bool_decide_eq_false_2 by (apply Hnew; by left).
    rewrite IH; [| done | by intros k' Hk'; apply Hks; right |].
    + rewrite <- app_assoc. unfold group_items. cbn [omap list_omap].
      by rewrite Hv.
    + intros k' Hk'. rewrite fmap_app, elem_of_app. cbn.
      intros [Hin|Hin%list_elem_of_singleton].
      * by apply (Hnew k'); [right|].
      * by subst.
Qed.

(** C7 (as amended): when the first array of predictions, in the order
    of the dictionary [z], holds a not-a-number, [eval_io] returns
    without evaluating or writing anything.  Otherwise the outputs of
    [model.loss] whose loss contains ['binary_crossentropy'] form the
    classification group and all the others the regression group, each
    in the order of [model.loss], the two groups together being the
    outputs, each once; a group that is
    not empty is evaluated ([ev.eval_funs] with the mask for
    classification, [ev.eval_funs_regress] without mask for
    regression) and written to [<out_base>_cla.csv], respectively
    [<out_base>_reg.csv]. *)
Theorem eval_io_groups (loss : odict string)
    (y : gmap string (Train.ndarray Q)) (z : odict (list pyfloat))
    (out_base : string) (targets : list string) :
  exists cla reg,
    Train.split_outputs (items loss) = (cla, reg) /\
    cla = (List.filter
             (fun kv => Train.contains "binary_crossentropy" kv.2)
             (items loss)).*1 /\
    reg = (List.filter
             (fun kv => negb (Train.contains "binary_crossentropy" kv.2))
             (items loss)).*1 /\
    cla ++ reg ≡ₚ (items loss).*1 /\
    (forall k, k ∈ cla <->
       exists v, loss !! k = Some v /\
                 Train.contains "binary_crossentropy" v = true) /\
    (forall k, k ∈ reg <->
       exists v, loss !! k = Some v /\
                 Train.contains "binary_crossentropy" v = false) /\
    (items z = [] ->
     Train.eval_io MASK evaluate_all index_by_target to_string
       loss y z out_base targets = Raise IndexError) /\
    forall z0, (items z).*2 !! 0%nat = Some z0 ->
      (existsb Train.isnan z0 = true ->
         Train.eval_io MASK evaluate_all index_by_target to_string
           loss y z out_base targets = Ok []) /\
      (existsb Train.isnan z0 = false ->
       (forall k, is_Some (loss !! k) ->
                  is_Some (y !! k) /\ is_Some (z !! k)) ->
         Train.eval_io MASK evaluate_all index_by_target to_string
           loss y z out_base targets
         = Ok ([Train.WriteZ (out_base +:+ "_z.h5")]
               ++ group_report evaluate_all index_by_target to_string y z out_base targets cla Train.EvalFuns
                    (Some MASK) "Classification:" "_cla.csv"
               ++ group_report evaluate_all index_by_target to_string y z out_base targets reg
                    Train.EvalFunsRegress None "Regression:" "_reg.csv")).
Proof.
  set (l := items loss).
  set (cla := (List.filter is_cla l).*1).
  set (reg := (List.filter (fun kv => negb (is_cla kv)) l).*1).
  assert (Hsplit : Train.split_outputs l = (cla, reg)).
  { unfold Train.split_outputs. by rewrite split_outputs_loop. }
  assert (Hmem : forall (P : string * string -> bool) k,
    k ∈ (List.filter P l).*1 <-> exists v, loss !! k = Some v /\ P (k, v) = true).
  { intros P k. rewrite list_elem_of_fmap. split.
    - intros ([k' v] & -> & Hin). apply list_elem_of_In, filter_In in Hin.
      destruct Hin as [Hin HP]. apply list_elem_of_In in Hin.
      apply odict_lookup_Some in Hin. by exists v.
    - intros (v & Hv & HP). exists (k, v). split; [done|].
      apply list_elem_of_In, filter_In. split; [|done].
      apply list_elem_of_In. by apply odict_lookup_Some. }
  assert (Hperm : cla ++ reg ≡ₚ l.*1) by apply filter_split_perm.
  assert (Hnd : NoDup (cla ++ reg)).
  { rewrite Hperm. apply odict_NoDup. }
  exists cla, reg. split_and!.
  - done.
  - done.
  - done.
  - done.
  - intros k. apply (Hmem is_cla).
  - intros k. unfold reg. rewrite Hmem. cbn.
    by setoid_rewrite negb_true_iff.
  - intros Hz. unfold Train.eval_io. by rewrite Hz.
  - intros z0 Hz0. unfold Train.eval_io, index. rewrite Hz0.
    cbn [mbind result_bind]. split.
    + by intros ->.
    + intros -> Hkeys. fold l. rewrite Hsplit.
      assert (Hin : forall ks, ks = cla \/ ks = reg ->
        NoDup ks /\
        forall k, k ∈ ks -> is_Some (y !! k) /\ is_Some (z !! k)).
      { intros ks Hks. split.
        - apply NoDup_app in Hnd as (? & _ & ?). by destruct Hks as [-> | ->].
        - intros k Hk. apply Hkeys. destruct Hks as [-> | ->].
          + apply (Hmem is_cla) in Hk as (v & -> & _). by eexists.
          + apply Hmem in Hk as (v & -> & _). by eexists. }
      assert (Hgroup : forall ks funs mask title suffix
                         (trace : list (Train.event (Frame := Frame))),
        ks = cla \/ ks = reg ->
        (if negb (length ks =? 0)%nat
         then
           ys ← Train.restrict (Train.getitem y) ks [];
           zs ← Train.restrict (od_getitem z) ks [];
           let e := Train.evaluate evaluate_all index_by_target ys zs
                      targets funs mask in
           Ok (trace ++ [Train.PrintOut title; Train.PrintOut (to_string e);
                         Train.EvalToFile e (Train.out_name out_base suffix)])
         else Ok trace)
        = Ok (trace ++ group_report evaluate_all index_by_target to_string y z out_base targets ks funs mask
                         title suffix)).
      { intros ks funs mask title suffix trace Hks.
        destruct (Hin ks Hks) as [Hndk Hall].
        destruct ks as [|k ks'] eqn:Heq; cbn [length Nat.eqb negb].
        - by rewrite app_nil_r.
        - rewrite <- Heq in *.
          rewrite (restrict_items (fun k => y !! k) (Train.getitem y) ks);
            [| done | done | by intros k' Hk'; apply Hall | by intros ? ? ?%elem_of_nil].
          rewrite (restrict_items (fun k => z !! k) (od_getitem z) ks);
            [| done | done | by intros k' Hk'; apply Hall | by intros ? ? ?%elem_of_nil].
          cbn [mbind result_bind app]. unfold group_report. by rewrite Heq. }
      rewrite (Hgroup cla) by by left. cbn [mbind result_bind].
      rewrite (Hgroup reg) by by right. cbn [mbind result_bind].
      by rewrite <- app_assoc.
Qed.
End EvalIOProps.

(** A run in which only the second array of predictions holds a
    not-a-number: both groups are evaluated, the classification output
    into ["val_cla.csv"] and the regression output into
    ["val_reg.csv"].  The frame of an evaluation is taken to be the
    names it was given. *)
Lemma eval_io_groups_witness :
  (items ex_z).*2 !! 0%nat
    = Some [Finite 0.9; Finite 0.5; Finite 0.1; Finite 0.5] /\
  Train.eval_io (Frame := list string) (-1) (fun ys zs _ _ => zs.*1)
    (fun e _ => e) (String.concat ",") ex_loss ex_y ex_z "val" ["c"; "s"]
  = Ok [Train.WriteZ "val_z.h5"; Train.PrintOut "Classification:";
        Train.PrintOut "c_y"; Train.EvalToFile ["c_y"] "val_cla.csv";
        Train.PrintOut "Regression:";
        Train.PrintOut "s_y"; Train.EvalToFile ["s_y"] "val_reg.csv"].
Proof.
  assert (Hz0 : (items ex_z).*2 !! 0%nat
                = Some [Finite 0.9; Finite 0.5; Finite 0.1; Finite 0.5])
    by reflexivity.
  split; [exact Hz0|].
  destruct (eval_io_groups (Frame := list string) (-1) (fun ys zs _ _ => zs.*1)
              (fun e _ => e) (String.concat ",") ex_loss ex_y ex_z "val"
              ["c"; "s"])
    as (cla & reg & Hsplit & _ & _ & _ & _ & _ & _ & Hrun).
  destruct (Hrun _ Hz0) as [_ Hok]. rewrite Hok.
  - vm_compute in Hsplit. injection Hsplit as <- <-. vm_compute. reflexivity.
  - reflexivity.
  - intros k [v Hk%odict_lookup_Some].
    assert (k = "c_y" \/ k = "s_y") as [-> | ->].
    { cbn in Hk. apply elem_of_cons in Hk as [[= -> _]|Hk]; [by left|].
      apply list_elem_of_singleton in Hk as [= -> _]. by right. }
    + split; [by vm_compute; eexists | by vm_compute; eexists].
    + split; [by vm_compute; eexists | by vm_compute; eexists].
Defined.

(** The same predictions with the array that holds a not-a-number
    inserted first: [eval_io] stops before anything is evaluated,
    although ["c_y"] has a cross-entropy loss and none of its
    predictions is not-a-number. *)
Lemma eval_io_nan_evaluates_nothing :
  Train.eval_io (Frame := list string) (-1) (fun ys zs _ _ => zs.*1)
    (fun e _ => e) (String.concat ",") ex_loss ex_y ex_z_nan_first "val"
    ["c"; "s"]
  = Ok [].
Proof. vm_compute. reflexivity. Qed.

(** ** The layer lists: [seq_layers], [cpg_layers], [joint_layers],
       [target_layers] *)

Lemma seq_conv_loop_conv_loop params w_reg ls layers :
  Net.seq_conv_loop params w_reg ls layers
  = conv_loop (fun nf fl => Net.Convolution1D nf fl (Net.activation params)
                              "glorot_uniform" w_reg "same")
      Net.MaxPooling1D params ls layers.
Proof.
  revert layers. induction ls as [|l ls IH]; intros layers; [done|].
  cbn [Net.seq_conv_loop conv_loop].
  destruct (index (Net.nb_filter params) l); [|done].
  destruct (index (Net.filter_len params) l); [|done].
  destruct (index (Net.pool_len params) l); [|done].
  cbn [mbind result_bind]. apply IH.
Qed.

Lemma cpg_conv_loop_conv_loop params w_reg ls layers :
  Net.cpg_conv_loop params w_reg ls layers
  = conv_loop (fun nf fl => Net.Convolution2D nf 1 fl (Net.activation params)
                              "glorot_uniform" w_reg "same")
      (fun pl => Net.MaxPooling2D (1, pl)) params ls layers.
Proof.
  revert layers. induction ls as [|l ls IH]; intros layers; [done|].
  cbn [Net.cpg_conv_loop conv_loop].
  destruct (index (Net.nb_filter params) l); [|done].
  destruct (index (Net.filter_len params) l); [|done].
  destruct (index (Net.pool_len params) l); [|done].
  cbn [mbind result_bind]. apply IH.
Qed.

Lemma index_Ok {A} (xs : list A) i x : index xs i = Ok x <-> xs !! i = Some x.
Proof. unfold index. destruct (xs !! i); split; congruence. Qed.

Lemma index_is_Ok {A} (xs : list A) i :
  is_Ok (index xs i) <-> (i < length xs)%nat.
Proof.
  unfold is_Ok, index. rewrite <- lookup_lt_is_Some.
  destruct (xs !! i) as [x|].
  - split; intros _; by eexists.
  - split; [by intros [? [=]] | by intros [? [=]]].
Qed.

(** The loop over [seq start n] appends two layers for each index. *)
Lemma conv_loop_blocks conv pool params (n : nat) :
  forall start layers out,
    conv_loop conv pool params (seq start n) layers = Ok out ->
    exists blocks,
      out = layers ++ blocks /\ length blocks = (2 * n)%nat /\
      forall j, (j < n)%nat ->
        exists nf fl pl,
          Net.nb_filter params !! (start + j)%nat = Some nf /\
          Net.filter_len params !! (start + j)%nat = Some fl /\
          Net.pool_len params !! (start + j)%nat = Some pl /\
          blocks !! (2 * j)%nat
            = Some (fmt_d "c" (start + j + 1), conv nf fl) /\
          blocks !! (2 * j + 1)%nat
            = Some (fmt_d "p" (start + j + 1), pool pl).
Proof.
  induction n as [|n IH]; intros start layers out; cbn [seq conv_loop].
  - intros [= <-]. exists []. rewrite app_nil_r. split_and!; try done. lia.
  - destruct (index (Net.nb_filter params) start) as [nf|] eqn:Hnf; [|done].
    destruct (index (Net.filter_len params) start) as [fl|] eqn:Hfl; [|done].
    destruct (index (Net.pool_len params) start) as [pl|] eqn:Hpl; [|done].
    cbn [mbind result_bind]. intros Hrun.
    apply IH in Hrun as (blocks & -> & Hlen & Hblocks).
    apply index_Ok in Hnf, Hfl, Hpl.
    exists ((fmt_d "c" (start + 1), conv nf fl)
              :: (fmt_d "p" (start + 1), pool pl) :: blocks).
    split_and!.
    + by rewrite <- !app_assoc.
    + cbn [length]. lia.
    + intros [|j] Hj.
      * exists nf, fl, pl. rewrite !Nat.add_0_r. by split_and!.
      * destruct (Hblocks j) as (nf' & fl' & pl' & ? & ? & ? & Hc & Hp); [lia|].
        exists nf', fl', pl'.
        replace (start + S j)%nat with (S start + j)%nat by lia.
        split_and!; try done.
        -- by replace (2 * S j)%nat with (S (S (2 * j))) by lia.
        -- by replace (2 * S j + 1)%nat with (S (S (2 * j + 1))) by lia.
Qed.

Lemma conv_loop_total conv pool params (n : nat) :
  forall start layers,
    (start + n <= length (Net.nb_filter params))%nat ->
    lists_parallel params ->
    is_Ok (conv_loop conv pool params (seq start n) layers).
Proof.
  induction n as [|n IH]; intros start layers Hn [Hfl Hpl]; cbn [seq conv_loop].
  - by eexists.
  - destruct (proj2 (index_is_Ok (Net.nb_filter params) start)) as [nf ->]; [lia|].
    destruct (proj2 (index_is_Ok (Net.filter_len params) start)) as [fl ->]; [lia|].
    destruct (proj2 (index_is_Ok (Net.pool_len params) start)) as [pl ->]; [lia|].
    cbn [mbind result_bind]. apply IH; [lia | done].
Qed.

Lemma conv_branch_layers conv pool params layers0 layers :
  conv_loop conv pool params (seq 0 (length (Net.nb_filter params))) layers0
    = Ok layers ->
  lists_parallel params /\
  exists blocks,
    layers = layers0 ++ blocks /\
    length blocks = (2 * length (Net.nb_filter params))%nat /\
    forall (l : nat) nf, Net.nb_filter params !! l = Some nf ->
      exists fl pl,
        Net.filter_len params !! l = Some fl /\
        Net.pool_len params !! l = Some pl /\
        blocks !! (2 * l)%nat = Some (fmt_d "c" (l + 1), conv nf fl) /\
        blocks !! (2 * l + 1)%nat = Some (fmt_d "p" (l + 1), pool pl).
Proof.
  intros Hrun. apply conv_loop_blocks in Hrun as (blocks & -> & Hlen & Hblocks).
  assert (Hpar : lists_parallel params).
  { split.
    - destruct (length (Net.nb_filter params)) as [|n] eqn:Hn; [lia|].
      destruct (Hblocks n) as (? & fl & ? & _ & Hfl & _); [lia|].
      apply lookup_lt_Some in Hfl. cbn in Hfl. lia.
    - destruct (length (Net.nb_filter params)) as [|n] eqn:Hn; [lia|].
      destruct (Hblocks n) as (? & ? & pl & _ & _ & Hpl & _); [lia|].
      apply lookup_lt_Some in Hpl. cbn in Hpl. lia. }
  split; [done|]. exists blocks. split_and!; try done.
  intros l nf Hnf. destruct (Hblocks l) as (nf' & fl & pl & Hnf' & ? & ? & ? & ?).
  { by apply lookup_lt_Some in Hnf. }
  cbn [Nat.add] in *. rewrite Hnf in Hnf'. injection Hnf' as <-.
  by exists fl, pl.
Qed.

Ltac branch_shape Hrun :=
  let blocks := fresh "blocks" in
  let Hpar := fresh "Hpar" in
  let Hlen := fresh "Hlen" in
  let Hblocks := fresh "Hblocks" in
  apply conv_branch_layers in Hrun as (Hpar & blocks & -> & Hlen & Hblocks);
  cbn [mbind result_bind]; split;
  [ split; [intros _; by eexists | done]
  | intros ? [= <-]; exists blocks; split_and!; [|done|done];
    unfold hidden_head, opt_layer;
    repeat match goal with
           | |- context [if ?b then _ else _] => destruct b
           end;
    cbn [app]; by rewrite <- ?app_assoc ].

Ltac branch_raises Hrun :=
  cbn [mbind result_bind]; split;
  [ split; [|by intros [? [=]]];
    let Hpar := fresh "Hpar" in
    intros Hpar; eapply conv_loop_total in Hpar as [? Hok];
    [rewrite Hrun in Hok; discriminate Hok | cbn; lia]
  | by intros ? [=] ].

Lemma seq_layers_shape sp :
  (lists_parallel sp <-> is_Ok (Net.seq_layers sp)) /\
  forall layers, Net.seq_layers sp = Ok layers ->
    conv_branch_shape
      (fun nf fl =>
         Net.Convolution1D nf fl (Net.activation sp) "glorot_uniform"
           {| Net.reg_l1 := Net.l1 sp; Net.reg_l2 := Net.l2 sp |} "same")
      Net.MaxPooling1D sp layers.
Proof.
  unfold Net.seq_layers, conv_branch_shape.
  rewrite seq_conv_loop_conv_loop.
  destruct (conv_loop _ _ sp _ _) as [out|e] eqn:Hrun.
  - branch_shape Hrun.
  - branch_raises Hrun.
Qed.

Lemma cpg_layers_shape cp :
  (lists_parallel cp <-> is_Ok (Net.cpg_layers cp)) /\
  forall layers, Net.cpg_layers cp = Ok layers ->
    conv_branch_shape
      (fun nf fl =>
         Net.Convolution2D nf 1 fl (Net.activation cp) "glorot_uniform"
           {| Net.reg_l1 := Net.l1 cp; Net.reg_l2 := Net.l2 cp |} "same")
      (fun pl => Net.MaxPooling2D (1, pl)) cp layers.
Proof.
  unfold Net.cpg_layers, conv_branch_shape.
  rewrite cpg_conv_loop_conv_loop.
  destruct (conv_loop _ _ cp _ _) as [out|e] eqn:Hrun.
  - branch_shape Hrun.
  - branch_raises Hrun.
Qed.

Example seq_layers_ex_conv :
  Net.seq_layers ex_conv
  = Ok [("c1", Net.Convolution1D 4 8 "relu" "glorot_uniform"
                 {| Net.reg_l1 := 0; Net.reg_l2 := 0 |} "same");
        ("p1", Net.MaxPooling1D 4);
        ("c2", Net.Convolution1D 8 4 "relu" "glorot_uniform"
                 {| Net.reg_l1 := 0; Net.reg_l2 := 0 |} "same");
        ("p2", Net.MaxPooling1D 2);
        ("f1", Net.Flatten);
        ("f1d", Net.Dropout 0.2);
        ("h1", Net.Dense 32 "linear" "glorot_uniform");
        ("h1a", Net.Activation "relu");
        ("h1d", Net.Dropout 0.2)].
Proof. reflexivity. Qed.

(** A [filter_len] shorter than [nb_filter]: [params.filter_len[l]]
    raises. *)
Example seq_layers_short_filter_len :
  Net.seq_layers
    {| Net.drop_in := 0; Net.nb_filter := [4; 8]; Net.filter_len := [8];
       Net.pool_len := [4; 2]; Net.l1 := 0; Net.l2 := 0;
       Net.activation := "relu"; Net.drop_out := 0;
       Net.nb_hidden := 0; Net.batch_norm := false |}
  = Raise IndexError.
Proof. reflexivity. Qed.


(** ** [add_layers] and [build] *)

Lemma extend_nil model : extend model [] [] = model.
Proof. destruct model. unfold extend. cbn. by rewrite !app_nil_r. Qed.

Lemma extend_extend model ns os ns' os' :
  extend (extend model ns os) ns' os' = extend model (ns ++ ns') (os ++ os').
Proof. unfold extend. cbn. by rewrite !app_assoc. Qed.

Lemma add_node_extend model w name l :
  Net.add_node model w name l
  = extend model [{| Net.node_name := name; Net.node_layer := l;
                     Net.node_wiring := w |}] [].
Proof. unfold Net.add_node, extend. by rewrite app_nil_r. Qed.

Lemma add_output_extend model input name :
  Net.add_output model input name = extend model [] [(name, input)].
Proof. unfold Net.add_output, extend. by rewrite app_nil_r. Qed.

Lemma last_node_cons prefix name l layers :
  last_node prefix ((name, l) :: layers)
  = Some (default (fmt_join prefix name) (last_node prefix layers)).
Proof.
  unfold last_node, Net.named_layer. rewrite last_cons.
  by destruct (last layers).
Qed.

(** From at least one node, [add_layers] adds the chain and returns its
    last node; without layers it gives the nodes back. *)
Lemma add_layers_chain layers :
  forall model prev prefix w,
    wiring_of prev = Some w ->
    Net.add_layers model layers prev prefix
    = Ok (extend model (chain prefix w layers) [],
          match last_node prefix layers with
          | Some n => [n]
          | None => prev
          end).
Proof.
  induction layers as [|[name l] layers IH]; intros model prev prefix w Hw.
  - cbn. by rewrite extend_nil.
  - cbn [Net.add_layers chain]. rewrite last_node_cons.
    assert (Hadd :
      (if (1 <? length prev)%nat
       then Ok (Net.add_node model (Net.FromInputs prev) (fmt_join prefix name) l)
       else p ← index prev 0;
            Ok (Net.add_node model (Net.FromInput p) (fmt_join prefix name) l))
      = Ok (Net.add_node model w (fmt_join prefix name) l)).
    { destruct prev as [|p [|q prev]]; cbn in Hw |- *; congruence. }
    rewrite Hadd. cbn [mbind result_bind].
    rewrite (IH _ _ _ (Net.FromInput (fmt_join prefix name))) by done.
    rewrite add_node_extend, extend_extend. cbn [app].
    by destruct (last_node prefix layers).
Qed.

Lemma add_layers_no_input name l layers model prefix :
  Net.add_layers model ((name, l) :: layers) [] prefix = Raise IndexError.
Proof. reflexivity. Qed.

Lemma target_layers_last params :
  exists hidden,
    Net.target_layers params
      = hidden ++ [("o", Net.Dense 1 "sigmoid" "glorot_uniform")] /\
    hidden = if truthyZ (Net.d_nb_hidden params)
             then hidden_head (Net.d_nb_hidden params) (Net.d_activation params)
                    (Net.d_batch_norm params) (Net.d_drop_out params)
             else [].
Proof.
  eexists. split; [|reflexivity]. unfold Net.target_layers, hidden_head, opt_layer.
  repeat match goal with
         | |- context [if ?b then _ else _] => destruct b
         end; reflexivity.
Qed.

Lemma target_layers_last_node params target :
  last_node target (Net.target_layers params) = Some (fmt_join target "o").
Proof.
  destruct (target_layers_last params) as (hidden & -> & _).
  unfold last_node. by rewrite last_snoc.
Qed.

Lemma build_targets_heads params w branch_nodes targets :
  wiring_of branch_nodes = Some w ->
  forall model outputs,
    Net.build_targets model params branch_nodes targets outputs
    = Ok (extend model (flat_map (head_nodes params w) targets)
                 (head_output <$> targets),
          outputs ++ ((fun t => fmt_join t "y") <$> targets)).
Proof.
  intros Hw. induction targets as [|t targets IH]; intros model outputs.
  - cbn. by rewrite extend_nil, app_nil_r.
  - cbn [Net.build_targets]. rewrite (add_layers_chain _ _ _ _ w) by done.
    cbn [mbind result_bind]. rewrite target_layers_last_node.
    cbn [index lookup list_lookup mbind result_bind].
    rewrite add_output_extend, extend_extend, IH, extend_extend.
    cbn [flat_map fmap list_fmap app]. rewrite app_nil_r.
    unfold head_nodes at 2. by rewrite <- !app_assoc.
Qed.

Lemma build_targets_no_input params t targets model outputs :
  Net.build_targets model params [] (t :: targets) outputs = Raise IndexError.
Proof.
  cbn [Net.build_targets].
  destruct (target_layers_last (Net.target params)) as (hidden & -> & _).
  by destruct hidden as [|[? ?] ?].
Qed.

(** *** The phases of [build] *)

Lemma build_phases params targets seq_len cpg_len compile nb_unit :
  Net.build params targets seq_len cpg_len compile nb_unit
  = ('(model, branch_nodes) ← seq_phase params seq_len Net.new_graph [];
     '(model, branch_nodes) ←
       cpg_phase params targets cpg_len nb_unit model branch_nodes;
     '(model, branch_nodes) ← joint_phase params model branch_nodes;
     '(model, outputs) ←
       Net.build_targets model params branch_nodes targets [];
     Ok (compile_phase params compile model)).
Proof. reflexivity. Qed.

Lemma conv_branch_shape_last conv pool p layers prefix :
  conv_branch_shape conv pool p layers -> is_Some (last_node prefix layers).
Proof.
  intros (blocks & -> & _). unfold last_node.
  apply fmap_is_Some. rewrite <- not_eq_None_Some, last_None.
  intros H. apply app_eq_nil in H as [_ H]. apply app_eq_nil in H as [_ H].
  done.
Qed.

Lemma seq_phase_inv params seq_len model bn model' bn' :
  seq_phase params seq_len model bn = Ok (model', bn') ->
  exists ns out,
    Net.nodes model' = Net.nodes model ++ ns /\
    Net.outputs model' = Net.outputs model /\
    bn' = bn ++ out /\
    branch_of (Net.seq params) Net.seq_layers "s" "s_x" ns out.
Proof.
  unfold seq_phase, branch_of. destruct (Net.seq params) as [sp|].
  - destruct seq_len as [n|]; [|done]. cbn [Net.assert_not_None mbind result_bind].
    destruct (Net.seq_layers sp) as [layers|] eqn:Hl; [|done].
    cbn [mbind result_bind].
    rewrite (add_layers_chain _ _ _ _ (Net.FromInput "s_x")) by done.
    cbn [mbind result_bind].
    destruct (conv_branch_shape_last _ _ _ _ "s"
                (proj2 (seq_layers_shape sp) _ Hl)) as [last Hlast].
    rewrite Hlast. intros [= <- <-].
    exists (chain "s" (Net.FromInput "s_x") layers), [last].
    split_and!; try done. cbn. by rewrite app_nil_r.
    by exists layers, last.
  - intros [= <- <-]. exists [], []. by rewrite !app_nil_r.
Qed.

Lemma cpg_phase_inv params targets cpg_len nb_unit model bn model' bn' :
  cpg_phase params targets cpg_len nb_unit model bn = Ok (model', bn') ->
  exists ns out,
    Net.nodes model' = Net.nodes model ++ ns /\
    Net.outputs model' = Net.outputs model /\
    bn' = bn ++ out /\
    branch_of (Net.cpg params) Net.cpg_layers "c" "c_x" ns out.
Proof.
  unfold cpg_phase, branch_of. destruct (Net.cpg params) as [cp|].
  - destruct cpg_len as [n|]; [|done]. cbn [Net.assert_not_None mbind result_bind].
    destruct (Net.cpg_layers cp) as [layers|] eqn:Hl; [|done].
    cbn [mbind result_bind].
    rewrite (add_layers_chain _ _ _ _ (Net.FromInput "c_x")) by done.
    cbn [mbind result_bind].
    destruct (conv_branch_shape_last _ _ _ _ "c"
                (proj2 (cpg_layers_shape cp) _ Hl)) as [last Hlast].
    rewrite Hlast. intros [= <- <-].
    exists (chain "c" (Net.FromInput "c_x") layers), [last].
    split_and!; try done. cbn. by rewrite app_nil_r.
    by exists layers, last.
  - intros [= <- <-]. exists [], []. by rewrite !app_nil_r.
Qed.

Lemma joint_layers_head jp :
  Net.joint_layers jp
  = hidden_head (Net.d_nb_hidden jp) (Net.d_activation jp)
      (Net.d_batch_norm jp) (Net.d_drop_out jp).
Proof.
  unfold Net.joint_layers, hidden_head, opt_layer.
  by destruct (Net.d_batch_norm jp), (truthyQ (Net.d_drop_out jp)).
Qed.

Lemma hidden_head_last prefix nb act bn dr :
  is_Some (last_node prefix (hidden_head nb act bn dr)).
Proof.
  unfold hidden_head, opt_layer. destruct bn, (truthyQ dr); by eexists.
Qed.

Lemma joint_phase_inv params model bn model' bn' :
  joint_phase params model bn = Ok (model', bn') ->
  Net.outputs model' = Net.outputs model /\
  ((joint_enabled params = true /\
    exists jp w last,
      Net.joint params = Some jp /\ wiring_of bn = Some w /\
      Net.nodes model' = Net.nodes model ++ chain "j" w (Net.joint_layers jp) /\
      last_node "j" (Net.joint_layers jp) = Some last /\ bn' = [last]) \/
   (joint_enabled params = false /\ model' = model /\ bn' = bn)).
Proof.
  unfold joint_phase, joint_enabled. destruct (Net.joint params) as [jp|].
  - destruct (0 <? Net.d_nb_hidden jp).
    + destruct (wiring_of bn) as [w|] eqn:Hw.
      * rewrite (add_layers_chain _ _ _ _ w) by done.
        destruct (last_node "j" (Net.joint_layers jp)) as [last|] eqn:Hlast.
        -- intros [= <- <-]. split; [cbn; by rewrite app_nil_r|].
           left. split; [done|]. by exists jp, w, last.
        -- rewrite joint_layers_head in Hlast.
           destruct (hidden_head_last "j" (Net.d_nb_hidden jp)
                       (Net.d_activation jp) (Net.d_batch_norm jp)
                       (Net.d_drop_out jp)) as [? Heq].
           congruence.
      * destruct bn; [|by destruct bn]. by rewrite joint_layers_head.
    + intros [= <- <-]. split; [done|]. by right.
  - intros [= <- <-]. split; [done|]. by right.
Qed.

Lemma build_targets_inv params model bn targets model' outputs :
  Net.build_targets model params bn targets [] = Ok (model', outputs) ->
  Net.outputs model' = Net.outputs model ++ (head_output <$> targets) /\
  outputs = (fun t => fmt_join t "y") <$> targets /\
  ((targets = [] /\ Net.nodes model' = Net.nodes model) \/
   exists w, wiring_of bn = Some w /\
     Net.nodes model'
     = Net.nodes model ++ flat_map (head_nodes params w) targets).
Proof.
  destruct (wiring_of bn) as [w|] eqn:Hw.
  - rewrite (build_targets_heads _ w) by done. intros [= <- <-].
    split_and!; try done. right. by exists w.
  - assert (bn = []) as -> by (destruct bn as [|? []]; done).
    destruct targets as [|t targets].
    + intros [= <- <-]. split_and!; try done; [by rewrite app_nil_r | by left].
    + by rewrite build_targets_no_input.
Qed.

Lemma compile_phase_same params compile model :
  Net.nodes (compile_phase params compile model) = Net.nodes model /\
  Net.outputs (compile_phase params compile model) = Net.outputs model.
Proof. unfold compile_phase. by destruct compile. Qed.

(** What [build] returns, phase by phase. *)
Lemma build_inv params targets seq_len cpg_len compile nb_unit model :
  Net.build params targets seq_len cpg_len compile nb_unit = Ok model ->
  exists s_nodes s_out c_nodes c_out j_nodes heads_from heads,
    branch_of (Net.seq params) Net.seq_layers "s" "s_x" s_nodes s_out /\
    branch_of (Net.cpg params) Net.cpg_layers "c" "c_x" c_nodes c_out /\
    ((joint_enabled params = true /\
      exists jp w last,
        Net.joint params = Some jp /\ wiring_of (s_out ++ c_out) = Some w /\
        j_nodes = chain "j" w (Net.joint_layers jp) /\
        last_node "j" (Net.joint_layers jp) = Some last /\
        heads_from = [last]) \/
     (joint_enabled params = false /\ j_nodes = [] /\
      heads_from = s_out ++ c_out)) /\
    ((targets = [] /\ heads = []) \/
     exists w, wiring_of heads_from = Some w /\
               heads = flat_map (head_nodes params w) targets) /\
    Net.nodes model = s_nodes ++ c_nodes ++ j_nodes ++ heads /\
    Net.outputs model = head_output <$> targets.
Proof.
  rewrite build_phases. intros Hb.
  destruct (seq_phase _ _ _ _) as [[m1 bn1]|] eqn:H1; [|done].
  cbn [mbind result_bind] in Hb.
  destruct (cpg_phase _ _ _ _ _ _) as [[m2 bn2]|] eqn:H2; [|done].
  cbn [mbind result_bind] in Hb.
  destruct (joint_phase _ _ _) as [[m3 bn3]|] eqn:H3; [|done].
  cbn [mbind result_bind] in Hb.
  destruct (Net.build_targets _ _ _ _ _) as [[m4 outs]|] eqn:H4; [|done].
  cbn [mbind result_bind] in Hb. injection Hb as <-.
  apply seq_phase_inv in H1 as (s_nodes & s_out & Hn1 & Ho1 & -> & Hs).
  apply cpg_phase_inv in H2 as (c_nodes & c_out & Hn2 & Ho2 & -> & Hc).
  apply joint_phase_inv in H3 as (Ho3 & Hj).
  apply build_targets_inv in H4 as (Ho4 & _ & Ht).
  destruct (compile_phase_same params compile m4) as [-> ->].
  cbn [Net.new_graph Net.nodes Net.outputs app] in *.
  assert (Hout : Net.outputs m4 = head_output <$> targets).
  { by rewrite Ho4, Ho3, Ho2, Ho1. }
  destruct Hj as [(Hon & jp & w & last & Hjp & Hw & Hn3 & Hlast & ->)
                 |(Hoff & -> & ->)].
  - destruct Ht as [[-> Hn4]|(w' & Hw' & Hn4)].
    + exists s_nodes, s_out, c_nodes, c_out,
        (chain "j" w (Net.joint_layers jp)), [last], [].
      split_and!; try done.
      * left. split; [done|]. by exists jp, w, last.
      * by left.
      * by rewrite Hn4, Hn3, Hn2, Hn1, app_nil_r, <- !app_assoc.
    + exists s_nodes, s_out, c_nodes, c_out,
        (chain "j" w (Net.joint_layers jp)), [last],
        (flat_map (head_nodes params w') targets).
      split_and!; try done.
      * left. split; [done|]. by exists jp, w, last.
      * right. by exists w'.
      * by rewrite Hn4, Hn3, Hn2, Hn1, <- !app_assoc.
  - destruct Ht as [[-> Hn4]|(w' & Hw' & Hn4)].
    + exists s_nodes, s_out, c_nodes, c_out, [], (s_out ++ c_out), [].
      split_and!; try done.
      * by right.
      * by left.
      * by rewrite Hn4, Hn2, Hn1, !app_nil_r.
    + exists s_nodes, s_out, c_nodes, c_out, [], (s_out ++ c_out),
        (flat_map (head_nodes params w') targets).
      split_and!; try done.
      * by right.
      * right. by exists w'.
      * by rewrite Hn4, Hn2, Hn1, <- !app_assoc.
Qed.

(** With [build_ready], [build] returns. *)
Lemma build_total params targets seq_len cpg_len compile nb_unit :
  build_ready params seq_len cpg_len ->
  is_Ok (Net.build params targets seq_len cpg_len compile nb_unit).
Proof.
  intros (Hseq & Hcpg & Hany). rewrite build_phases.
  assert (H1 : exists m1 bn1,
    seq_phase params seq_len Net.new_graph [] = Ok (m1, bn1) /\
    (is_Some (Net.seq params) -> bn1 ≠ [])).
  { unfold seq_phase. destruct (Net.seq params) as [sp|] eqn:Hsp.
    - destruct (Hseq sp eq_refl) as [[n ->] Hpar].
      apply seq_layers_shape in Hpar as [layers Hl]. rewrite Hl.
      cbn [Net.assert_not_None mbind result_bind].
      rewrite (add_layers_chain _ _ _ _ (Net.FromInput "s_x")) by done.
      cbn [mbind result_bind]. do 2 eexists. split; [done|].
      intros _. by destruct (last_node "s" layers).
    - do 2 eexists. split; [done|]. by intros [? [=]]. }
  destruct H1 as (m1 & bn1 & -> & Hbn1). cbn [mbind result_bind].
  assert (H2 : exists m2 bn2,
    cpg_phase params targets cpg_len nb_unit m1 bn1 = Ok (m2, bn2) /\
    bn2 ≠ []).
  { unfold cpg_phase. destruct (Net.cpg params) as [cp|] eqn:Hcp.
    - destruct (Hcpg cp eq_refl) as [[n ->] Hpar].
      apply cpg_layers_shape in Hpar as [layers Hl]. rewrite Hl.
      cbn [Net.assert_not_None mbind result_bind].
      rewrite (add_layers_chain _ _ _ _ (Net.FromInput "c_x")) by done.
      cbn [mbind result_bind]. do 2 eexists. split; [done|].
      intros [_ H]%app_eq_nil. by destruct (last_node "c" layers).
    - do 2 eexists. split; [done|]. apply Hbn1.
      destruct Hany as [?|[? [=]]]; done. }
  destruct H2 as (m2 & bn2 & -> & Hbn2). cbn [mbind result_bind].
  assert (Hw : forall bn : list string, bn ≠ [] -> is_Some (wiring_of bn)).
  { intros [|? [|? ?]] ?; [done| |]; by eexists. }
  assert (H3 : exists m3 bn3,
    joint_phase params m2 bn2 = Ok (m3, bn3) /\ bn3 ≠ []).
  { unfold joint_phase. destruct (Net.joint params) as [jp|].
    - destruct (0 <? Net.d_nb_hidden jp).
      + destruct (Hw bn2 Hbn2) as [w Hw2].
        rewrite (add_layers_chain _ _ _ _ w) by done.
        do 2 eexists. split; [done|].
        rewrite joint_layers_head.
        by destruct (hidden_head_last "j" (Net.d_nb_hidden jp)
                       (Net.d_activation jp) (Net.d_batch_norm jp)
                       (Net.d_drop_out jp)) as [? ->].
      + by do 2 eexists.
    - by do 2 eexists. }
  destruct H3 as (m3 & bn3 & -> & Hbn3). cbn [mbind result_bind].
  destruct (Hw bn3 Hbn3) as [w Hw3].
  rewrite (build_targets_heads _ w) by done. cbn [mbind result_bind].
  by eexists.
Qed.

Lemma ex_conv_parallel : lists_parallel ex_conv.
Proof. split; cbn; lia. Qed.

Lemma ex_params_ready : build_ready ex_params (Some 501) (Some 25).
Proof.
  split_and!.
  - intros sp [= <-]. split; [by eexists | apply ex_conv_parallel].
  - intros cp [= <-]. split; [by eexists | apply ex_conv_parallel].
  - left. by eexists.
Qed.


Example build_ex_params_nodes :
  (fun m => (Net.node_name <$> Net.nodes m, Net.outputs m))
    <$> (match Net.build ex_params ["u0"; "u1"] (Some 501) (Some 25) false None
         with Ok m => Some m | Raise _ => None end)
  = Some (["s_c1"; "s_p1"; "s_c2"; "s_p2"; "s_f1"; "s_f1d"; "s_h1"; "s_h1a";
           "s_h1d"; "c_c1"; "c_p1"; "c_c2"; "c_p2"; "c_f1"; "c_f1d"; "c_h1";
           "c_h1a"; "c_h1d"; "j_h1"; "j_h1b"; "j_h1a"; "u0_h1"; "u0_h1b";
           "u0_h1a"; "u0_o"; "u1_h1"; "u1_h1b"; "u1_h1a"; "u1_o"],
          [("u0_y", "u0_o"); ("u1_y", "u1_o")]).
Proof. reflexivity. Qed.

(** Without any branch there is no node to hang a head on. *)
Example build_no_branch :
  Net.build {| Net.seq := None; Net.cpg := None; Net.joint := None;
               Net.target := ex_dense; Net.p_optimizer := "adam";
               Net.p_optimizer_params := []; Net.p_loss := None |}
    ["u0"] None None false None
  = Raise IndexError.
Proof. reflexivity. Qed.

(** C2: for every target [build] attaches the head made by
    [target_layers (params.target)], which holds the hidden layer ['h1']
    exactly when [nb_hidden] is truthy and always ends with the [Dense]
    layer of output dimension 1 and sigmoid activation; and it registers
    one output per target, named ['<target>_y'] and fed by the last node
    of that head, so there are as many outputs as targets. *)
Theorem target_heads (params : Net.Params) (targets : list string)
    (seq_len cpg_len : option Z) (compile : bool) (nb_unit : option Z) :
  (build_ready params seq_len cpg_len ->
   is_Ok (Net.build params targets seq_len cpg_len compile nb_unit)) /\
  (exists hidden,
     Net.target_layers (Net.target params)
       = hidden ++ [("o", Net.Dense 1 "sigmoid" "glorot_uniform")] /\
     hidden = (if truthyZ (Net.d_nb_hidden (Net.target params))
               then hidden_head (Net.d_nb_hidden (Net.target params))
                      (Net.d_activation (Net.target params))
                      (Net.d_batch_norm (Net.target params))
                      (Net.d_drop_out (Net.target params))
               else []) /\
     ("h1" ∈ (Net.target_layers (Net.target params)).*1
      <-> truthyZ (Net.d_nb_hidden (Net.target params)) = true)) /\
  forall model,
    Net.build params targets seq_len cpg_len compile nb_unit = Ok model ->
    Net.outputs model
      = (fun t => (fmt_join t "y", fmt_join t "o")) <$> targets /\
    Net.output_order model = (fun t => fmt_join t "y") <$> targets /\
    length (Net.output_order model) = length targets /\
    (targets = [] \/
     exists before w,
       Net.nodes model
       = before ++ flat_map
                     (fun t => chain t w (Net.target_layers (Net.target params)))
                     targets).
Proof.
  split_and!.
  - apply build_total.
  - destruct (target_layers_last (Net.target params)) as (hidden & Heq & Hh).
    exists hidden. split_and!; try done. rewrite Heq, Hh.
    unfold hidden_head, opt_layer.
    destruct (truthyZ _); [|split; [|done]].
    + split; [done|]. intros _. cbn. by left.
    + cbn. by intros ?%list_elem_of_singleton.
  - intros model Hb.
    apply build_inv in Hb
      as (s_nodes & s_out & c_nodes & c_out & j_nodes & heads_from & heads
          & _ & _ & _ & Hheads & Hnodes & Hout).
    assert (Horder : Net.output_order model = (fun t => fmt_join t "y") <$> targets).
    { unfold Net.output_order. rewrite Hout, <- list_fmap_compose. done. }
    split_and!; try done.
    + by rewrite Horder, length_fmap.
    + destruct Hheads as [[-> _]|(w & _ & ->)]; [by left|]. right.
      exists (s_nodes ++ c_nodes ++ j_nodes), w.
      rewrite Hnodes. by rewrite <- !app_assoc.
Qed.

Lemma target_heads_witness :
  build_ready ex_params (Some 501) (Some 25) /\
  is_Ok (Net.build ex_params ["u0"; "u1"] (Some 501) (Some 25) true None).
Proof.
  split; [apply ex_params_ready|].
  apply (proj1 (target_heads ex_params ["u0"; "u1"] (Some 501) (Some 25)
                  true None)).
  apply ex_params_ready.
Defined.

(** C8: [build] adds the joint branch (the layers of [joint_layers] under
    the prefix ['j']) exactly when [params.joint] is there and its
    [nb_hidden] is positive.  Then the dense layer ['j_h1'] is fed by all
    branch outputs, that is the last node of the sequence branch and the
    last node of the CpG branch, as far as these branches exist, merged
    when both do, and the heads of the targets hang on the last joint
    node.  Otherwise the heads hang on the branch outputs themselves. *)
Theorem joint_branch_merges (params : Net.Params) (targets : list string)
    (seq_len cpg_len : option Z) (compile : bool) (nb_unit : option Z) :
  (build_ready params seq_len cpg_len ->
   is_Ok (Net.build params targets seq_len cpg_len compile nb_unit)) /\
  forall model,
    Net.build params targets seq_len cpg_len compile nb_unit = Ok model ->
    exists s_nodes s_out c_nodes c_out,
      branch_of (Net.seq params) Net.seq_layers "s" "s_x" s_nodes s_out /\
      branch_of (Net.cpg params) Net.cpg_layers "c" "c_x" c_nodes c_out /\
      ((exists jp w rest last,
          Net.joint params = Some jp /\ 0 < Net.d_nb_hidden jp /\
          wiring_of (s_out ++ c_out) = Some w /\
          chain "j" w (Net.joint_layers jp)
            = {| Net.node_name := "j_h1";
                 Net.node_layer :=
                   Net.Dense (Net.d_nb_hidden jp) "linear" "glorot_uniform";
                 Net.node_wiring := w |} :: rest /\
          last_node "j" (Net.joint_layers jp) = Some last /\
          Net.nodes model
          = s_nodes ++ c_nodes ++ chain "j" w (Net.joint_layers jp)
            ++ flat_map (head_nodes params (Net.FromInput last)) targets)
       \/
       ((Net.joint params = None \/
         exists jp, Net.joint params = Some jp /\ Net.d_nb_hidden jp <= 0) /\
        ((targets = [] /\ Net.nodes model = s_nodes ++ c_nodes) \/
         exists w,
           wiring_of (s_out ++ c_out) = Some w /\
           Net.nodes model
           = s_nodes ++ c_nodes ++ flat_map (head_nodes params w) targets))).
Proof.
  split; [apply build_total|]. intros model Hb.
  apply build_inv in Hb
    as (s_nodes & s_out & c_nodes & c_out & j_nodes & heads_from & heads
        & Hs & Hc & Hj & Hheads & Hnodes & _).
  exists s_nodes, s_out, c_nodes, c_out. split_and!; try done.
  unfold joint_enabled in Hj.
  destruct Hj as [(Hon & jp & w & last & Hjp & Hw & -> & Hlast & ->)
                 |(Hoff & -> & ->)].
  - left. rewrite Hjp in Hon. apply Z.ltb_lt in Hon.
    exists jp, w, (chain "j" (Net.FromInput "j_h1")
                     (tail (Net.joint_layers jp))), last.
    split_and!; try done.
    + by rewrite joint_layers_head.
    + rewrite Hnodes. do 3 f_equal.
      destruct Hheads as [[-> ->]|(w' & [= <-] & ->)]; done.
  - right. split.
    + destruct (Net.joint params) as [jp|]; [right|by left].
      exists jp. split; [done|]. apply Z.ltb_ge in Hoff. lia.
    + destruct Hheads as [[-> ->]|(w & Hw & ->)].
      * left. split; [done|]. by rewrite Hnodes, !app_nil_r.
      * right. exists w. split; [done|]. by rewrite Hnodes.
Qed.

Lemma joint_branch_merges_witness :
  build_ready ex_params (Some 501) (Some 25) /\
  is_Ok (Net.build ex_params ["u0"; "u1"] (Some 501) (Some 25) false None).
Proof.
  split; [apply ex_params_ready|].
  apply (proj1 (joint_branch_merges ex_params ["u0"; "u1"] (Some 501)
                  (Some 25) false None)).
  apply ex_params_ready.
Defined.

(** * Further properties *)

(** ** [optimizer_from_config] and [optimizer_from_json] *)

Lemma foldl_insert_lookup {A} (l : list (string * A)) (m : gmap string A) k :
  NoDup l.*1 ->
  foldl (fun (m : gmap string A) kv => <[kv.1 := kv.2]> m) m l !! k
  = match list_to_map (M := gmap string A) l !! k with
    | Some v => Some v
    | None => m !! k
    end.
Proof.
  revert m. induction l as [|[k' v'] l IH]; intros m Hnd; simpl; [done|].
  apply NoDup_cons in Hnd as [Hk' Hnd]. rewrite IH by done.
  destruct (decide (k = k')) as [->|Hne].
  - rewrite lookup_insert_eq.
    rewrite (not_elem_of_list_to_map_1 l k') by done.
    by rewrite lookup_insert_eq.
  - rewrite !lookup_insert_ne by done. done.
Qed.

(** The copy loop of [optimizer_from_config] copies the dictionary. *)
Lemma copy_items (o : gmap string Net.scalar) :
  foldl (fun (m : gmap string Net.scalar) kv => <[kv.1 := kv.2]> m) ∅
        (map_to_list o) = o.
Proof.
  apply map_eq. intros k.
  rewrite foldl_insert_lookup by apply NoDup_fst_map_to_list.
  rewrite list_to_map_to_list, lookup_empty. by destruct (o !! k).
Qed.

Lemma optimizer_from_config_Dict d o :
  d !! "optimizer" = Some (Net.Dict o) ->
  Net.optimizer_from_config (Net.ConfigDict d)
  = match o !! "name" with
    | Some n => Net.Returns {| Net.identifier := n;
                               Net.kwargs := delete "name" o |}
    | None => Net.Raises (Net.Builtin (KeyError "name"))
    end.
Proof.
  intros Hd. unfold Net.optimizer_from_config. rewrite Hd.
  cbv zeta. by rewrite copy_items.
Qed.

(** X1: on a dictionary, [optimizer_from_config] returns exactly when the
    entry ['optimizer'] is a dictionary with the key ['name']; Keras'
    [get] is then handed the value of ['name'] as identifier and the
    other items, never ['name'] itself, as keyword arguments.  Without
    the key ['name'] it raises [KeyError]; an entry ['optimizer'] that
    is missing, or no dictionary, raises [AttributeError]. *)
Theorem optimizer_from_config_dict (d : gmap string Net.entry) :
  (forall og,
     Net.optimizer_from_config (Net.ConfigDict d) = Net.Returns og <->
     exists o, d !! "optimizer" = Some (Net.Dict o) /\
       o !! "name" = Some (Net.identifier og) /\
       Net.kwargs og = delete "name" o) /\
  (forall og,
     Net.optimizer_from_config (Net.ConfigDict d) = Net.Returns og ->
     Net.kwargs og !! "name" = None) /\
  (forall r,
     Net.optimizer_from_config (Net.ConfigDict d) = Net.Raises r <->
     (r = Net.Builtin (KeyError "name") /\
      exists o, d !! "optimizer" = Some (Net.Dict o) /\ o !! "name" = None) \/
     (r = Net.AttributeError "items" /\
      forall o, d !! "optimizer" <> Some (Net.Dict o))).
Proof.
  destruct (d !! "optimizer") as [[v|o]|] eqn:Hd.
  - assert (Hrun : Net.optimizer_from_config (Net.ConfigDict d)
                   = Net.Raises (Net.AttributeError "items")).
    { unfold Net.optimizer_from_config. by rewrite Hd. }
    rewrite Hrun. split_and!.
    + intros og. split; [done|]. by intros (o & [=] & _).
    + done.
    + intros r. split.
      * intros [= <-]. right. split; [done|]. by intros o.
      * intros [[_ (o & [=] & _)]|[-> _]]; done.
  - rewrite (optimizer_from_config_Dict d o Hd).
    destruct (o !! "name") as [n|] eqn:Hn.
    + split_and!.
      * intros [i kw]. cbn. split.
        -- intros [= <- <-]. by exists o.
        -- intros (o' & [= <-] & Hi & ->). rewrite Hn in Hi. by injection Hi as ->.
      * intros og [= <-]. cbn. apply lookup_delete_eq.
      * intros r. split; [done|].
        intros [[_ (o' & [= <-] & Hn')]|[_ Hno]]; [congruence|].
        by destruct (Hno o).
    + split_and!.
      * intros og. split; [done|]. intros (o' & [= <-] & Hi & _). congruence.
      * done.
      * intros r. split.
        -- intros [= <-]. left. split; [done|]. by exists o.
        -- intros [[-> _]|[_ Hno]]; [done|]. by destruct (Hno o).
  - assert (Hrun : Net.optimizer_from_config (Net.ConfigDict d)
                   = Net.Raises (Net.AttributeError "items")).
    { unfold Net.optimizer_from_config. by rewrite Hd. }
    rewrite Hrun. split_and!.
    + intros og. split; [done|]. by intros (o & [=] & _).
    + done.
    + intros r. split.
      * intros [= <-]. right. split; [done|]. by intros o.
      * intros [[_ (o & [=] & _)]|[-> _]]; done.
Qed.

Section CompileStepProps.
Context {Weights : Type}.
Variable kopt_get : Net.OptimizerGet -> Net.Optimizer.
Implicit Types fs : gmap string (@Net.file Net.CpgGraph Weights).

Lemma optimizer_from_json_outcome fs path :
  Net.optimizer_from_json fs path
  = Net.Raises match Net.read_text fs path with
               | Ok _ => Net.AttributeError "get"
               | Raise e => Net.Builtin e
               end.
Proof.
  unfold Net.optimizer_from_json. by destruct (Net.read_text fs path).
Qed.

(** X2: [optimizer_from_json] never returns an optimizer: it hands the
    text of the file, not a dictionary, to [optimizer_from_config], so a
    readable file ends in [AttributeError] (a string has no [get]) and
    an unreadable one in the error of reading it.  Hence the compile
    step of [main], run without a parameter file, returns only when it
    does not compile (no [--compile], and a model that has its loss),
    and then leaves the model as it is; with a parameter file it always
    returns, the model compiled with the optimizer and the loss of the
    parameters whenever [--compile] is given or the model has no
    loss. *)
Theorem optimizer_from_json_never_returns fs (path : string)
    (opts_compile : bool) (opts_model : option (list string))
    (model : Net.CpgGraph) :
  (exists r, Net.optimizer_from_json fs path = Net.Raises r /\
     (is_Ok (Net.read_text fs path) <-> r = Net.AttributeError "get")) /\
  (forall model',
     Train.compile_step kopt_get opts_compile None opts_model fs model
       = Net.Returns model' <->
     opts_compile = false /\ is_Some (Net.loss model) /\ model' = model) /\
  (forall model_params,
     Train.compile_step kopt_get opts_compile (Some model_params) opts_model
       fs model
     = Net.Returns
         (if opts_compile || negb (bool_decide (is_Some (Net.loss model)))
          then Net.compile_graph model
                 (Net.loss_from_ids (Net.output_order model)
                    (Net.p_loss model_params))
                 (Net.optimizer_from_params model_params)
          else model)).
Proof.
  split_and!.
  - rewrite optimizer_from_json_outcome. eexists. split; [done|].
    destruct (Net.read_text fs path).
    + split; [done|]. intros _. by eexists.
    + split; [by intros [? [=]] | done].
  - intros model'. unfold Train.compile_step.
    destruct opts_compile; cbn [orb].
    + split; [|by intros [[=] _]].
      destruct opts_model as [names|]; [|done].
      destruct (index names 0) as [name|]; [|done].
      by rewrite optimizer_from_json_outcome.
    + case_bool_decide as Hloss; cbn [negb].
      * split; [by intros [= <-] | by intros (_ & _ & ->)].
      * split; [|by intros (_ & ? & _)].
        destruct opts_model as [names|]; [|done].
        destruct (index names 0) as [name|]; [|done].
        by rewrite optimizer_from_json_outcome.
  - intros model_params. unfold Train.compile_step.
    by destruct (opts_compile || _).
Qed.
End CompileStepProps.

(** ** [build]: inputs, compilation and errors *)

Lemma conv_loop_raises conv pool params ls :
  forall layers e,
    conv_loop conv pool params ls layers = Raise e -> e = IndexError.
Proof.
  induction ls as [|l ls IH]; intros layers e; cbn [conv_loop]; [done|].
  unfold index.
  destruct (Net.nb_filter params !! l); [|by intros [= <-]].
  destruct (Net.filter_len params !! l); [|by intros [= <-]].
  destruct (Net.pool_len params !! l); [|by intros [= <-]].
  cbn [mbind result_bind]. apply IH.
Qed.

Lemma seq_layers_raises sp e : Net.seq_layers sp = Raise e -> e = IndexError.
Proof.
  unfold Net.seq_layers. rewrite seq_conv_loop_conv_loop.
  destruct (conv_loop _ _ sp _ _) eqn:Hrun; [done|].
  cbn [mbind result_bind]. intros [= <-]. by eapply conv_loop_raises.
Qed.

Lemma cpg_layers_raises cp e : Net.cpg_layers cp = Raise e -> e = IndexError.
Proof.
  unfold Net.cpg_layers. rewrite cpg_conv_loop_conv_loop.
  destruct (conv_loop _ _ cp _ _) eqn:Hrun; [done|].
  cbn [mbind result_bind]. intros [= <-]. by eapply conv_loop_raises.
Qed.

(** [add_layers] adds nodes only, and fails only for want of a node to
    start from. *)
Lemma add_layers_frame layers :
  forall model prev prefix,
    match Net.add_layers model layers prev prefix with
    | Ok (model', _) =>
        Net.inputs model' = Net.inputs model /\
        Net.outputs model' = Net.outputs model /\
        Net.loss model' = Net.loss model /\
        Net.optimizer model' = Net.optimizer model
    | Raise e => e = IndexError
    end.
Proof.
  induction layers as [|[name l] layers IH]; intros model prev prefix;
    cbn [Net.add_layers]; [done|].
  destruct (1 <? length prev)%nat.
  - cbn [mbind result_bind].
    specialize (IH (Net.add_node model (Net.FromInputs prev)
                      (fmt_join prefix name) l) [fmt_join prefix name] prefix).
    by destruct (Net.add_layers _ layers _ _) as [[? ?]|].
  - unfold index. destruct (prev !! 0%nat) as [p|]; [|done].
    cbn [mbind result_bind].
    specialize (IH (Net.add_node model (Net.FromInput p)
                      (fmt_join prefix name) l) [fmt_join prefix name] prefix).
    by destruct (Net.add_layers _ layers _ _) as [[? ?]|].
Qed.

Lemma build_targets_frame params bn targets :
  forall model outputs,
    match Net.build_targets model params bn targets outputs with
    | Ok (model', _) =>
        Net.inputs model' = Net.inputs model /\
        Net.loss model' = Net.loss model /\
        Net.optimizer model' = Net.optimizer model
    | Raise e => e = IndexError
    end.
Proof.
  induction targets as [|t targets IH]; intros model outputs;
    cbn [Net.build_targets]; [done|].
  pose proof (add_layers_frame (Net.target_layers (Net.target params))
                model bn t) as Hadd.
  destruct (Net.add_layers _ _ _ _) as [[m1 last]|]; [|done].
  cbn [mbind result_bind]. unfold index.
  destruct (last !! 0%nat) as [last0|]; [|done]. cbn [mbind result_bind].
  specialize (IH (Net.add_output m1 last0 (fmt_join t "y"))
                (outputs ++ [fmt_join t "y"])).
  destruct (Net.build_targets _ _ _ _ _) as [[m2 ?]|]; [|done].
  cbn [Net.add_output Net.inputs Net.loss Net.optimizer] in IH.
  destruct IH as (-> & -> & ->). by destruct Hadd as (-> & _ & -> & ->).
Qed.

Lemma seq_phase_frame params seq_len model bn :
  match seq_phase params seq_len model bn with
  | Ok (model', _) =>
      Net.inputs model' = Net.inputs model ++ seq_input params seq_len /\
      Net.loss model' = Net.loss model /\
      Net.optimizer model' = Net.optimizer model
  | Raise e =>
      (e = AssertionError "seq_len required!" /\ seq_len = None /\
       is_Some (Net.seq params)) \/
      (e = IndexError /\ is_Some seq_len)
  end.
Proof.
  unfold seq_phase, seq_input. destruct (Net.seq params) as [sp|].
  - destruct seq_len as [n|]; cbn [Net.assert_not_None mbind result_bind].
    + destruct (Net.seq_layers sp) as [layers|e] eqn:Hl.
      * cbn [mbind result_bind].
        pose proof (add_layers_frame layers
          (Net.add_input model "s_x" [n; 4]) ["s_x"] "s") as Hadd.
        cbn [Net.add_input Net.inputs Net.loss Net.optimizer] in Hadd.
        destruct (Net.add_layers _ _ _ _) as [[m1 prev]|];
          cbn [mbind result_bind].
        -- by destruct Hadd as (-> & _ & -> & ->).
        -- right. split; [done | by eexists].
      * right. split; [by eapply seq_layers_raises | by eexists].
    + left. split_and!; try done; by eexists.
  - by rewrite app_nil_r.
Qed.

Lemma cpg_phase_frame params targets cpg_len nb_unit model bn :
  match cpg_phase params targets cpg_len nb_unit model bn with
  | Ok (model', _) =>
      Net.inputs model'
        = Net.inputs model ++ cpg_input params targets cpg_len nb_unit /\
      Net.loss model' = Net.loss model /\
      Net.optimizer model' = Net.optimizer model
  | Raise e =>
      (e = AssertionError "cpg_len required!" /\ cpg_len = None /\
       is_Some (Net.cpg params)) \/
      (e = IndexError /\ is_Some cpg_len)
  end.
Proof.
  unfold cpg_phase, cpg_input. destruct (Net.cpg params) as [cp|].
  - destruct cpg_len as [n|]; cbn [Net.assert_not_None mbind result_bind].
    + destruct (Net.cpg_layers cp) as [layers|e] eqn:Hl.
      * cbn [mbind result_bind].
        match goal with
        | |- context [Net.add_layers ?m layers ?p ?x] =>
            pose proof (add_layers_frame layers m p x) as Hadd;
            cbn [Net.add_input Net.inputs Net.loss Net.optimizer] in Hadd;
            destruct (Net.add_layers m layers p x) as [[m1 prev]|];
            cbn [mbind result_bind]
        end.
        -- destruct Hadd as (-> & _ & -> & ->). by destruct nb_unit.
        -- right. split; [done | by eexists].
      * right. split; [by eapply cpg_layers_raises | by eexists].
    + left. split_and!; try done; by eexists.
  - by rewrite app_nil_r.
Qed.

Lemma joint_phase_frame params model bn :
  match joint_phase params model bn with
  | Ok (model', _) =>
      Net.inputs model' = Net.inputs model /\
      Net.loss model' = Net.loss model /\
      Net.optimizer model' = Net.optimizer model
  | Raise e => e = IndexError
  end.
Proof.
  unfold joint_phase. destruct (Net.joint params) as [jp|]; [|done].
  destruct (0 <? Net.d_nb_hidden jp); [|done].
  pose proof (add_layers_frame (Net.joint_layers jp) model bn "j") as Hadd.
  destruct (Net.add_layers _ _ _ _) as [[m1 prev]|]; [|done].
  by destruct Hadd as (-> & _ & -> & ->).
Qed.

Lemma build_frame params targets seq_len cpg_len compile nb_unit :
  match Net.build params targets seq_len cpg_len compile nb_unit with
  | Ok model =>
      exists model0,
        model = compile_phase params compile model0 /\
        Net.inputs model0
          = seq_input params seq_len
            ++ cpg_input params targets cpg_len nb_unit /\
        Net.loss model0 = None /\ Net.optimizer model0 = None
  | Raise e =>
      (e = AssertionError "seq_len required!" /\ seq_len = None /\
       is_Some (Net.seq params)) \/
      (e = AssertionError "cpg_len required!" /\ cpg_len = None /\
       is_Some (Net.cpg params)) \/
      e = IndexError
  end.
Proof.
  rewrite build_phases.
  pose proof (seq_phase_frame params seq_len Net.new_graph []) as H1.
  destruct (seq_phase _ _ _ _) as [[m1 bn1]|e1]; cbn [mbind result_bind];
    [|destruct H1 as [(-> & ? & ?)|[-> _]]; auto].
  pose proof (cpg_phase_frame params targets cpg_len nb_unit m1 bn1) as H2.
  destruct (cpg_phase _ _ _ _ _ _) as [[m2 bn2]|e2]; cbn [mbind result_bind];
    [|destruct H2 as [(-> & ? & ?)|[-> _]]; auto].
  pose proof (joint_phase_frame params m2 bn2) as H3.
  destruct (joint_phase _ _ _) as [[m3 bn3]|e3]; cbn [mbind result_bind];
    [|auto].
  pose proof (build_targets_frame params bn3 targets m3 []) as H4.
  destruct (Net.build_targets _ _ _ _ _) as [[m4 outs]|e4];
    cbn [mbind result_bind]; [|auto].
  exists m4. split; [done|].
  destruct H4 as (-> & -> & ->), H3 as (-> & -> & ->), H2 as (-> & -> & ->),
    H1 as (-> & -> & ->).
  done.
Qed.

(** X3: the inputs of a model that [build] returns are, in this order,
    ['s_x'] of shape [(seq_len, 4)] when the sequence branch is on and
    ['c_x'] of shape [(2, nb_unit, cpg_len)] when the CpG branch is on,
    [nb_unit] being the number of targets unless it is given; no layer
    list adds or changes an input. *)
Theorem build_inputs (params : Net.Params) (targets : list string)
    (seq_len cpg_len : option Z) (compile : bool) (nb_unit : option Z)
    (model : Net.CpgGraph) :
  Net.build params targets seq_len cpg_len compile nb_unit = Ok model ->
  Net.inputs model
    = seq_input params seq_len ++ cpg_input params targets cpg_len nb_unit /\
  (forall sp, Net.seq params = Some sp ->
     exists n, seq_len = Some n /\ Net.inputs model !! 0%nat = Some ("s_x", [n; 4])) /\
  (forall cp, Net.cpg params = Some cp ->
     exists n, cpg_len = Some n /\
       last (Net.inputs model)
       = Some ("c_x", [2; default (Z.of_nat (length targets)) nb_unit; n])) /\
  length (Net.inputs model)
    = (length (option_list (Net.seq params))
       + length (option_list (Net.cpg params)))%nat.
Proof.
  intros Hb. pose proof (build_frame params targets seq_len cpg_len compile
                           nb_unit) as Hf.
  rewrite Hb in Hf. destruct Hf as (model0 & -> & Hin & _).
  assert (Hin' : Net.inputs (compile_phase params compile model0)
                 = seq_input params seq_len
                   ++ cpg_input params targets cpg_len nb_unit).
  { unfold compile_phase. by destruct compile. }
  assert (Hs : forall sp, Net.seq params = Some sp -> is_Some seq_len).
  { intros sp Hsp. rewrite build_phases in Hb. unfold seq_phase in Hb.
    rewrite Hsp in Hb. by destruct seq_len. }
  assert (Hc : forall cp, Net.cpg params = Some cp -> is_Some cpg_len).
  { intros cp Hcp. rewrite build_phases in Hb.
    destruct (seq_phase _ _ _ _) as [[m1 bn1]|]; [|done].
    cbn [mbind result_bind] in Hb. unfold cpg_phase in Hb.
    rewrite Hcp in Hb. by destruct cpg_len. }
  rewrite Hin'. unfold seq_input, cpg_input. split_and!.
  - done.
  - intros sp Hsp. destruct (Hs sp Hsp) as [n ->]. rewrite Hsp.
    exists n. by split.
  - intros cp Hcp. destruct (Hc cp Hcp) as [n ->]. rewrite Hcp.
    exists n. split; [done|]. by rewrite last_snoc.
  - destruct (Net.seq params) as [sp|] eqn:Hsp.
    + destruct (Hs sp eq_refl) as [n ->].
      destruct (Net.cpg params) as [cp|] eqn:Hcp; [|done].
      by destruct (Hc cp eq_refl) as [m ->].
    + destruct (Net.cpg params) as [cp|] eqn:Hcp; [|done].
      by destruct (Hc cp eq_refl) as [m ->].
Qed.

Lemma build_inputs_witness :
  exists model,
    Net.build ex_params ["u0"; "u1"] (Some 501) (Some 25) false None
      = Ok model /\
    Net.inputs model = [("s_x", [501; 4]); ("c_x", [2; 2; 25])].
Proof.
  destruct (Net.build ex_params ["u0"; "u1"] (Some 501) (Some 25) false None)
    as [model|] eqn:Hb.
  - exists model. split; [reflexivity|].
    exact (proj1 (build_inputs _ _ _ _ _ _ _ Hb)).
  - vm_compute in Hb. discriminate Hb.
Defined.

Lemma startswith_fmt_join t :
  Net.startswith (fmt_join t "y") "s" = Net.startswith t "s".
Proof.
  destruct t as [|a t]; [reflexivity|]. unfold Net.startswith, fmt_join.
  change (String a t +:+ "_" +:+ "y") with (String a (t +:+ "_" +:+ "y")).
  cbn [String.prefix]. destruct (Ascii.ascii_dec _ _); [|done].
  generalize (t +:+ "_" +:+ "y"). intros s. by destruct s, t.
Qed.

Lemma build_output_order params targets seq_len cpg_len compile nb_unit model :
  Net.build params targets seq_len cpg_len compile nb_unit = Ok model ->
  Net.output_order model = (fun t => fmt_join t "y") <$> targets.
Proof.
  intros Hb. apply build_inv in Hb
    as (? & ? & ? & ? & ? & ? & ? & _ & _ & _ & _ & _ & Hout).
  unfold Net.output_order. by rewrite Hout, <- list_fmap_compose.
Qed.

(** X4: [build] compiles the model exactly when [compile] is set: with
    [compile=False] the model has neither loss nor optimizer; otherwise
    the optimizer is the one of the parameters and the losses are those
    of [loss_from_ids] for the outputs ['<target>_y'] and the loss spec
    of the parameters.  Without a spec the losses are keyed by the
    outputs, and the output of a target has loss ['mse'] when the name
    of the target starts with ['s'] and ['binary_crossentropy']
    otherwise. *)
Theorem build_compiles (params : Net.Params) (targets : list string)
    (seq_len cpg_len : option Z) (compile : bool) (nb_unit : option Z)
    (model : Net.CpgGraph) :
  Net.build params targets seq_len cpg_len compile nb_unit = Ok model ->
  let ids := (fun t => fmt_join t "y") <$> targets in
  Net.loss model
    = (if compile then Some (Net.loss_from_ids ids (Net.p_loss params))
       else None) /\
  Net.optimizer model
    = (if compile then Some (Net.optimizer_from_params params) else None) /\
  (compile = true -> Net.p_loss params = None ->
   exists loss,
     Net.loss model = Some loss /\
     (forall k, is_Some (loss !! k) <-> k ∈ Net.output_order model) /\
     forall t, t ∈ targets ->
       loss !! fmt_join t "y"
       = Some (if Net.startswith t "s" then "mse" else "binary_crossentropy")).
Proof.
  intros Hb. cbv zeta.
  pose proof (build_output_order _ _ _ _ _ _ _ Hb) as Horder.
  pose proof (build_frame params targets seq_len cpg_len compile nb_unit)
    as Hf.
  rewrite Hb in Hf. destruct Hf as (model0 & -> & _ & Hl & Ho).
  assert (Horder0 : Net.output_order model0
                    = (fun t => fmt_join t "y") <$> targets).
  { rewrite <- Horder. unfold compile_phase. by destruct compile. }
  assert (Hloss : Net.loss (compile_phase params compile model0)
                  = if compile
                    then Some (Net.loss_from_ids
                                 ((fun t => fmt_join t "y") <$> targets)
                                 (Net.p_loss params))
                    else None).
  { unfold compile_phase. destruct compile; [|done]. cbn. by rewrite Horder0. }
  split_and!.
  - done.
  - unfold compile_phase. by destruct compile.
  - intros -> Hspec. rewrite Hloss, Hspec, Horder. eexists. split; [done|].
    split.
    + intros k. rewrite loss_from_ids_None_lookup.
      case_decide; [|by split; [intros [? [=]]|]].
      split; [done | by eexists].
    + intros t Ht. rewrite loss_from_ids_None_lookup.
      rewrite decide_True by (apply list_elem_of_fmap; by exists t).
      unfold default_loss. by rewrite startswith_fmt_join.
Qed.

Lemma build_compiles_witness :
  exists model loss,
    Net.build ex_params ["u0"; "s1"] (Some 501) (Some 25) true None
      = Ok model /\
    Net.loss model = Some loss /\
    loss !! "u0_y" = Some "binary_crossentropy" /\
    loss !! "s1_y" = Some "mse".
Proof.
  destruct (Net.build ex_params ["u0"; "s1"] (Some 501) (Some 25) true None)
    as [model|] eqn:Hb.
  - destruct (build_compiles _ _ _ _ _ _ _ Hb) as (_ & _ & Hl).
    destruct (Hl eq_refl eq_refl) as (loss & Hloss & _ & Ht).
    exists model, loss. split_and!; [reflexivity | exact Hloss | |].
    + apply (Ht "u0"). by left.
    + apply (Ht "s1"). right. by left.
  - vm_compute in Hb. discriminate Hb.
Defined.

Lemma joint_phase_no_branch params model :
  joint_enabled params = true ->
  joint_phase params model [] = Raise IndexError.
Proof.
  unfold joint_enabled, joint_phase. destruct (Net.joint params) as [jp|]; [|done].
  intros ->. rewrite joint_layers_head. reflexivity.
Qed.

Lemma joint_phase_off params model bn :
  joint_enabled params = false ->
  joint_phase params model bn = Ok (model, bn).
Proof.
  unfold joint_enabled, joint_phase. destruct (Net.joint params) as [jp|]; [|done].
  by intros ->.
Qed.

Lemma build_returns_ready params targets seq_len cpg_len :
  build_returns params targets seq_len cpg_len ->
  build_ready params seq_len cpg_len \/
  (Net.seq params = None /\ Net.cpg params = None /\
   joint_enabled params = false /\ targets = []).
Proof.
  intros (Hs & Hc & Hany). unfold build_ready.
  destruct (Net.seq params) as [sp|] eqn:Hsp.
  { left. split_and!; [done|done|]. left. by eexists. }
  destruct (Net.cpg params) as [cp|] eqn:Hcp.
  { left. split_and!; [done|done|]. right. by eexists. }
  right. destruct Hany as [[? [=]]|[[? [=]]|[? ?]]]. done.
Qed.

Lemma build_is_Ok params targets seq_len cpg_len compile nb_unit :
  is_Ok (Net.build params targets seq_len cpg_len compile nb_unit) <->
  build_returns params targets seq_len cpg_len.
Proof.
  split.
  - intros [model Hb]. rewrite build_phases in Hb.
    destruct (seq_phase _ _ _ _) as [[m1 bn1]|] eqn:H1; [|done].
    cbn [mbind result_bind] in Hb.
    destruct (cpg_phase _ _ _ _ _ _) as [[m2 bn2]|] eqn:H2; [|done].
    cbn [mbind result_bind] in Hb.
    destruct (joint_phase _ _ _) as [[m3 bn3]|] eqn:H3; [|done].
    cbn [mbind result_bind] in Hb.
    destruct (Net.build_targets _ _ _ _ _) as [[m4 outs]|] eqn:H4; [|done].
    split_and!.
    + intros sp Hsp. unfold seq_phase in H1. rewrite Hsp in H1.
      destruct seq_len as [n|]; [|done].
      cbn [Net.assert_not_None mbind result_bind] in H1.
      split; [by eexists|]. apply seq_layers_shape.
      destruct (Net.seq_layers sp); [by eexists | done].
    + intros cp Hcp. unfold cpg_phase in H2. rewrite Hcp in H2.
      destruct cpg_len as [n|]; [|done].
      cbn [Net.assert_not_None mbind result_bind] in H2.
      split; [by eexists|]. apply cpg_layers_shape.
      destruct (Net.cpg_layers cp); [by eexists | done].
    + destruct (Net.seq params) as [sp|] eqn:Hsp; [left; by eexists|].
      destruct (Net.cpg params) as [cp|] eqn:Hcp; [right; left; by eexists|].
      right. right.
      unfold seq_phase in H1. rewrite Hsp in H1. injection H1 as <- <-.
      unfold cpg_phase in H2. rewrite Hcp in H2. injection H2 as <- <-.
      destruct (joint_enabled params) eqn:Hj.
      { by rewrite joint_phase_no_branch in H3. }
      rewrite joint_phase_off in H3 by done. injection H3 as <- <-.
      split; [done|]. destruct targets as [|t targets]; [done|].
      by rewrite build_targets_no_input in H4.
  - intros [Hready|(Hsp & Hcp & Hj & ->)]%build_returns_ready.
    + by apply build_total.
    + rewrite build_phases. unfold seq_phase, cpg_phase.
      rewrite Hsp, Hcp. cbn [mbind result_bind].
      rewrite joint_phase_off by done. by eexists.
Qed.

(** X5: [build] returns exactly when every enabled branch is given its
    length and parameters with a filter length and a pool length for
    every filter count, and there is a node to start from: a branch is
    on, or there are neither joint layers nor targets to attach.  When
    it raises, it is the [AssertionError] ['seq_len required!'] (the
    sequence branch is on without [seq_len]), the [AssertionError]
    ['cpg_len required!'] (the CpG branch is on without [cpg_len]), or
    an [IndexError]; a missing [seq_len] is reported before anything
    else. *)
Theorem build_returns_iff (params : Net.Params) (targets : list string)
    (seq_len cpg_len : option Z) (compile : bool) (nb_unit : option Z) :
  (is_Ok (Net.build params targets seq_len cpg_len compile nb_unit) <->
   build_returns params targets seq_len cpg_len) /\
  (forall e,
     Net.build params targets seq_len cpg_len compile nb_unit = Raise e ->
     (e = AssertionError "seq_len required!" /\ seq_len = None /\
      is_Some (Net.seq params)) \/
     (e = AssertionError "cpg_len required!" /\ cpg_len = None /\
      is_Some (Net.cpg params)) \/
     e = IndexError) /\
  (is_Some (Net.seq params) -> seq_len = None ->
   Net.build params targets seq_len cpg_len compile nb_unit
   = Raise (AssertionError "seq_len required!")).
Proof.
  split_and!.
  - apply build_is_Ok.
  - intros e He.
    pose proof (build_frame params targets seq_len cpg_len compile nb_unit)
      as Hf.
    by rewrite He in Hf.
  - intros [sp Hsp] ->. rewrite build_phases. unfold seq_phase.
    by rewrite Hsp.
Qed.

Lemma build_returns_iff_witness :
  build_returns ex_params ["u0"; "u1"] (Some 501) (Some 25) /\
  is_Ok (Net.build ex_params ["u0"; "u1"] (Some 501) (Some 25) false None) /\
  Net.build ex_params ["u0"; "u1"] None (Some 25) false None
  = Raise (AssertionError "seq_len required!").
Proof.
  assert (Hr : build_returns ex_params ["u0"; "u1"] (Some 501) (Some 25)).
  { split_and!.
    - intros sp [= <-]. split; [by eexists | apply ex_conv_parallel].
    - intros cp [= <-]. split; [by eexists | apply ex_conv_parallel].
    - left. by eexists. }
  split_and!; [exact Hr | |].
  - apply (proj1 (build_returns_iff ex_params ["u0"; "u1"] (Some 501)
                    (Some 25) false None)), Hr.
  - apply (proj2 (proj2 (build_returns_iff ex_params ["u0"; "u1"] None
                           (Some 25) false None))); [by eexists | done].
Defined.

(** ** [build_model] *)

Lemma build_model_inv params g targets_id model :
  Train.build_model params g targets_id = Ok model ->
  Net.build params targets_id (dataset_dim g "s_x" 1)
    (dataset_dim g "c_x" 3) false (dataset_dim g "c_x" 2) = Ok model.
Proof.
  unfold Train.build_model, Train.read_shapes, dataset_dim, index.
  destruct (g !! "s_x") as [sx|]; [destruct (sx !! 1%nat); [|done]|];
    cbn [mbind result_bind];
    (destruct (g !! "c_x") as [cx|];
     [destruct (cx !! 2%nat); [|done]; destruct (cx !! 3%nat); [|done]|]);
    cbn [mbind result_bind]; done.
Qed.

Lemma build_model_build params g targets_id :
  (forall shape, g !! "s_x" = Some shape -> (1 < length shape)%nat) ->
  (forall shape, g !! "c_x" = Some shape -> (3 < length shape)%nat) ->
  Train.build_model params g targets_id
  = Net.build params targets_id (dataset_dim g "s_x" 1)
      (dataset_dim g "c_x" 3) false (dataset_dim g "c_x" 2).
Proof.
  intros Hs Hc. unfold Train.build_model, Train.read_shapes, dataset_dim, index.
  destruct (g !! "s_x") as [sx|].
  - destruct (lookup_lt_is_Some_2 sx 1%nat (Hs sx eq_refl)) as [n ->].
    cbn [mbind result_bind]. destruct (g !! "c_x") as [cx|]; [|done].
    destruct (lookup_lt_is_Some_2 cx 2%nat) as [u ->].
    { specialize (Hc cx eq_refl). lia. }
    by destruct (lookup_lt_is_Some_2 cx 3%nat (Hc cx eq_refl)) as [m ->].
  - cbn [mbind result_bind]. destruct (g !! "c_x") as [cx|]; [|done].
    destruct (lookup_lt_is_Some_2 cx 2%nat) as [u ->].
    { specialize (Hc cx eq_refl). lia. }
    by destruct (lookup_lt_is_Some_2 cx 3%nat (Hc cx eq_refl)) as [m ->].
Qed.

(** X6: a model that [build_model] returns is not compiled, has one
    output ['<id>_y'] per target id, and takes its input shapes from the
    datasets of the training file: the sequence length is dimension 1
    of ['s_x'], the CpG window length dimension 3 and the number of
    units dimension 2 of ['c_x'] (the number of targets is never used
    for it).  A branch that the parameters switch on while the file has
    no dataset for it makes [build_model] raise; for the sequence
    branch this is the [AssertionError] ['seq_len required!'] unless
    the shape of ['c_x'] is too short to be read. *)
Theorem build_model_reads_shapes (params : Net.Params)
    (g : gmap string (list Z)) (targets_id : list string) :
  (forall model,
     Train.build_model params g targets_id = Ok model ->
     Net.loss model = None /\ Net.optimizer model = None /\
     Net.output_order model = (fun t => fmt_join t "y") <$> targets_id /\
     (forall sp, Net.seq params = Some sp ->
        exists seq_len,
          dataset_dim g "s_x" 1 = Some seq_len /\
          Net.inputs model !! 0%nat = Some ("s_x", [seq_len; 4])) /\
     (forall cp, Net.cpg params = Some cp ->
        exists nb_unit cpg_len,
          dataset_dim g "c_x" 2 = Some nb_unit /\
          dataset_dim g "c_x" 3 = Some cpg_len /\
          last (Net.inputs model) = Some ("c_x", [2; nb_unit; cpg_len]))) /\
  (is_Some (Net.seq params) -> g !! "s_x" = None ->
   (forall shape, g !! "c_x" = Some shape -> (3 < length shape)%nat) ->
   Train.build_model params g targets_id
   = Raise (AssertionError "seq_len required!")) /\
  (is_Some (Net.cpg params) -> g !! "c_x" = None ->
   ~ is_Ok (Train.build_model params g targets_id)).
Proof.
  split_and!.
  - intros model Hb%build_model_inv.
    pose proof (build_output_order _ _ _ _ _ _ _ Hb) as Horder.
    pose proof (build_frame params targets_id (dataset_dim g "s_x" 1)
                  (dataset_dim g "c_x" 3) false (dataset_dim g "c_x" 2)) as Hf.
    rewrite Hb in Hf. destruct Hf as (model0 & -> & Hin & Hl & Ho).
    cbn [compile_phase] in *.
    destruct (proj1 (build_is_Ok _ _ _ _ _ _) (ex_intro _ _ Hb))
      as (Hs & Hc & _).
    split_and!; try done.
    + intros sp Hsp. destruct (Hs sp Hsp) as [[n Hn] _]. exists n.
      split; [done|]. rewrite Hin. unfold seq_input. by rewrite Hsp, Hn.
    + intros cp Hcp. destruct (Hc cp Hcp) as [[n Hn] _].
      assert (Hu : exists u, dataset_dim g "c_x" 2 = Some u).
      { unfold dataset_dim in *. destruct (g !! "c_x") as [cx|]; [|done].
        apply lookup_lt_is_Some_2. apply lookup_lt_Some in Hn. lia. }
      destruct Hu as [u Hu]. exists u, n. split_and!; try done.
      rewrite Hin. unfold cpg_input. rewrite Hcp, Hn, Hu. cbn [default].
      by rewrite last_snoc.
  - intros [sp Hsp] Hg Hc. rewrite build_model_build; [|by rewrite Hg|done].
    rewrite build_phases. unfold seq_phase, dataset_dim.
    by rewrite Hsp, Hg.
  - intros [cp Hcp] Hg [model Hb%build_model_inv].
    destruct (proj1 (build_is_Ok _ _ _ _ _ _) (ex_intro _ _ Hb))
      as (_ & Hc & _).
    destruct (Hc cp Hcp) as [[n Hn] _]. unfold dataset_dim in Hn.
    by rewrite Hg in Hn.
Qed.

Lemma build_model_reads_shapes_witness :
  exists model,
    Train.build_model ex_params ex_group ["u0"; "u1"] = Ok model /\
    Net.loss model = None /\
    Net.inputs model !! 0%nat = Some ("s_x", [501; 4]) /\
    last (Net.inputs model) = Some ("c_x", [2; 6; 25]).
Proof.
  destruct (Train.build_model ex_params ex_group ["u0"; "u1"])
    as [model|] eqn:Hb.
  - exists model. split; [reflexivity|].
    destruct (proj1 (build_model_reads_shapes ex_params ex_group
                       ["u0"; "u1"]) model Hb)
      as (Hl & _ & _ & Hs & Hc).
    split; [exact Hl|].
    destruct (Hs ex_conv eq_refl) as (n & Hn & H0).
    destruct (Hc ex_conv eq_refl) as (u & m & Hu & Hm & Hlast).
    vm_compute in Hn, Hu, Hm. injection Hn as <-. injection Hu as <-.
    injection Hm as <-. by split.
  - vm_compute in Hb. discriminate Hb.
Defined.

(** ** [get_sample_weights] with class weights *)

Section ClassWeights.
Variable MASK : Q.
Variable mean : list Q -> pyfloat.
Variable one_minus : pyfloat -> pyfloat.

Lemma assign_flat (l : list Q) (g : Q -> pyfloat) (k : Q) (v : pyfloat) :
  zip_with (fun (m : bool) w => if m then v else w)
    ((fun a => Qeq_bool a k) <$> l) (g <$> l)
  = (fun a => if Qeq_bool a k then v else g a) <$> l.
Proof. induction l as [|a l IH]; cbn; [done | by f_equal]. Qed.

Lemma replicate_const (l : list Q) (n : nat) (x : pyfloat) :
  length l = n -> replicate n x = (fun _ => x) <$> l.
Proof.
  revert n. induction l as [|a l IH]; intros [|n] Hn; try done.
  cbn. injection Hn as Hn. by rewrite (IH n Hn).
Qed.

Lemma assign_all_shape (y : Train.ndarray Q) (a : Train.ndarray pyfloat)
    (class_weights : list (Q * pyfloat)) :
  Train.shape
    (foldl (fun sample_weights kv =>
              Train.assign_where sample_weights (Train.eq_mask y kv.1) kv.2)
           a class_weights)
  = Train.shape a.
Proof.
  revert a. induction class_weights as [|kv cw IH]; intros a; cbn [foldl];
    [done|].
  by rewrite IH.
Qed.

Lemma class_weights_flat (y : Train.ndarray Q) :
  Qeq_bool MASK 0 = false -> Qeq_bool MASK 1 = false ->
  Train.wf_array y ->
  let t :=
    mean (List.filter (fun a => negb (Qeq_bool a MASK)) (Train.flat y)) in
  Train.flat (Train.get_sample_weights MASK mean one_minus y true)
  = (fun a => if Qeq_bool a 1 then to_float16 (one_minus t)
              else if Qeq_bool a 0 then to_float16 t
              else if Qeq_bool a MASK then Finite 0 else Finite 1)
      <$> Train.flat y.
Proof.
  intros H0 H1 Hwf t. unfold Train.get_sample_weights. fold t.
  cbn [Train.dict_set]. rewrite H0. cbn [Train.dict_set]. rewrite H1.
  cbn [Train.dict_set foldl Train.assign_where Train.eq_mask Train.ones
       Train.flat Train.shape fst snd].
  change (Qeq_bool 0 1) with false. cbn [Train.dict_set foldl
       Train.assign_where Train.eq_mask Train.ones Train.flat Train.shape
       fst snd].
  change (to_float16 (Finite 0)) with (Finite 0).
  rewrite (replicate_const (Train.flat y) _ (Finite 1)) by done.
  by rewrite !assign_flat.
Qed.

(** X7: with [weight_classes=True], for labels with as many entries as
    their shape says and a mask value other than 0 and 1, the weights
    have the shape of the labels, and an entry has weight 0 where the
    label is the mask value, [t] as a half where the label is 0,
    [1 - t] as a half where it is 1, and 1 anywhere else, [t] being the
    mean of the labels that are not masked. *)
Theorem class_weights_by_label (y : Train.ndarray Q) :
  Train.wf_array y -> ~ MASK == 0%Q -> ~ MASK == 1%Q ->
  let t :=
    mean (List.filter (fun a => negb (Qeq_bool a MASK)) (Train.flat y)) in
  let w := Train.get_sample_weights MASK mean one_minus y true in
  Train.shape w = Train.shape y /\
  Train.wf_array w /\
  forall i a, Train.flat y !! i = Some a ->
    (a == MASK -> Train.flat w !! i = Some (Finite 0)) /\
    (a == 0%Q -> Train.flat w !! i = Some (to_float16 t)) /\
    (a == 1%Q -> Train.flat w !! i = Some (to_float16 (one_minus t))) /\
    (~ a == MASK -> ~ a == 0%Q -> ~ a == 1%Q ->
     Train.flat w !! i = Some (Finite 1)).
Proof.
  intros Hwf H0 H1 t w.
  assert (Hb0 : Qeq_bool MASK 0 = false).
  { destruct (Qeq_bool MASK 0) eqn:Hb; [|done]. by apply Qeq_bool_iff in Hb. }
  assert (Hb1 : Qeq_bool MASK 1 = false).
  { destruct (Qeq_bool MASK 1) eqn:Hb; [|done]. by apply Qeq_bool_iff in Hb. }
  pose proof (class_weights_flat y Hb0 Hb1 Hwf) as Hflat. cbv zeta in Hflat.
  fold t in Hflat. fold w in Hflat.
  assert (Hshape : Train.shape w = Train.shape y).
  { unfold w, Train.get_sample_weights. by rewrite assign_all_shape. }
  split_and!.
  - done.
  - unfold Train.wf_array. by rewrite Hshape, Hflat, length_fmap.
  - intros i a Hi. rewrite Hflat, list_lookup_fmap, Hi. cbn [fmap option_fmap option_map].
    assert (Hneq : forall b c : Q, ~ b == c -> Qeq_bool b c = false).
    { intros b c Hbc. destruct (Qeq_bool b c) eqn:Hb; [|done].
      by apply Qeq_bool_iff in Hb. }
    split_and!.
    + intros Ha. rewrite (Hneq a 1%Q), (Hneq a 0%Q).
      * by rewrite (proj2 (Qeq_bool_iff a MASK) Ha).
      * intros Ha0. apply H0. by rewrite <- Ha.
      * intros Ha1. apply H1. by rewrite <- Ha.
    + intros Ha. rewrite (Hneq a 1%Q).
      * by rewrite (proj2 (Qeq_bool_iff a 0%Q) Ha).
      * intros Ha1. rewrite Ha in Ha1. discriminate Ha1.
    + intros Ha. by rewrite (proj2 (Qeq_bool_iff a 1%Q) Ha).
    + intros Ham Ha0 Ha1. by rewrite !Hneq.
Qed.
End ClassWeights.

(** The labels [1, 0, 0] and a masked one, with the mean and the
    difference of doubles: [t] is the double nearest to a third, and
    the weights kept are the halves [1365 / 4096] for the label 0 and
    [1365 / 2048] for the label 1. *)
Lemma class_weights_by_label_witness :
  Train.wf_array ex_classes /\
  Train.flat (Train.get_sample_weights (-1) int_mean one_minus64 ex_classes true)
    !! 1%nat = Some (Finite (1365 # 4096)) /\
  Train.flat (Train.get_sample_weights (-1) int_mean one_minus64 ex_classes true)
    !! 0%nat = Some (Finite (1365 # 2048)).
Proof.
  assert (Hwf : Train.wf_array ex_classes) by reflexivity.
  split; [exact Hwf|].
  assert (H0 : ~ (-1 == 0)%Q) by (intros H; discriminate H).
  assert (H1 : ~ (-1 == 1)%Q) by (intros H; discriminate H).
  destruct (class_weights_by_label (-1) int_mean one_minus64 ex_classes
              Hwf H0 H1) as (_ & _ & Hw).
  split.
  - destruct (Hw 1%nat 0%Q eq_refl) as (_ & Ht & _).
    rewrite Ht by reflexivity. vm_compute. reflexivity.
  - destruct (Hw 0%nat 1%Q eq_refl) as (_ & _ & Ht & _).
    rewrite Ht by reflexivity. vm_compute. reflexivity.
Defined.

(** ** The targets that [main] prints *)

Lemma prefix_y (c c' : Ascii.ascii) (r : string) :
  String.prefix "_y" (String c (String c' r))
  = String.eqb (String c (String c' "")) "_y".
Proof.
  cbn [String.prefix String.eqb].
  repeat match goal with
         | |- context [Ascii.ascii_dec ?a ?b] =>
             destruct (Ascii.ascii_dec a b) as [<-|?]
         | |- context [Ascii.eqb ?a ?b] =>
             destruct (Ascii.eqb_spec a b)
         end; try congruence.
  by destruct r.
Qed.

Lemma replace_y_fmt_join (t : string) :
  Train.contains "_y" t = false -> Train.replace_y (fmt_join t "y") = t.
Proof.
  unfold fmt_join. induction t as [|c t IH]; [done|].
  cbn [Train.contains]. intros [Hpre Hrest]%orb_false_elim.
  specialize (IH Hrest).
  change (String c t +:+ "_" +:+ "y") with (String c (t +:+ "_" +:+ "y")).
  destruct t as [|c' t'].
  - cbn.
    match goal with
    | |- context [Ascii.eqb ?a ?b] => by destruct (Ascii.eqb a b)
    end.
  - change (String c' t' +:+ "_" +:+ "y")
      with (String c' (t' +:+ "_" +:+ "y")) in *.
    cbn [Train.replace_y]. rewrite prefix_y in Hpre. rewrite Hpre.
    cbn [Train.replace_y] in IH. by rewrite IH.
Qed.

Lemma list_index_Ok (l : list string) (x : string) (h : nat) :
  Train.list_index l x = Ok h ->
  l !! h = Some x /\ forall h', (h' < h)%nat -> l !! h' <> Some x.
Proof.
  revert h. induction l as [|y l IH]; intros h; cbn [Train.list_index]; [done|].
  destruct (String.eqb_spec y x) as [->|Hne].
  - intros [= <-]. split; [done|]. lia.
  - destruct (Train.list_index l x) as [i|]; [|done].
    cbn [mbind result_bind]. intros [= <-].
    destruct (IH i eq_refl) as [Hi Hfirst]. split; [done|].
    intros [|h'] Hh'; cbn; [congruence|]. apply Hfirst. lia.
Qed.

Lemma list_index_elem (l : list string) (x : string) :
  x ∈ l -> is_Ok (Train.list_index l x).
Proof.
  induction l as [|y l IH]; cbn [Train.list_index]; [by intros ?%elem_of_nil|].
  intros Hin. destruct (String.eqb_spec y x) as [->|Hne]; [by eexists|].
  apply elem_of_cons in Hin as [->|Hin]; [done|].
  destruct (IH Hin) as [i ->]. by eexists.
Qed.

Lemma list_index_Raise (l : list string) (x : string) :
  x ∉ l -> Train.list_index l x = Raise (ValueError x).
Proof.
  induction l as [|y l IH]; cbn [Train.list_index]; [done|].
  intros Hin. apply not_elem_of_cons in Hin as [Hne Hin].
  destruct (String.eqb_spec y x) as [->|_]; [done|]. by rewrite IH.
Qed.

(** X8: [main] finds the target of an output by taking ['_y'] out of its
    name.  For outputs ['<id>_y'] of listed ids that do not contain
    ['_y'] themselves, and a name for every id, it prints one line per
    output, in order: the id and the name at the first position of that
    id.  An output whose name without ['_y'] is no listed id stops it
    with a [ValueError]. *)
Theorem print_targets_lines (ts targets_id targets_name : list string) :
  (forall t, t ∈ ts -> t ∈ targets_id /\ Train.contains "_y" t = false) ->
  (length targets_id <= length targets_name)%nat ->
  (exists lines,
     Train.print_targets ((fun t => fmt_join t "y") <$> ts) targets_id
       targets_name = Ok lines /\
     length lines = length ts /\
     forall i t, ts !! i = Some t ->
       exists h name,
         targets_id !! h = Some t /\
         (forall h', (h' < h)%nat -> targets_id !! h' <> Some t) /\
         targets_name !! h = Some name /\
         lines !! i = Some (t +:+ ": " +:+ name)) /\
  (forall output rest,
     Train.replace_y output ∉ targets_id ->
     Train.print_targets (output :: rest) targets_id targets_name
     = Raise (ValueError (Train.replace_y output))).
Proof.
  intros Hts Hlen. split.
  - induction ts as [|t ts IH].
    + exists []. split_and!; try done.
    + destruct IH as (lines & Hrun & Hlines & Hline).
      { intros t' Ht'. apply Hts. by right. }
      destruct (Hts t) as [Hin Hclean]; [by left|].
      cbn [fmap list_fmap Train.print_targets].
      rewrite replace_y_fmt_join by done.
      destruct (list_index_elem _ _ Hin) as [h Hh]. rewrite Hh.
      cbn [mbind result_bind].
      destruct (list_index_Ok _ _ _ Hh) as [Hid Hfirst].
      rewrite (proj2 (index_Ok _ _ _) Hid). cbn [mbind result_bind].
      destruct (lookup_lt_is_Some_2 targets_name h) as [name Hname].
      { apply lookup_lt_Some in Hid. lia. }
      rewrite (proj2 (index_Ok _ _ _) Hname). cbn [mbind result_bind].
      rewrite Hrun. cbn [mbind result_bind].
      eexists. split_and!; [done | by cbn; rewrite Hlines |].
      intros [|i] t' Hi.
      * injection Hi as <-. by exists h, name.
      * by apply Hline.
  - intros output rest Hout. cbn [Train.print_targets].
    by rewrite list_index_Raise.
Qed.

Lemma print_targets_lines_witness :
  exists lines,
    Train.print_targets ["u0_y"; "u1_y"] ["u0"; "u1"] ["BS27"; "BS28"]
      = Ok lines /\
    length lines = 2%nat.
Proof.
  assert (Hts : forall t, t ∈ ["u0"; "u1"] ->
            t ∈ ["u0"; "u1"] /\ Train.contains "_y" t = false).
  { intros t Ht. split; [exact Ht|].
    apply elem_of_cons in Ht as [->|Ht]; [reflexivity|].
    apply list_elem_of_singleton in Ht as ->. reflexivity. }
  assert (Hlen : (length ["u0"; "u1"] <= length ["BS27"; "BS28"])%nat)
    by (cbn; lia).
  destruct (print_targets_lines ["u0"; "u1"] ["u0"; "u1"] ["BS27"; "BS28"]
              Hts Hlen) as [(lines & Hrun & Hlines & _) _].
  exists lines. split; [exact Hrun | exact Hlines].
Defined.

(** The id ['my_yield'] is not found again: without ['_y'] its output
    reads ['myield']. *)
Example print_targets_id_with_y :
  Train.print_targets ["my_yield_y"] ["my_yield"] ["yield"]
  = Raise (ValueError "myield").
Proof. reflexivity. Qed.

(** ** The batch-size step of [main] *)

Section BatchSizeStep.
Context {Model : Type}.
Variable train_on_batch : Model -> Z -> Model * bool.
Variable set_lr : Model -> Q -> Model.

Lemma adjust_batch_size_few model nb_sample log :
  nb_sample < 16 ->
  Train.adjust_batch_size train_on_batch model nb_sample log
  = (model, log, (None, None)).
Proof.
  intros Hn. unfold Train.adjust_batch_size, Train.configs.
  cbn [Train.try_configs fst].
  by rewrite !(proj2 (Z.ltb_lt _ _)) by lia.
Qed.

Lemma adjust_batch_size_result model nb_sample log model' log' r :
  Train.adjust_batch_size train_on_batch model nb_sample log
    = (model', log', r) ->
  match r with
  | (Some batch_size, Some lr) =>
      (batch_size, lr) ∈ Train.configs /\ batch_size <= nb_sample
  | (None, None) => True
  | _ => False
  end.
Proof.
  unfold Train.adjust_batch_size.
  destruct (Train.try_configs train_on_batch model nb_sample log 0
              Train.configs) as [[m l] idx] eqn:Hrun.
  apply try_configs_spec in Hrun as (failed & _ & Hres).
  destruct idx as [j|]; [|by intros [= _ _ <-]].
  destruct Hres as ([bs lr] & rest & Hcands & _ & Hj & _).
  rewrite Nat.sub_0_r in Hj. rewrite Hj. intros [= _ _ <-].
  assert (Hin : (bs, lr) ∈ filter (fun c : Z * Q => c.1 <= nb_sample)
                          Train.configs).
  { rewrite Hcands. apply elem_of_app. right. by left. }
  apply list_elem_of_filter in Hin as [Hle Hin]. done.
Qed.

(** X9: the batch-size step of [main].  A [--batch_size] other than 0
    is taken as it is, and neither the model nor the log is touched.
    Without one (or with 0), and neither [--batch_size_auto] nor a
    missing parameter file, the batch size of the parameters is taken
    in the same way.  Otherwise the batch size is adjusted: with fewer
    than 16 samples no batch is tried and [main] logs the error and
    returns 1, the model unchanged; and whenever training goes on, the
    batch size is one of the configured ones, not more than the number
    of samples, and the learning rate configured with it has been
    set. *)
Theorem define_batch_size_cases (model : Model) (nb_sample : Z)
    (log : list Train.log_entry) (opts_batch_size : option Z)
    (opts_batch_size_auto : bool) (params_batch_size : option Z) :
  let run :=
    Train.define_batch_size train_on_batch set_lr opts_batch_size
      opts_batch_size_auto params_batch_size model nb_sample log in
  (forall n, opts_batch_size = Some n -> n <> 0 ->
     run = (model, log, Train.TrainWith n)) /\
  (opts_batch_size = None \/ opts_batch_size = Some 0 ->
   (opts_batch_size_auto = false ->
    forall b, params_batch_size = Some b ->
      run = (model, log, Train.TrainWith b)) /\
   (opts_batch_size_auto = true \/ params_batch_size = None ->
    (nb_sample < 16 ->
     run = (model,
            log ++ [Train.Info "Adjust batch size";
                    Train.Error "GPU memory to small"],
            Train.Return 1)) /\
    (forall model' log' batch_size,
       run = (model', log', Train.TrainWith batch_size) ->
       batch_size <= nb_sample /\
       exists lr m,
         (batch_size, lr) ∈ Train.configs /\ model' = set_lr m lr))).
Proof.
  intros run. unfold run, Train.define_batch_size. split.
  - intros n -> Hn. unfold truthyZ.
    by rewrite (proj2 (Z.eqb_neq n 0) Hn).
  - intros Hopt.
    assert (match opts_batch_size with
            | Some n => truthyZ n
            | None => false
            end = false) as -> by (by destruct Hopt as [-> | ->]).
    split.
    + intros -> b ->. by rewrite bool_decide_eq_false_2.
    + intros Hauto.
      assert (opts_batch_size_auto || bool_decide (params_batch_size = None)
              = true) as ->.
      { destruct Hauto as [-> | ->]; [done|].
        rewrite bool_decide_eq_true_2 by done. apply orb_true_r. }
      split.
      * intros Hn. rewrite adjust_batch_size_few by done.
        by rewrite <- app_assoc.
      * intros model' log' batch_size.
        destruct (Train.adjust_batch_size train_on_batch model nb_sample
                    (log ++ [Train.Info "Adjust batch size"]))
          as [[m l] [bs lr]] eqn:Hadj.
        apply adjust_batch_size_result in Hadj.
        destruct bs as [bs|], lr as [lr|]; try done.
        intros [= <- _ <-]. destruct Hadj as [Hin Hle].
        split; [done|]. by exists lr, m.
Qed.
End BatchSizeStep.

(** With 15 samples and [--batch_size_auto], no batch is tried. *)
Lemma define_batch_size_cases_witness :
  Train.define_batch_size (fun (m : nat) (_ : Z) => (S m, true))
    (fun m _ => m) None true (Some 128) 0%nat 15 []
  = (0%nat, [Train.Info "Adjust batch size";
             Train.Error "GPU memory to small"], Train.Return 1).
Proof.
  apply (proj1 (proj2 (proj2 (define_batch_size_cases
                                (fun (m : nat) (_ : Z) => (S m, true))
                                (fun m _ => m) 0%nat 15 [] None true
                                (Some 128))
                         (or_introl eq_refl))
                  (or_introl eq_refl))).
  lia.
Defined.

(** ** [copy_weights]: order and repetition *)

Section CopyWeightsAgain.
Context {W : Type}.
Variable re_search : string -> string -> bool.
Implicit Types (src : odict W) (dst : gmap string W).

Lemma truthy_filter_regex (k : string) (regexs : list string) :
  Net.truthy_list (Net.filter_regex re_search [k] regexs)
  = existsb (fun regex => re_search regex k) regexs.
Proof.
  unfold Net.filter_regex. cbn. by destruct (existsb _ regexs).
Qed.

Lemma copied_node_dom regexs dst dst' k :
  (is_Some (dst' !! k) <-> is_Some (dst !! k)) ->
  copied_node re_search regexs dst' k = copied_node re_search regexs dst k.
Proof.
  intros Hdom. unfold copied_node. by rewrite (bool_decide_ext _ _ Hdom).
Qed.

Lemma copy_fold src regexs dst (l : list (string * W)) :
  (forall k v, (k, v) ∈ l -> src !! k = Some v) ->
  forall d copied0,
    (forall k, is_Some (d !! k) <-> is_Some (dst !! k)) ->
    foldl (Net.copy_step re_search src regexs) (Ok (d, copied0)) l
    = Ok (foldl (set_node re_search regexs dst) d l,
          copied0 ++ List.filter (copied_node re_search regexs dst) l.*1).
Proof.
  induction l as [|[k v] l IH]; intros Hsrc d copied0 Hdom.
  - cbn. by rewrite app_nil_r.
  - cbn [foldl fmap list_fmap List.filter fst snd].
    unfold Net.copy_step at 2. cbn [mbind result_bind fst].
    rewrite truthy_filter_regex.
    change (existsb (fun regex => re_search regex k) regexs
            && bool_decide (is_Some (d !! k)))
      with (copied_node re_search regexs d k).
    rewrite (copied_node_dom regexs dst d k (Hdom k)).
    unfold set_node at 2. cbn [fst snd].
    destruct (copied_node re_search regexs dst k) eqn:Hc.
    + apply andb_true_iff in Hc as [_ Hk%bool_decide_eq_true].
      unfold od_getitem, Net.getitem. rewrite (Hsrc k v) by (by left).
      cbn [mbind result_bind].
      destruct (proj2 (Hdom k) Hk) as [w Hw]. rewrite Hw.
      cbn [mbind result_bind]. rewrite IH.
      * by rewrite <- app_assoc.
      * intros k' v' Hin. apply Hsrc. by right.
      * intros k'. rewrite <- Hdom. destruct (decide (k' = k)) as [->|Hne].
        -- rewrite lookup_insert_eq, Hw. split; by eexists.
        -- by rewrite lookup_insert_ne.
    + apply IH; [|done]. intros k' v' Hin. apply Hsrc. by right.
Qed.

Lemma set_nodes_other regexs dst (l : list (string * W)) k :
  k ∉ l.*1 ->
  forall d, foldl (set_node re_search regexs dst) d l !! k = d !! k.
Proof.
  induction l as [|[k' v'] l IH]; intros Hk d; [done|].
  apply not_elem_of_cons in Hk as [Hne Hk]. cbn [foldl].
  rewrite IH by done. unfold set_node. cbn [fst snd].
  destruct (copied_node _ _ _ k'); [|done]. by rewrite lookup_insert_ne.
Qed.

Lemma set_nodes_lookup regexs dst (l : list (string * W)) k v :
  NoDup l.*1 -> (k, v) ∈ l -> copied_node re_search regexs dst k = true ->
  forall d, foldl (set_node re_search regexs dst) d l !! k = Some v.
Proof.
  induction l as [|[k' v'] l IH]; intros Hnd Hin Hc d.
  - by apply elem_of_nil in Hin.
  - apply NoDup_cons in Hnd as [Hk' Hnd]. cbn [foldl].
    apply elem_of_cons in Hin as [[= <- <-]|Hin].
    + rewrite set_nodes_other by done. unfold set_node. cbn [fst snd].
      rewrite Hc. by rewrite lookup_insert_eq.
    + by apply IH.
Qed.

Lemma set_nodes_same regexs dst (l : list (string * W)) :
  forall d,
    (forall k v, (k, v) ∈ l -> copied_node re_search regexs dst k = true ->
       d !! k = Some v) ->
    foldl (set_node re_search regexs dst) d l = d.
Proof.
  induction l as [|[k v] l IH]; intros d Hd; [done|].
  cbn [foldl]. unfold set_node at 2. cbn [fst snd].
  destruct (copied_node _ _ _ k) eqn:Hc.
  - rewrite insert_id by (apply Hd; [by left | done]).
    apply IH. intros k' v' Hin. apply Hd. by right.
  - apply IH. intros k' v' Hin. apply Hd. by right.
Qed.

Lemma set_nodes_dom regexs dst (l : list (string * W)) :
  forall d,
    (forall k, is_Some (d !! k) <-> is_Some (dst !! k)) ->
    forall k, is_Some (foldl (set_node re_search regexs dst) d l !! k)
              <-> is_Some (dst !! k).
Proof.
  induction l as [|[k' v'] l IH]; intros d Hd k; [apply Hd|].
  cbn [foldl]. apply IH. intros k0. unfold set_node. cbn [fst snd].
  destruct (copied_node _ _ _ k') eqn:Hc; [|apply Hd].
  apply andb_true_iff in Hc as [_ Hk%bool_decide_eq_true].
  destruct (decide (k0 = k')) as [->|Hne].
  - rewrite lookup_insert_eq. split; [done | by eexists].
  - rewrite lookup_insert_ne by done. apply Hd.
Qed.

(** X10: [copy_weights] lists the copied nodes in the order in which
    they were added to [src.nodes], a node being copied when it matches
    a regex and is a node of [dst].  Copying again changes nothing and
    returns the same list; copying without regexs copies nothing; and
    copying a model onto itself leaves it as it is. *)
Theorem copy_weights_again (src : odict W) (dst : gmap string W)
    (regexs : list string) :
  exists dst' copied,
    Net.copy_weights re_search src dst regexs = Ok (dst', copied) /\
    copied
    = List.filter
        (fun k => existsb (fun regex => re_search regex k) regexs
                  && bool_decide (is_Some (dst !! k)))
        (items src).*1 /\
    Net.copy_weights re_search src dst' regexs = Ok (dst', copied) /\
    Net.copy_weights re_search src dst [] = Ok (dst, []) /\
    exists copied',
      Net.copy_weights re_search src (to_map src) regexs
      = Ok (to_map src, copied').
Proof.
  assert (Hsrc : forall k v, (k, v) ∈ items src -> src !! k = Some v).
  { intros k v. apply odict_lookup_Some. }
  pose proof (odict_NoDup src) as Hnd.
  assert (Hrun : forall dst0 regexs0,
    Net.copy_weights re_search src dst0 regexs0
    = Ok (foldl (set_node re_search regexs0 dst0) dst0 (items src),
          List.filter (copied_node re_search regexs0 dst0)
            (items src).*1)).
  { intros dst0 regexs0. unfold Net.copy_weights.
    by rewrite (copy_fold src regexs0 dst0). }
  set (dst' := foldl (set_node re_search regexs dst) dst (items src)).
  assert (Hdom : forall k, is_Some (dst' !! k) <-> is_Some (dst !! k)).
  { by apply set_nodes_dom. }
  exists dst', (List.filter (copied_node re_search regexs dst)
                  (items src).*1).
  split_and!.
  - apply Hrun.
  - done.
  - rewrite Hrun. f_equal. f_equal.
    + assert (Hc : forall d (l : list (string * W)),
        foldl (set_node re_search regexs dst') d l
        = foldl (set_node re_search regexs dst) d l).
      { intros d l. revert d. induction l as [|[k v] l IH]; intros d; [done|].
        cbn [foldl]. rewrite IH. unfold set_node. cbn [fst snd].
        by rewrite (copied_node_dom regexs dst dst' k (Hdom k)). }
      rewrite Hc. apply set_nodes_same. intros k v Hin Hk.
      unfold dst'. by apply set_nodes_lookup.
    + generalize ((items src).*1). intros ks.
      induction ks as [|k ks IH]; [done|].
      cbn [List.filter]. rewrite IH.
      by rewrite (copied_node_dom regexs dst dst' k (Hdom k)).
  - rewrite Hrun. f_equal. f_equal.
    + by apply set_nodes_same.
    + generalize ((items src).*1). intros ks.
      by induction ks as [|k ks IH].
  - eexists. rewrite Hrun. f_equal. f_equal.
    apply set_nodes_same. intros k v Hin _. rewrite to_map_lookup.
    by apply Hsrc.
Qed.
End CopyWeightsAgain.

(** The nodes of a CpG branch copied onto themselves: the names come
    back in the order in which [build] added them. *)
Example copy_weights_order :
  snd <$> (match Net.copy_weights (fun regex s => String.prefix regex s)
                   ex_nodes (to_map ex_nodes) ["c_"]
           with Ok r => Some r | Raise _ => None end)
  = Some ["c_c1"; "c_p1"; "c_f1"; "c_h1"; "c_h1a"].
Proof. vm_compute. reflexivity. Qed.

(** ** [write_loop] and [predict_loop] *)

Lemma slice_seq (n batch_start batch_end : nat) :
  Net.slice (seq 0 n) batch_start batch_end
  = seq batch_start (Nat.min batch_end n - batch_start).
Proof.
  unfold Net.slice. rewrite take_seq, drop_seq. f_equal.
Qed.

Lemma tiles_le batches : forall lo hi, tiles batches lo hi -> (lo <= hi)%nat.
Proof.
  induction batches as [|[s e] batches IH]; intros lo hi; cbn [tiles].
  - intros ->. lia.
  - intros (-> & Hle & Hrest). apply IH in Hrest. lia.
Qed.

Lemma tiles_ids (n : nat) batches :
  forall lo hi, tiles batches lo hi -> (hi <= n)%nat ->
    concat (batch_ids n <$> batches) = seq lo (hi - lo).
Proof.
  induction batches as [|[s e] batches IH]; intros lo hi; cbn [tiles].
  - intros -> _. by rewrite Nat.sub_diag.
  - intros (-> & Hle & Hrest) Hhi. cbn [fmap list_fmap concat].
    pose proof (tiles_le _ _ _ Hrest) as He.
    rewrite (IH e hi) by done. unfold batch_ids. cbn [fst snd].
    rewrite slice_seq. replace (Nat.min e n - lo)%nat with (e - lo)%nat by lia.
    replace (hi - lo)%nat with ((e - lo) + (hi - e))%nat by lia.
    rewrite seq_app. by replace (lo + (e - lo))%nat with e by lia.
Qed.


Section LoopProps.
Context {Row RowShape InsBatch Outs Callback : Type}.
Variable make_batches : nat -> nat -> list (nat * nat).
Variable slice_X : list (list Row) -> list nat -> InsBatch.
Variable zero_row : RowShape -> Row.

(** Fewer batches than [sys.maxsize] are fewer than a double can
    count. *)
Lemma fits_double (n : nat) : fits n -> Z.of_nat n < 2 ^ 1023.
Proof.
  unfold fits, sys_maxsize. intros Hn.
  assert (2 ^ 63 < 2 ^ 1023) by (by apply Z.pow_lt_mono_r). lia.
Qed.

(** The logging of a batch, when it returns. *)
Lemma progress_log_ok {N} (wrap : @Net.notice Callback -> N) (log : bool)
    (nb_batch batch_index : nat) (trace r : list N) :
  (if log then
     s ← Net.progress (Z.of_nat batch_index) (Z.of_nat nb_batch) 20;
     match s with
     | Some s => Ok (trace ++ [wrap (Net.Log s)])
     | None => Ok trace
     end
   else Ok trace) = Ok r ->
  r = trace ++ (wrap <$> progress_log log nb_batch batch_index).
Proof.
  unfold progress_log. destruct log; [|intros [= <-]; by rewrite app_nil_r].
  destruct (Net.progress _ _ _) as [[m|]|]; cbn [mbind result_bind];
    intros [= <-]; [done | by rewrite app_nil_r].
Qed.

(** Without logging, [progress] is not called; in a loop over batches
    that [len] can count, it returns. *)
Lemma progress_log_run {N} (wrap : @Net.notice Callback -> N) (log : bool)
    (nb_batch batch_index : nat) (trace : list N) :
  (batch_index < nb_batch)%nat -> log = false \/ fits nb_batch ->
  (if log then
     s ← Net.progress (Z.of_nat batch_index) (Z.of_nat nb_batch) 20;
     match s with
     | Some s => Ok (trace ++ [wrap (Net.Log s)])
     | None => Ok trace
     end
   else Ok trace)
  = Ok (trace ++ (wrap <$> progress_log log nb_batch batch_index)).
Proof.
  intros Hbi Hfit.
  destruct (if log then _ else _) as [r|err] eqn:Hlog.
  - f_equal. by apply progress_log_ok in Hlog.
  - destruct log; [|done]. destruct Hfit as [|Hfit%fits_double]; [done|].
    destruct (progress_returns (Z.of_nat batch_index) (Z.of_nat nb_batch) 20)
      as [f Hf]; [lia | done | done |].
    rewrite Hf in Hlog. by destruct f.
Qed.

Lemma write_batches_trace (ins : list (list Row)) (fun_ : InsBatch -> Outs)
    (callbacks : list Callback) (log : bool) (nb_sample nb_batch : nat)
    (batches : list (nat * nat)) :
  log = false \/ fits nb_batch ->
  forall batch_index trace,
    (batch_index + length batches = nb_batch)%nat ->
    Net.write_batches slice_X ins fun_ callbacks log (seq 0 nb_sample)
      nb_batch batch_index batches trace
    = Ok (trace
          ++ concat
               (imap (fun i b =>
                        (Net.Notice
                           <$> batch_notices callbacks log nb_batch
                                 (batch_index + i))
                        ++ [Net.WriteFun
                              (fun_ (slice_X ins (batch_ids nb_sample b)))
                              b.1 b.2])
                     batches)).
Proof.
  intros Hfit.
  induction batches as [|[s e] batches IH]; intros batch_index trace Hnb.
  - cbn. by rewrite app_nil_r.
  - cbn [Net.write_batches length] in *.
    rewrite (progress_log_run Net.Notice) by (done || lia).
    cbn [mbind result_bind]. rewrite IH by lia.
    f_equal. cbn [imap concat fst snd]. rewrite Nat.add_0_r.
    match goal with
    | |- context [imap (?g ∘ S) batches] =>
        rewrite (imap_ext (g ∘ S)
                   (fun i b =>
                      (Net.Notice
                         <$> batch_notices callbacks log nb_batch
                               (S batch_index + i))
                      ++ [Net.WriteFun
                            (fun_ (slice_X ins (batch_ids nb_sample b)))
                            b.1 b.2]) batches)
    end.
    + unfold batch_notices at 2. unfold batch_ids at 2. cbn [fst snd].
      rewrite fmap_app, <- list_fmap_compose, <- !app_assoc. done.
    + intros i b _. cbn.
      by replace (batch_index + S i)%nat with (S (batch_index + i)) by lia.
Qed.

Lemma write_batches_ok (ins : list (list Row)) (fun_ : InsBatch -> Outs)
    (callbacks : list Callback) (log : bool) (nb_sample nb_batch : nat)
    (batches : list (nat * nat)) :
  forall batch_index trace trace',
    Net.write_batches slice_X ins fun_ callbacks log (seq 0 nb_sample)
      nb_batch batch_index batches trace = Ok trace' ->
    trace'
    = trace
      ++ concat
           (imap (fun i b =>
                    (Net.Notice
                       <$> batch_notices callbacks log nb_batch
                             (batch_index + i))
                    ++ [Net.WriteFun
                          (fun_ (slice_X ins (batch_ids nb_sample b)))
                          b.1 b.2])
                 batches).
Proof.
  induction batches as [|[s e] batches IH]; intros batch_index trace trace'.
  - cbn. intros [= <-]. by rewrite app_nil_r.
  - cbn [Net.write_batches].
    destruct (if log then _ else _) as [trace1|] eqn:Hlog; [|done].
    apply (progress_log_ok Net.Notice) in Hlog. subst trace1.
    cbn [mbind result_bind]. intros Hrun. apply IH in Hrun. rewrite Hrun.
    cbn [imap concat fst snd]. rewrite Nat.add_0_r.
    match goal with
    | |- context [imap (?g ∘ S) batches] =>
        rewrite (imap_ext (g ∘ S)
                   (fun i b =>
                      (Net.Notice
                         <$> batch_notices callbacks log nb_batch
                               (S batch_index + i))
                      ++ [Net.WriteFun
                            (fun_ (slice_X ins (batch_ids nb_sample b)))
                            b.1 b.2]) batches)
    end.
    + unfold batch_notices at 2. unfold batch_ids at 2. cbn [fst snd].
      rewrite fmap_app, <- list_fmap_compose, <- !app_assoc. done.
    + intros i b _. cbn.
      by replace (batch_index + S i)%nat with (S (batch_index + i)) by lia.
Qed.

(** X11: [write_loop] returns whenever it does not log or there are no
    more batches than [len] can count (the quotient that [progress]
    takes is then a double), whatever [fun] and the callbacks are.
    When it returns, it has, batch by batch and in the order of the
    batches, logged the progress (if logging is on and [progress] has
    a message), called every callback with the index of the batch and
    the number of batches, and handed to [write_fun] what [fun] returns
    for the samples of the batch together with the bounds of the batch.
    When the batches tile the samples (as those of Keras do), the
    batches fed to [fun] are all samples, each once and in order. *)
Theorem write_loop_calls (ins : list (list Row)) (ins0 : list Row)
    (fun_ : InsBatch -> Outs) (batch_size : nat)
    (callbacks : list Callback) (log : bool) :
  ins !! 0%nat = Some ins0 ->
  let nb_sample := length ins0 in
  let batches := make_batches nb_sample batch_size in
  let calls :=
    concat
      (imap (fun i b =>
               (Net.Notice
                  <$> batch_notices callbacks log (length batches) i)
               ++ [Net.WriteFun
                     (fun_ (slice_X ins (batch_ids nb_sample b)))
                     b.1 b.2])
            batches) in
  (log = false \/ fits (length batches) ->
   Net.write_loop make_batches slice_X ins fun_ batch_size callbacks log
   = Ok calls) /\
  (forall trace,
     Net.write_loop make_batches slice_X ins fun_ batch_size callbacks log
     = Ok trace -> trace = calls) /\
  (tiles batches 0 nb_sample ->
   concat (batch_ids nb_sample <$> batches) = seq 0 nb_sample).
Proof.
  intros Hins nb_sample batches calls. split_and!.
  - intros Hfit. unfold Net.write_loop.
    rewrite (proj2 (index_Ok _ _ _) Hins).
    cbn [mbind result_bind]. fold nb_sample. fold batches.
    by rewrite write_batches_trace.
  - intros trace. unfold Net.write_loop.
    rewrite (proj2 (index_Ok _ _ _) Hins).
    cbn [mbind result_bind]. fold nb_sample. fold batches.
    by intros ->%write_batches_ok.
  - intros Ht. rewrite (tiles_ids nb_sample batches 0 nb_sample) by done.
    by rewrite Nat.sub_0_r.
Qed.
End LoopProps.

(** Five samples in batches of two, with logging: every batch is
    logged, since the step is 1. *)
Lemma write_loop_calls_witness :
  Net.write_loop keras_make_batches (fun (ins : list (list Z)) ids => ids)
    [[10; 11; 12; 13; 14]] (fun ids => length ids) 2 ["cb"] true
  = Ok [Net.Notice
          (Net.Log {| Net.msg_index := 1; Net.msg_total := 3;
                      Net.msg_percent :=
                        Finite (2345624805922133 # 70368744177664) |});
        Net.Notice (Net.CallbackCall "cb" 0 3); Net.WriteFun 2%nat 0 2;
        Net.Notice
          (Net.Log {| Net.msg_index := 2; Net.msg_total := 3;
                      Net.msg_percent :=
                        Finite (2345624805922133 # 35184372088832) |});
        Net.Notice (Net.CallbackCall "cb" 1 3); Net.WriteFun 2%nat 2 4;
        Net.Notice
          (Net.Log {| Net.msg_index := 3; Net.msg_total := 3;
                      Net.msg_percent := Finite 100 |});
        Net.Notice (Net.CallbackCall "cb" 2 3); Net.WriteFun 1%nat 4 5].
Proof.
  rewrite (proj1 (write_loop_calls keras_make_batches
                    (fun (ins : list (list Z)) ids => ids)
                    [[10; 11; 12; 13; 14]] [10; 11; 12; 13; 14]
                    (fun ids => length ids) 2 ["cb"] true eq_refl)
             ltac:(by right; vm_compute)).
  vm_compute. reflexivity.
Defined.

Section PredictProps.
Context {Row RowShape InsBatch Callback : Type}.
Variable make_batches : nat -> nat -> list (nat * nat).
Variable slice_X : list (list Row) -> list nat -> InsBatch.
Variable zero_row : RowShape -> Row.

#[local] Abbreviation array := (@Net.array Row RowShape).

(** The slice assignment of a batch that fits. *)
#[local] Abbreviation stored batch_start batch_end :=
  (fun (out batch_out : array) =>
     {| Net.row_shape := Net.row_shape out;
        Net.rows := take batch_start (Net.rows out) ++ Net.rows batch_out
                    ++ drop batch_end (Net.rows out) |}).








End PredictProps.


(** ** The layer lists against each other, and [add_layers] *)

Lemma conv_loop_to_2d params w_reg ls :
  forall layers,
    Net.cpg_conv_loop params w_reg ls
      ((fun nl : Net.named_layer => (nl.1, to_2d nl.2)) <$> layers)
    = match Net.seq_conv_loop params w_reg ls layers with
      | Ok layers' =>
          Ok ((fun nl : Net.named_layer => (nl.1, to_2d nl.2)) <$> layers')
      | Raise e => Raise e
      end.
Proof.
  induction ls as [|l ls IH]; intros layers; [done|].
  cbn [Net.cpg_conv_loop Net.seq_conv_loop].
  destruct (index (Net.nb_filter params) l) as [nf|]; [|done].
  destruct (index (Net.filter_len params) l) as [fl|]; [|done].
  destruct (index (Net.pool_len params) l) as [pl|]; [|done].
  cbn [mbind result_bind]. rewrite <- IH. by rewrite !fmap_app.
Qed.

(** X13: the CpG branch is the sequence branch laid out in two
    dimensions: for the same parameters [cpg_layers] raises when
    [seq_layers] does, and otherwise returns the same names in the same
    order, with every 1-D convolution and pooling replaced by the 2-D
    one with a single row and every other layer the same.  The hidden
    part of a target head is the list of [joint_layers] for the same
    parameters, followed by the output layer. *)
Theorem layer_lists_agree (p : Net.ConvParams) (d : Net.DenseParams) :
  Net.cpg_layers p
  = match Net.seq_layers p with
    | Ok layers =>
        Ok ((fun nl : Net.named_layer => (nl.1, to_2d nl.2)) <$> layers)
    | Raise e => Raise e
    end /\
  (forall s c, Net.seq_layers p = Ok s -> Net.cpg_layers p = Ok c ->
     s.*1 = c.*1 /\ length s = length c) /\
  Net.target_layers d
  = (if truthyZ (Net.d_nb_hidden d) then Net.joint_layers d else [])
    ++ [("o", Net.Dense 1 "sigmoid" "glorot_uniform")].
Proof.
  assert (H2d : Net.cpg_layers p
    = match Net.seq_layers p with
      | Ok layers =>
          Ok ((fun nl : Net.named_layer => (nl.1, to_2d nl.2)) <$> layers)
      | Raise e => Raise e
      end).
  { unfold Net.cpg_layers, Net.seq_layers.
    set (w_reg := {| Net.reg_l1 := Net.l1 p; Net.reg_l2 := Net.l2 p |}).
    set (layers0 := if truthyQ (Net.drop_in p)
                    then [] ++ [("xd", Net.Dropout (Net.drop_in p))]
                    else []).
    assert (Hl0 : layers0
                  = (fun nl : Net.named_layer => (nl.1, to_2d nl.2))
                      <$> layers0).
    { unfold layers0. by destruct (truthyQ (Net.drop_in p)). }
    rewrite Hl0 at 1. rewrite conv_loop_to_2d.
    destruct (Net.seq_conv_loop p w_reg _ layers0) as [layers|];
      cbn [mbind result_bind]; [|done].
    f_equal.
    destruct (truthyQ (Net.drop_out p)), (truthyZ (Net.nb_hidden p)),
      (Net.batch_norm p); by rewrite !fmap_app. }
  split_and!.
  - exact H2d.
  - intros s c Hs Hc. rewrite H2d, Hs in Hc. injection Hc as <-.
    split; [|by rewrite length_fmap].
    rewrite <- list_fmap_compose. by apply list_fmap_ext.
  - rewrite joint_layers_head.
    destruct (target_layers_last d) as (hidden & -> & ->). done.
Qed.

(** X14: [add_layers] leaves the model as it is when there is no layer.
    Otherwise it needs a node to start from (without one it raises
    [IndexError]); it then adds one node per layer, named
    ['<prefix>_<name>'] in the order of the layers: the first wired to
    the given nodes (all of them merged when there are several), every
    further one to the node before it; it returns the name of the last
    node, and touches neither inputs nor outputs. *)
Theorem add_layers_contract (model : Net.CpgGraph)
    (layers : list Net.named_layer) (prev_nodes : list string)
    (prefix : string) :
  (layers = [] ->
   Net.add_layers model layers prev_nodes prefix = Ok (model, prev_nodes)) /\
  (layers <> [] -> prev_nodes = [] ->
   Net.add_layers model layers prev_nodes prefix = Raise IndexError) /\
  (layers <> [] -> prev_nodes <> [] ->
   exists w last model',
     wiring_of prev_nodes = Some w /\
     last_node prefix layers = Some last /\
     Net.add_layers model layers prev_nodes prefix = Ok (model', [last]) /\
     Net.nodes model' = Net.nodes model ++ chain prefix w layers /\
     Net.node_name <$> chain prefix w layers
       = (fun nl : Net.named_layer => fmt_join prefix nl.1) <$> layers /\
     Net.inputs model' = Net.inputs model /\
     Net.outputs model' = Net.outputs model).
Proof.
  split_and!.
  - by intros ->.
  - intros Hl ->. destruct layers as [|[name l] layers]; [done|].
    apply add_layers_no_input.
  - intros Hl Hp.
    assert (Hw : is_Some (wiring_of prev_nodes)).
    { destruct prev_nodes as [|? [|? ?]]; [done| |]; by eexists. }
    destruct Hw as [w Hw].
    assert (Hlast : is_Some (last_node prefix layers)).
    { unfold last_node. apply fmap_is_Some.
      rewrite <- not_eq_None_Some, last_None. done. }
    destruct Hlast as [last Hlast].
    exists w, last, (extend model (chain prefix w layers) []).
    rewrite (add_layers_chain _ _ _ _ w Hw), Hlast.
    split_and!; try done.
    + clear. revert w. induction layers as [|[name l] layers IH]; intros w;
        [done|].
      cbn [chain fmap list_fmap Net.node_name fst]. f_equal. apply IH.
    + cbn. by rewrite app_nil_r.
Qed.

Lemma add_layers_contract_witness :
  Net.add_layers Net.new_graph (Net.joint_layers ex_dense) [] "j"
  = Raise IndexError.
Proof.
  apply (proj1 (proj2 (add_layers_contract Net.new_graph
                         (Net.joint_layers ex_dense) [] "j")));
    [discriminate | reflexivity].
Defined.

(** ** [read_data] on data that lacks an output *)

Section ReadData.
Variable MASK : Q.
Variable mean : list Q -> pyfloat.
Variable one_minus : pyfloat -> pyfloat.

Lemma read_weights_first_missing (data : gmap string (Train.ndarray Q))
    (output_order : list string) :
  forall weights0,
    match Train.read_weights MASK mean one_minus output_order data weights0 with
    | Ok _ => forall k, k ∈ output_order -> is_Some (data !! k)
    | Raise e =>
        exists pre k post,
          output_order = pre ++ k :: post /\
          (forall k', k' ∈ pre -> is_Some (data !! k')) /\
          data !! k = None /\ e = KeyError k
    end.
Proof.
  induction output_order as [|k rest IH]; intros weights0;
    cbn [Train.read_weights].
  - by intros k ?%elem_of_nil.
  - unfold Train.getitem. destruct (data !! k) as [yk|] eqn:Hk.
    + cbn [mbind result_bind].
      specialize (IH (<[k := Train.get_sample_weights MASK mean one_minus yk false]>
                        weights0)).
      destruct (Train.read_weights _ _ _ rest _ _) as [w|e].
      * intros k' [->|Hin]%elem_of_cons; [by eexists | by apply IH].
      * destruct IH as (pre & k0 & post & -> & Hpre & Hk0 & ->).
        exists (k :: pre), k0, post. split_and!; try done.
        intros k' [->|Hin]%elem_of_cons; [by eexists | by apply Hpre].
    + exists [], k, rest. split_and!; try done. by intros k' ?%elem_of_nil.
Qed.

(** X15: on data whose arrays have as many entries as their shape says,
    [read_data] returns exactly when the data holds an array for every
    output of the model; it then gives the data back with weights for
    the outputs and nothing else ([check_weights] never fails on what
    [get_sample_weights] made).  Otherwise it raises the [KeyError]
    of the first output, in the order of [model.output_order], that
    the data lacks. *)
Theorem read_data_missing_output (data : gmap string (Train.ndarray Q))
    (output_order : list string) :
  (forall k y, data !! k = Some y -> Train.wf_array y) ->
  (is_Ok (Train.read_data MASK mean one_minus data output_order) <->
   forall k, k ∈ output_order -> is_Some (data !! k)) /\
  (forall d weights,
     Train.read_data MASK mean one_minus data output_order = Ok (d, weights) ->
     d = data /\ dom weights = list_to_set output_order) /\
  (forall e,
     Train.read_data MASK mean one_minus data output_order = Raise e ->
     exists pre k post,
       output_order = pre ++ k :: post /\
       (forall k', k' ∈ pre -> is_Some (data !! k')) /\
       data !! k = None /\ e = KeyError k).
Proof.
  intros Hwf.
  assert (Hall : (forall k, k ∈ output_order -> is_Some (data !! k)) ->
    exists weights,
      Train.read_data MASK mean one_minus data output_order = Ok (data, weights) /\
      dom weights = list_to_set (C := gset string) output_order).
  { intros Hsome.
    destruct (read_weights_lookup MASK mean one_minus output_order data Hsome ∅)
      as (weights & Hrun & Hlook).
    exists weights. split.
    - unfold Train.read_data. rewrite Hrun. cbn [mbind result_bind].
      unfold Train.to_view.
      rewrite (check_weights_passes MASK mean one_minus); [done|].
      intros k Hk. destruct (Hsome k Hk) as [y Hy]. exists y.
      split_and!; [done | by eapply Hwf |].
      by rewrite Hlook, decide_True, Hy.
    - apply set_eq. intros k. rewrite elem_of_dom, elem_of_list_to_set, Hlook.
      case_decide as Hk.
      + split; [done|]. intros _. destruct (Hsome k Hk) as [y ->].
        by eexists.
      + rewrite lookup_empty. split; [by intros [? [=]] | done]. }
  pose proof (read_weights_first_missing data output_order ∅) as Hfirst.
  split_and!.
  - split; [|by intros (weights & -> & _)%Hall; eexists].
    intros [[d w] Hrun]. unfold Train.read_data in Hrun.
    by destruct (Train.read_weights _ _ _ _ _ _).
  - intros d weights Hrun.
    assert (Hsome : forall k, k ∈ output_order -> is_Some (data !! k)).
    { unfold Train.read_data in Hrun.
      by destruct (Train.read_weights _ _ _ _ _ _). }
    destruct (Hall Hsome) as (weights' & Hrun' & Hdom).
    rewrite Hrun in Hrun'. by injection Hrun' as -> ->.
  - intros e Hrun.
    destruct (Train.read_weights MASK mean one_minus output_order data ∅)
      as [w|e'] eqn:Hw.
    + destruct (Hall Hfirst) as (weights' & Hrun' & _). congruence.
    + unfold Train.read_data in Hrun. rewrite Hw in Hrun.
      cbn [mbind result_bind] in Hrun. by injection Hrun as <-.
Qed.
End ReadData.

Lemma read_data_missing_output_witness :
  Train.read_data (-1) int_mean one_minus64 {["c_y" := ex_labels]} ["c_y"; "u_y"]
  = Raise (KeyError "u_y").
Proof.
  assert (Hwf : forall k y,
            ({["c_y" := ex_labels]} : gmap string (Train.ndarray Q)) !! k
            = Some y -> Train.wf_array y).
  { intros k y [<- <-]%lookup_singleton_Some. reflexivity. }
  destruct (read_data_missing_output (-1) int_mean one_minus64
              {["c_y" := ex_labels]} ["c_y"; "u_y"] Hwf) as (_ & _ & Hraise).
  destruct (Train.read_data (-1) int_mean one_minus64 {["c_y" := ex_labels]}
              ["c_y"; "u_y"]) as [r|e] eqn:Hrun.
  - vm_compute in Hrun. discriminate Hrun.
  - destruct (Hraise e eq_refl) as (pre & k & post & Heq & _ & Hk & ->).
    f_equal. f_equal.
    destruct pre as [|k0 [|k1 pre]]; cbn in Heq.
    + injection Heq as <- _. vm_compute in Hk. discriminate Hk.
    + by injection Heq as _ <- _.
    + injection Heq as _ _ Heq. by destruct pre.
Defined.

(** ** How much the loops log *)

(** A message needs a step, and a batch that the step picks. *)
Lemma has_message_step (nb_batch batch_index : nat) :
  has_message nb_batch batch_index = true ->
  exists c,
    Net.ceil_div (Z.of_nat nb_batch) 20 = Ok c /\
    (Z.of_nat batch_index + 1 =? 1)
    || (Z.of_nat batch_index + 1 =? Z.of_nat nb_batch)
    || ((Z.of_nat batch_index + 1) mod Z.max 1 c =? 0) = true.
Proof.
  unfold has_message, Net.progress.
  destruct (Net.ceil_div _ 20) as [c|]; cbn [mbind result_bind]; [|done].
  intros H. exists c. split; [done|].
  destruct ((Z.of_nat batch_index + 1 =? 1)
            || (Z.of_nat batch_index + 1 =? Z.of_nat nb_batch)
            || ((Z.of_nat batch_index + 1) mod Z.max 1 c =? 0)); done.
Qed.

Lemma multiples_step (n s : Z) :
  0 <= n -> 1 <= s ->
  n / s <= (n + 1) / s /\
  ((n + 1) mod s = 0 -> (n + 1) / s = n / s + 1).
Proof.
  intros Hn Hs.
  pose proof (Z.div_mod n s ltac:(lia)) as Hdn.
  pose proof (Z.div_mod (n + 1) s ltac:(lia)) as Hdn1.
  pose proof (Z.mod_pos_bound n s ltac:(lia)) as Hmn.
  pose proof (Z.mod_pos_bound (n + 1) s ltac:(lia)) as Hmn1.
  split.
  - apply Z.div_le_mono; lia.
  - intros H0. rewrite H0 in Hdn1. nia.
Qed.

(** The step that the code computes, rounded quotient and all, is gone
    through at most twenty times. *)
Lemma twenty_steps (nb_batch c : Z) :
  0 < nb_batch -> Net.ceil_div nb_batch 20 = Ok c ->
  nb_batch / Z.max 1 c <= 20.
Proof.
  intros Hnb Hc. apply ceil_div_twenty in Hc; [|done].
  assert (nb_batch / Z.max 1 c < 21); [|lia].
  apply Z.div_lt_upper_bound; lia.
Qed.

Lemma messages_prefix (nb_batch n : nat) (c : Z) :
  (0 < nb_batch)%nat -> Net.ceil_div (Z.of_nat nb_batch) 20 = Ok c ->
  Z.of_nat (length (List.filter (has_message nb_batch) (seq 0 n)))
  <= (if (1 <=? n)%nat then 1 else 0)
     + (if (nb_batch <=? n)%nat then 1 else 0)
     + Z.of_nat n / Z.max 1 c.
Proof.
  intros Hnb Hc. induction n as [|n IH].
  - cbn [seq List.filter length]. rewrite Z.div_0_l by lia.
    destruct (nb_batch <=? 0)%nat; cbn; lia.
  - rewrite seq_S, List.filter_app, length_app. cbn [Nat.add List.filter].
    destruct (multiples_step (Z.of_nat n) (Z.max 1 c))
      as [Hmono Hstep]; [lia | lia |].
    replace (Z.of_nat (S n)) with (Z.of_nat n + 1) by lia.
    assert (H1 : (1 <=? S n)%nat = true) by (apply Nat.leb_le; lia).
    rewrite H1.
    assert (Hle : (if (nb_batch <=? n)%nat then 1 else 0)
                  <= (if (nb_batch <=? S n)%nat then 1 else 0)).
    { destruct (Nat.leb_spec nb_batch n), (Nat.leb_spec nb_batch (S n)); lia. }
    destruct (has_message nb_batch n) eqn:Hm;
      [|cbn [length]; destruct (1 <=? n)%nat; lia].
    apply has_message_step in Hm as (c' & Hc' & Htest).
    rewrite Hc in Hc'. injection Hc' as <-.
    destruct (Z.eqb_spec (Z.of_nat n + 1) 1) as [Hfirst|Hfirst].
    { assert (n = 0%nat) as -> by lia. cbn [length Nat.leb] in *.
      destruct (nb_batch <=? 0)%nat eqn:H0; [apply Nat.leb_le in H0; lia|].
      destruct (nb_batch <=? 1)%nat; lia. }
    destruct (Z.eqb_spec (Z.of_nat n + 1) (Z.of_nat nb_batch)) as [Hlast|Hlast].
    { cbn [length].
      assert ((nb_batch <=? S n)%nat = true) as -> by (apply Nat.leb_le; lia).
      assert ((nb_batch <=? n)%nat = false) as Hn by (apply Nat.leb_gt; lia).
      rewrite Hn in IH. destruct (1 <=? n)%nat; lia. }
    cbn [orb] in Htest. apply Z.eqb_eq in Htest.
    cbn [length]. rewrite (Hstep Htest). destruct (1 <=? n)%nat; lia.
Qed.

Lemma messages_bounded (nb_batch : nat) :
  (length (List.filter (has_message nb_batch) (seq 0 nb_batch)) <= 22)%nat.
Proof.
  destruct nb_batch as [|n]; [cbn; lia|].
  destruct (Net.ceil_div (Z.of_nat (S n)) 20) as [c|err] eqn:Hc.
  - pose proof (messages_prefix (S n) (S n) c ltac:(lia) Hc) as Hp.
    pose proof (twenty_steps (Z.of_nat (S n)) c ltac:(lia) Hc) as Ht.
    destruct (1 <=? S n)%nat, (S n <=? S n)%nat; lia.
  - assert (Hnone : forall l, List.filter (has_message (S n)) l = []).
    { induction l as [|i l IHl]; [done|]. cbn [List.filter].
      unfold has_message at 1, Net.progress. by rewrite Hc. }
    rewrite Hnone. cbn. lia.
Qed.

Section LogProps.
Context {Row RowShape InsBatch Outs Callback : Type}.
Variable make_batches : nat -> nat -> list (nat * nat).
Variable slice_X : list (list Row) -> list nat -> InsBatch.
Variable zero_row : RowShape -> Row.

Lemma batch_notices_logs (callbacks : list Callback) (log : bool)
    (nb_batch batch_index : nat) :
  (length (List.filter is_log
             (batch_notices callbacks log nb_batch batch_index))
   <= if has_message nb_batch batch_index then 1 else 0)%nat.
Proof.
  unfold batch_notices, progress_log, has_message.
  rewrite List.filter_app, length_app.
  assert (Hcb : List.filter is_log
                  ((fun callback : Callback =>
                      Net.CallbackCall callback batch_index nb_batch)
                     <$> callbacks) = []).
  { by induction callbacks as [|c cs IH]. }
  rewrite Hcb. destruct log; [|cbn; lia].
  destruct (Net.progress _ _ _) as [[m|]|]; cbn; lia.
Qed.

Lemma notices_logs (callbacks : list Callback) (log : bool) (nb_batch : nat)
    {A} (batches : list A) :
  forall k,
    (length (List.filter is_log
               (concat (imap (fun i _ =>
                                batch_notices callbacks log nb_batch (k + i))
                             batches)))
     <= length (List.filter (has_message nb_batch) (seq k (length batches))))%nat.
Proof.
  induction batches as [|b batches IH]; intros k; [done|].
  cbn [imap concat length seq]. rewrite List.filter_app, length_app.
  rewrite Nat.add_0_r.
  pose proof (batch_notices_logs callbacks log nb_batch k) as Hk.
  specialize (IH (S k)).
  rewrite (imap_ext _ (fun i _ => batch_notices callbacks log nb_batch
                                    (S k + i)) batches).
  - cbn [List.filter]. destruct (has_message nb_batch k); cbn [length]; lia.
  - intros i x _. cbn. by replace (k + S i)%nat with (S (k + i)) by lia.
Qed.

Lemma calls_logs (callbacks : list Callback) (log : bool) (nb_batch : nat)
    (outs_of : nat * nat -> Outs) (batches : list (nat * nat)) :
  forall k,
    length (List.filter is_log_call
              (concat (imap (fun i b =>
                               (Net.Notice
                                  <$> batch_notices callbacks log nb_batch
                                        (k + i))
                               ++ [Net.WriteFun (outs_of b) b.1 b.2])
                            batches)))
    = length (List.filter is_log
                (concat (imap (fun i _ =>
                                 batch_notices callbacks log nb_batch (k + i))
                              batches))).
Proof.
  assert (Hn : forall l : list (@Net.notice Callback),
            length (List.filter is_log_call (Net.Notice (Outs := Outs) <$> l))
            = length (List.filter is_log l)).
  { induction l as [|n l IHl]; [done|]. cbn.
    destruct (is_log n); cbn; by rewrite IHl. }
  induction batches as [|b batches IH]; intros k; [done|].
  cbn [imap concat]. rewrite !List.filter_app, !length_app, Nat.add_0_r.
  rewrite (imap_ext _ (fun i b =>
             (Net.Notice <$> batch_notices callbacks log nb_batch (S k + i))
             ++ [Net.WriteFun (outs_of b) b.1 b.2]) batches).
  - rewrite (imap_ext
               ((fun i _ => batch_notices callbacks log nb_batch (k + i)) ∘ S)
               (fun i _ => batch_notices callbacks log nb_batch (S k + i))
               batches).
    + rewrite (IH (S k)), Hn. cbn [List.filter is_log_call length]. lia.
    + intros i x _. cbn. by replace (k + S i)%nat with (S (k + i)) by lia.
  - intros i x _. cbn. by replace (k + S i)%nat with (S (k + i)) by lia.
Qed.

Lemma predict_batches_trace (ins : list (list Row))
    (f : InsBatch -> Net.predicted) (callbacks : list Callback) (log : bool)
    (index_array : list nat) (nb_sample nb_batch : nat)
    (batches : list (nat * nat)) :
  forall batch_index outs trace outs' trace',
    (batch_index + length batches = nb_batch)%nat ->
    Net.predict_batches slice_X zero_row ins f callbacks log index_array
      nb_sample nb_batch batch_index batches outs trace = Ok (outs', trace') ->
    trace'
    = trace ++ concat (imap (fun i _ =>
                               batch_notices callbacks log nb_batch
                                 (batch_index + i)) batches).
Proof.
  induction batches as [|[s e] batches IH];
    intros batch_index outs trace outs' trace' Hnb.
  - cbn. intros [= _ <-]. by rewrite app_nil_r.
  - cbn [length] in Hnb. cbn [Net.predict_batches].
    destruct (if log then _ else _) as [trace1|] eqn:Hlog; [|done].
    apply (progress_log_ok id) in Hlog. rewrite list_fmap_id in Hlog.
    subst trace1. cbn [mbind result_bind].
    destruct (Net.assign_outs _ _ _ _ _) as [outs1|]; [|done].
    cbn [mbind result_bind]. intros Hrun. apply IH in Hrun; [|lia].
    rewrite Hrun. cbn [imap concat]. rewrite Nat.add_0_r.
    rewrite (imap_ext
               ((fun i _ => batch_notices callbacks log nb_batch
                              (batch_index + i)) ∘ S)
               (fun i _ => batch_notices callbacks log nb_batch
                             (S batch_index + i)) batches).
    + unfold batch_notices at 2. by rewrite <- !app_assoc.
    + intros i b _. cbn.
      by replace (batch_index + S i)%nat with (S (batch_index + i)) by lia.
Qed.

(** X16: whatever the number of batches, [progress] with its twenty
    steps has a message for at most 22 of them; so a run of
    [write_loop] or of [predict_loop] logs at most 22 progress
    lines. *)
Theorem progress_lines_bounded (nb_batch : nat) :
  (length (List.filter (has_message nb_batch) (seq 0 nb_batch)) <= 22)%nat /\
  (forall (ins : list (list Row)) (fun_ : InsBatch -> Outs) batch_size
          (callbacks : list Callback) log trace,
     Net.write_loop make_batches slice_X ins fun_ batch_size callbacks log
       = Ok trace ->
     (length (List.filter is_log_call trace) <= 22)%nat) /\
  (forall input_order output_order model_predict
          (data : gmap string (list Row)) batch_size
          (callbacks : list Callback) log f d trace,
     Net.predict_loop make_batches slice_X zero_row input_order output_order
       model_predict data batch_size callbacks log f = Ok (d, trace) ->
     (length (List.filter is_log trace) <= 22)%nat).
Proof.
  split_and!.
  - apply messages_bounded.
  - intros ins fun_ batch_size callbacks log trace. unfold Net.write_loop.
    destruct (index ins 0) as [ins0|]; [|done]. cbn [mbind result_bind].
    set (batches := make_batches (length ins0) batch_size).
    intros ->%write_batches_ok. cbn [app].
    etrans; [apply Nat.eq_le_incl,
               (calls_logs callbacks log (length batches)
                  (fun b => fun_ (slice_X ins (batch_ids (length ins0) b)))
                  batches 0%nat)|].
    etrans; [apply (notices_logs callbacks log (length batches) batches 0%nat)|].
    apply messages_bounded.
  - intros input_order output_order model_predict data batch_size callbacks
      log f d trace. unfold Net.predict_loop.
    destruct (Net.getitems data input_order) as [ins|]; [|done].
    cbn [mbind result_bind]. destruct (index ins 0) as [ins0|]; [|done].
    cbn [mbind result_bind].
    set (batches := make_batches (length ins0) batch_size).
    destruct (Net.predict_batches _ _ _ _ _ _ _ _ _ _ _ _ _)
      as [[outs trace']|] eqn:Hrun; [|done].
    cbn [mbind result_bind]. intros [= _ <-].
    apply predict_batches_trace in Hrun; [|done]. rewrite Hrun. cbn [app].
    etrans; [apply (notices_logs callbacks log (length batches) batches 0%nat)|].
    apply messages_bounded.
Qed.
End LogProps.

Lemma progress_lines_bounded_witness :
  exists trace,
    Net.write_loop keras_make_batches (fun (ins : list (list Z)) ids => ids)
      [[10; 11; 12; 13; 14]] (fun ids => length ids) 2 ["cb"] true
    = Ok trace /\
    (length (List.filter is_log_call trace) <= 22)%nat.
Proof.
  destruct (Net.write_loop keras_make_batches
              (fun (ins : list (list Z)) ids => ids)
              [[10; 11; 12; 13; 14]] (fun ids => length ids) 2 ["cb"] true)
    as [trace|] eqn:Hrun.
  - exists trace. split; [reflexivity|].
    exact (proj1 (proj2 (progress_lines_bounded (RowShape := unit)
                           keras_make_batches
                           (fun (ins : list (list Z)) ids => ids)
                           (fun _ => 0) 3))
             _ _ _ _ _ _ Hrun).
  - vm_compute in Hrun. discriminate Hrun.
Defined.

(** ** The model steps of [main] *)

Lemma append_inv_head (a x y : string) : a +:+ x = a +:+ y -> x = y.
Proof.
  induction a as [|c a IH]; [done|].
  change (String c a +:+ x) with (String c (a +:+ x)).
  change (String c a +:+ y) with (String c (a +:+ y)).
  intros [= H]. by apply IH.
Qed.

Lemma path_join_files (out_dir : string) :
  Train.path_join out_dir "model.json"
  <> Train.path_join out_dir "model_weights.h5".
Proof.
  unfold Train.path_join.
  change (String.prefix "/" "model.json") with false.
  change (String.prefix "/" "model_weights.h5") with false.
  cbv iota. destruct (_ || _); intros H%append_inv_head; [done|].
  by apply (append_inv_head "/") in H.
Qed.

Section ModelStepProps.
Context {Weights : Type}.
Variable to_json : Net.CpgGraph -> string.
Variable kmodels_model_from_json : string -> bool -> result Net.CpgGraph.
Variable saved_weights : Net.CpgGraph -> Weights.
Variable load_weights_into : Net.CpgGraph -> Weights -> result Net.CpgGraph.
Variable kopt_get : Net.OptimizerGet -> Net.Optimizer.
Implicit Types fs : gmap string (@Net.file Net.CpgGraph Weights).

#[local] Abbreviation model_step :=
  (Train.model_step kmodels_model_from_json load_weights_into).

(** X17: building a model from scratch in [main] (no [--model]).
    Without targets [main] stops with a [TypeError] (it raises a
    string).  Without a parameter file it never gets a model: the
    assertion of a string passes, and [build_model] fails, at the
    latest with the [AttributeError] of [params.seq].  With parameters,
    the model that [build_model] returns has no loss, so the compile
    step compiles it whatever [--compile] says, and the two steps
    together give the model that [net.build] gives with [compile=True]
    for the shapes of the training file. *)
Theorem main_builds_compiled (targets_name targets_id : list string)
    (g : gmap string (list Z)) fs (opts_compile : bool) :
  (targets_name = [] ->
   forall model_params opts_model,
     model_step targets_name targets_id model_params opts_model g fs
     = Net.Raises
         (Net.Builtin (TypeError "exceptions must derive from BaseException"))) /\
  (targets_name <> [] ->
   exists r,
     model_step targets_name targets_id None None g fs = Net.Raises r /\
     (is_Ok (Train.read_shapes g) -> r = Net.AttributeError "seq")) /\
  (targets_name <> [] ->
   forall params model,
     model_step targets_name targets_id (Some params) None g fs
       = Net.Returns model ->
     Net.loss model = None /\
     exists compiled seq_len cpg_len nb_unit,
       Train.compile_step kopt_get opts_compile (Some params) None fs model
         = Net.Returns compiled /\
       Train.read_shapes g = Ok (seq_len, cpg_len, nb_unit) /\
       Net.build params targets_id seq_len cpg_len true nb_unit
         = Ok compiled).
Proof.
  split_and!.
  - intros -> model_params opts_model. reflexivity.
  - intros Hn. unfold Train.model_step.
    destruct targets_name as [|t ts]; [done|]. cbn [length Nat.eqb].
    destruct (Train.read_shapes g) as [shapes|e].
    + eexists. split; [done|]. done.
    + eexists. split; [done|]. by intros [? [=]].
  - intros Hn params model. unfold Train.model_step.
    destruct targets_name as [|t ts]; [done|]. cbn [length Nat.eqb].
    unfold Train.build_model.
    destruct (Train.read_shapes g) as [[[seq_len cpg_len] nb_unit]|];
      [|done].
    cbn [mbind result_bind].
    destruct (Net.build params targets_id seq_len cpg_len false nb_unit)
      as [model0|] eqn:Hb; [|done].
    cbn [Train.of_result]. intros [= <-].
    pose proof (build_frame params targets_id seq_len cpg_len false nb_unit)
      as Hf.
    rewrite Hb in Hf. destruct Hf as (m & Hm & _ & Hl & _).
    cbn [compile_phase] in Hm. subst m. split; [done|].
    exists (compile_phase params true model0), seq_len, cpg_len, nb_unit.
    split_and!; [|done|].
    + unfold Train.compile_step. rewrite Hl.
      rewrite bool_decide_eq_false_2 by (by intros [? [=]]).
      by rewrite orb_true_r.
    + rewrite build_phases in Hb |- *.
      destruct (seq_phase _ _ _ _) as [[m1 bn1]|]; [|done].
      cbn [mbind result_bind] in *.
      destruct (cpg_phase _ _ _ _ _ _) as [[m2 bn2]|]; [|done].
      cbn [mbind result_bind] in *.
      destruct (joint_phase _ _ _) as [[m3 bn3]|]; [|done].
      cbn [mbind result_bind] in *.
      destruct (Net.build_targets _ _ _ _ _) as [[m4 outs]|]; [|done].
      cbn [mbind result_bind compile_phase] in *. by injection Hb as ->.
Qed.

(** X18: what [main] saves can be loaded again.  Its "Save model" step
    writes the architecture to ['model.json'] and the weights to
    ['model_weights.h5'] of the output directory, two different files,
    as [model_to_json] does when it is given the weights file; and
    [model_from_list] on these two names reads the JSON text and the
    weights of the saved model back (the model Keras makes of them). *)
Theorem saved_model_loads fs (model : Net.CpgGraph) (out_dir : string)
    (compile : bool) :
  let json_file := Train.path_join out_dir "model.json" in
  let weights_file := Train.path_join out_dir "model_weights.h5" in
  json_file <> weights_file /\
  Train.save_model to_json saved_weights fs model out_dir
  = Net.model_to_json to_json saved_weights fs model json_file
      (Some weights_file) /\
  Train.save_model to_json saved_weights fs model out_dir !! json_file
  = Some (Net.TextFile (to_json model)) /\
  Train.save_model to_json saved_weights fs model out_dir !! weights_file
  = Some (Net.Hdf5File (saved_weights model)) /\
  Net.model_from_list kmodels_model_from_json load_weights_into
    (Train.save_model to_json saved_weights fs model out_dir)
    (Net.FnList [json_file; weights_file]) compile
  = (loaded ← kmodels_model_from_json (to_json model) compile;
     load_weights_into loaded (saved_weights model)).
Proof.
  intros json_file weights_file.
  pose proof (path_join_files out_dir) as Hne. fold json_file in Hne.
  fold weights_file in Hne.
  assert (Hjson :
    Train.save_model to_json saved_weights fs model out_dir !! json_file
    = Some (Net.TextFile (to_json model))).
  { unfold Train.save_model, Net.model_to_json. fold json_file weights_file.
    rewrite lookup_insert_ne by (intros Heq; by apply Hne).
    by rewrite lookup_insert_eq. }
  assert (Hweights :
    Train.save_model to_json saved_weights fs model out_dir !! weights_file
    = Some (Net.Hdf5File (saved_weights model))).
  { unfold Train.save_model. fold weights_file. by rewrite lookup_insert_eq. }
  split_and!; try done.
  unfold Net.model_from_list, Net.model_from_json, Net.read_text,
    Net.load_weights.
  cbn [Net.as_list length Nat.eqb index lookup list_lookup mbind result_bind].
  rewrite Hjson. cbn [mbind result_bind].
  destruct (kmodels_model_from_json (to_json model) compile) as [loaded|];
    cbn [mbind result_bind]; [|done].
  rewrite Hweights. by destruct (load_weights_into loaded (saved_weights model)).
Qed.
End ModelStepProps.

Lemma main_builds_compiled_witness :
  exists model,
    Train.model_step (Weights := unit) (fun _ _ => Raise IndexError)
      (fun m _ => Ok m) ["BS27"; "BS28"] ["u0"; "u1"] (Some ex_params) None
      ex_group ∅
    = Net.Returns model /\
    Net.loss model = None.
Proof.
  destruct (Train.model_step (Weights := unit) (fun _ _ => Raise IndexError)
              (fun m _ => Ok m) ["BS27"; "BS28"] ["u0"; "u1"]
              (Some ex_params) None ex_group ∅) as [model|] eqn:Hrun.
  - exists model. split; [reflexivity|].
    assert (Hn : ["BS27"; "BS28"] <> []) by discriminate.
    exact (proj1 (proj2 (proj2 (main_builds_compiled
                                  (fun _ _ => Raise IndexError)
                                  (fun m _ => Ok m)
                                  (fun _ => {| Net.opt_name := "sgd";
                                               Net.opt_params := [] |})
                                  ["BS27"; "BS28"] ["u0"; "u1"] ex_group ∅
                                  false))
                    Hn ex_params model Hrun)).
  - vm_compute in Hrun. discriminate Hrun.
Defined.

(** ** The names of a model *)

Lemma no_underscore_cons c (r : string) :
  no_underscore (String c r) -> String c "" <> "_" /\ no_underscore r.
Proof.
  unfold no_underscore. cbn [Train.contains String.prefix].
  intros [Hpre Hrest]%orb_false_elim. split; [|done].
  intros [= ->]. by destruct r.
Qed.

Lemma fmt_join_inj (p1 p2 x1 x2 : string) :
  no_underscore p1 -> no_underscore p2 ->
  fmt_join p1 x1 = fmt_join p2 x2 -> p1 = p2 /\ x1 = x2.
Proof.
  unfold fmt_join. revert p2.
  induction p1 as [|c1 r1 IH]; intros [|c2 r2] H1 H2 Heq.
  - apply (append_inv_head "") in Heq. by apply (append_inv_head "_") in Heq.
  - apply no_underscore_cons in H2 as [Hc _].
    change (String c2 r2 +:+ "_" +:+ x2)
      with (String c2 (r2 +:+ "_" +:+ x2)) in Heq.
    injection Heq as Hc2 _. exfalso. apply Hc. by rewrite <- Hc2.
  - apply no_underscore_cons in H1 as [Hc _].
    change (String c1 r1 +:+ "_" +:+ x1)
      with (String c1 (r1 +:+ "_" +:+ x1)) in Heq.
    injection Heq as Hc1 _. exfalso. apply Hc. by rewrite Hc1.
  - apply no_underscore_cons in H1 as [_ H1].
    apply no_underscore_cons in H2 as [_ H2].
    change (String c1 r1 +:+ "_" +:+ x1)
      with (String c1 (r1 +:+ "_" +:+ x1)) in Heq.
    change (String c2 r2 +:+ "_" +:+ x2)
      with (String c2 (r2 +:+ "_" +:+ x2)) in Heq.
    injection Heq as -> Heq.
    destruct (IH r2 H1 H2 Heq) as [-> ->]. done.
Qed.

Lemma elem_of_flat_map {A B} (f : A -> list B) (l : list A) (x : B) :
  x ∈ flat_map f l <-> exists y, y ∈ l /\ x ∈ f y.
Proof.
  rewrite list_elem_of_In, in_flat_map. split.
  - intros (y & Hy & Hx). exists y. by rewrite !list_elem_of_In.
  - intros (y & Hy & Hx). exists y. by rewrite <- !list_elem_of_In.
Qed.

Lemma elem_of_block_names (ls : list nat) (x : string) :
  x ∈ block_names ls ->
  exists l, l ∈ ls /\ (x = fmt_d "c" (l + 1) \/ x = fmt_d "p" (l + 1)).
Proof.
  unfold block_names. rewrite elem_of_flat_map.
  intros (l & Hl & Hx). exists l. split; [done|].
  apply elem_of_cons in Hx as [->|Hx]; [by left|].
  apply list_elem_of_singleton in Hx as ->. by right.
Qed.

Lemma fmt_d_inj (c : string) (a b : nat) : fmt_d c a = fmt_d c b -> a = b.
Proof.
  unfold fmt_d. intros H%append_inv_head. by apply (inj pretty) in H.
Qed.

Lemma block_names_NoDup (ls : list nat) : NoDup ls -> NoDup (block_names ls).
Proof.
  induction 1 as [|l ls Hl Hnd IH]; [constructor|].
  change (block_names (l :: ls))
    with (fmt_d "c" (l + 1) :: fmt_d "p" (l + 1) :: block_names ls).
  apply NoDup_cons. split; [|apply NoDup_cons; split; [|done]].
  - intros [Heq|Hin]%elem_of_cons; [done|].
    apply elem_of_block_names in Hin as (l' & Hl' & [Heq|Heq]); [|done].
    apply fmt_d_inj in Heq. assert (l = l') as -> by lia. done.
  - intros Hin.
    apply elem_of_block_names in Hin as (l' & Hl' & [Heq|Heq]); [done|].
    apply fmt_d_inj in Heq. assert (l = l') as -> by lia. done.
Qed.

Lemma block_names_not_fixed (ls : list nat) (x : string) :
  x ∈ block_names ls -> x ∉ "x" :: fixed_names.
Proof.
  intros (l & _ & [-> | ->])%elem_of_block_names Hin;
    unfold fixed_names in Hin;
    repeat (apply elem_of_cons in Hin as [Heq|Hin]; [done|]);
    by apply elem_of_nil in Hin.
Qed.

Lemma NoDup_around (K1 B K2 : list string) :
  NoDup B -> NoDup (K1 ++ K2) -> (forall x, x ∈ B -> x ∉ K1 ++ K2) ->
  NoDup (K1 ++ B ++ K2).
Proof.
  intros HB HK Hdis. apply NoDup_app in HK as (HK1 & HK12 & HK2).
  apply NoDup_app. split_and!; [done| |].
  - intros x Hx [HxB|HxK]%elem_of_app.
    + apply (Hdis x HxB). apply elem_of_app. by left.
    + by apply (HK12 x).
  - apply NoDup_app. split_and!; [done| |done].
    intros x HxB HxK. apply (Hdis x HxB). apply elem_of_app. by right.
Qed.

Lemma conv_loop_names conv pool params ls :
  forall layers out,
    conv_loop conv pool params ls layers = Ok out ->
    out.*1 = layers.*1 ++ block_names ls.
Proof.
  induction ls as [|l ls IH]; intros layers out; cbn [conv_loop].
  - intros [= <-]. unfold block_names. cbn. by rewrite app_nil_r.
  - destruct (index (Net.nb_filter params) l) as [nf|]; [|done].
    destruct (index (Net.filter_len params) l) as [fl|]; [|done].
    destruct (index (Net.pool_len params) l) as [pl|]; [|done].
    cbn [mbind result_bind]. intros Hrun%IH. rewrite Hrun.
    rewrite !fmap_app, <- !app_assoc. done.
Qed.

Lemma seq_layers_names sp layers :
  Net.seq_layers sp = Ok layers -> layers.*1 = branch_names sp.
Proof.
  unfold Net.seq_layers, branch_names. rewrite seq_conv_loop_conv_loop.
  destruct (conv_loop _ _ sp _ _) as [out|] eqn:Hrun; [|done].
  apply conv_loop_names in Hrun. cbn [mbind result_bind]. intros [= <-].
  destruct (truthyQ (Net.drop_in sp)), (truthyQ (Net.drop_out sp)),
    (truthyZ (Net.nb_hidden sp)), (Net.batch_norm sp);
    rewrite ?fmap_app, Hrun; cbn [fmap list_fmap fst app];
    by rewrite <- ?app_assoc.
Qed.

Lemma cpg_layers_names cp layers :
  Net.cpg_layers cp = Ok layers -> layers.*1 = branch_names cp.
Proof.
  unfold Net.cpg_layers, branch_names. rewrite cpg_conv_loop_conv_loop.
  destruct (conv_loop _ _ cp _ _) as [out|] eqn:Hrun; [|done].
  apply conv_loop_names in Hrun. cbn [mbind result_bind]. intros [= <-].
  destruct (truthyQ (Net.drop_in cp)), (truthyQ (Net.drop_out cp)),
    (truthyZ (Net.nb_hidden cp)), (Net.batch_norm cp);
    rewrite ?fmap_app, Hrun; cbn [fmap list_fmap fst app];
    by rewrite <- ?app_assoc.
Qed.

Lemma branch_names_NoDup (p : Net.ConvParams) : NoDup ("x" :: branch_names p).
Proof.
  unfold branch_names.
  set (B := block_names (seq 0 (length (Net.nb_filter p)))).
  assert (HB : NoDup B) by apply block_names_NoDup, NoDup_seq.
  assert (Hgen : forall K1 K2 : list string,
    NoDup ("x" :: K1 ++ K2) ->
    Forall (fun x => x ∈ fixed_names) (K1 ++ K2) ->
    NoDup ("x" :: K1 ++ B ++ K2)).
  { intros K1 K2 Hnd Hfix.
    apply (NoDup_around ("x" :: K1) B K2); [done|done|].
    intros x Hx Hin. apply (block_names_not_fixed _ x Hx).
    cbn [app] in Hin. apply elem_of_cons in Hin as [->|Hin]; [by left|].
    right. by apply (proj1 (Forall_forall _ _) Hfix). }
  destruct (truthyQ (Net.drop_in p)), (truthyQ (Net.drop_out p)),
    (truthyZ (Net.nb_hidden p)), (Net.batch_norm p);
    match goal with
    | |- NoDup ("x" :: ?K1 ++ B ++ ?K2) => apply (Hgen K1 K2)
    end;
    by apply (bool_decide_unpack _); vm_compute.
Qed.

Lemma dense_names_NoDup (d : Net.DenseParams) :
  NoDup (Net.joint_layers d).*1 /\ NoDup (Net.target_layers d).*1.
Proof.
  unfold Net.joint_layers, Net.target_layers.
  destruct (truthyZ (Net.d_nb_hidden d)), (Net.d_batch_norm d),
    (truthyQ (Net.d_drop_out d)); cbn;
    split; by apply (bool_decide_unpack _); vm_compute.
Qed.

Lemma chain_names prefix w layers :
  Net.node_name <$> chain prefix w layers = prefixed (prefix, layers.*1).
Proof.
  unfold prefixed. cbn [fst snd]. revert w.
  induction layers as [|[name l] layers IH]; intros w; [done|].
  cbn [chain fmap list_fmap Net.node_name fst]. f_equal. apply IH.
Qed.

Lemma prefixed_NoDup (groups : list (string * list string)) :
  NoDup groups.*1 ->
  Forall (fun g => no_underscore g.1 /\ NoDup g.2) groups ->
  NoDup (flat_map prefixed groups).
Proof.
  induction groups as [|[p ns] groups IH]; intros Hnd Hgs; [constructor|].
  cbn [fmap list_fmap fst] in Hnd. apply NoDup_cons in Hnd as [Hp Hnd].
  apply Forall_cons in Hgs as [[Hpu Hns] Hgs]. cbn [fst snd] in Hpu, Hns.
  cbn [flat_map]. apply NoDup_app. split_and!.
  - unfold prefixed. cbn [fst snd]. apply NoDup_fmap_2_strong; [|done].
    intros x y _ _ Heq. unfold fmt_join in Heq.
    apply append_inv_head in Heq. by apply (append_inv_head "_") in Heq.
  - intros x Hx Hin. unfold prefixed in Hx. cbn [fst snd] in Hx.
    apply list_elem_of_fmap in Hx as (n & -> & _).
    apply elem_of_flat_map in Hin as ([p' ns'] & Hg & Hin).
    unfold prefixed in Hin. cbn [fst snd] in Hin.
    apply list_elem_of_fmap in Hin as (n' & Heq & _).
    apply fmt_join_inj in Heq as [-> _]; [|done|].
    + apply Hp. apply list_elem_of_fmap. by exists (p', ns').
    + by apply (proj1 (Forall_forall _ _) Hgs (p', ns')).
  - by apply IH.
Qed.

Lemma head_names params w (targets : list string) :
  Net.node_name <$> flat_map (head_nodes params w) targets
  = flat_map prefixed
      ((fun t => (t, (Net.target_layers (Net.target params)).*1)) <$> targets).
Proof.
  induction targets as [|t targets IH]; [done|].
  cbn [flat_map fmap list_fmap]. rewrite fmap_app. unfold head_nodes at 1.
  rewrite chain_names. f_equal. exact IH.
Qed.

Lemma prefixed_app p (a b : list string) :
  prefixed (p, a ++ b) = prefixed (p, a) ++ prefixed (p, b).
Proof. unfold prefixed. cbn [fst snd]. by rewrite fmap_app. Qed.

Lemma branch_namespace (branch : option Net.ConvParams)
    (layers_of : Net.ConvParams -> result (list Net.named_layer))
    (prefix : string) (ns : list Net.Node) (out : list string)
    (len : option Z) (shape_of : Z -> list Z) :
  (forall p layers, layers_of p = Ok layers -> layers.*1 = branch_names p) ->
  (forall p, branch = Some p -> is_Some len) ->
  branch_of branch layers_of prefix (fmt_join prefix "x") ns out ->
  exists X S,
    (match branch, len with
     | Some _, Some n => [(fmt_join prefix "x", shape_of n)]
     | _, _ => []
     end).*1 = prefixed (prefix, X) /\
    Net.node_name <$> ns = prefixed (prefix, S) /\
    NoDup (X ++ S).
Proof.
  intros Hnames Hlen Hbranch. unfold branch_of in Hbranch.
  destruct branch as [p|].
  - destruct (Hlen p eq_refl) as [n ->].
    destruct Hbranch as (layers & last & Hl & -> & _).
    exists ["x"], (branch_names p). split_and!; [done| |].
    + by rewrite chain_names, (Hnames p layers Hl).
    + apply branch_names_NoDup.
  - destruct Hbranch as [-> _]. exists [], []. split_and!; try done.
    constructor.
Qed.

(** X19: the names of a built model do not clash.  For targets that are
    pairwise different, contain no underscore and are none of ['s'],
    ['c'] and ['j'], the inputs and nodes of a model that [build]
    returns have pairwise different names, and so have its outputs. *)
Theorem build_names_distinct (params : Net.Params) (targets : list string)
    (seq_len cpg_len : option Z) (compile : bool) (nb_unit : option Z)
    (model : Net.CpgGraph) :
  Net.build params targets seq_len cpg_len compile nb_unit = Ok model ->
  NoDup targets ->
  (forall t, t ∈ targets -> no_underscore t /\ t ∉ ["s"; "c"; "j"]) ->
  NoDup (namespace model) /\ NoDup (Net.output_order model).
Proof.
  intros Hb Hnd Ht. split.
  - pose proof (build_frame params targets seq_len cpg_len compile nb_unit)
      as Hf.
    rewrite Hb in Hf. destruct Hf as (model0 & Hm & Hin & _).
    assert (Hinputs : Net.inputs model
              = seq_input params seq_len
                ++ cpg_input params targets cpg_len nb_unit).
    { rewrite Hm. unfold compile_phase. by destruct compile. }
    destruct (proj1 (build_is_Ok _ _ _ _ _ _) (ex_intro _ _ Hb))
      as (Hs & Hc & _).
    apply build_inv in Hb
      as (s_nodes & s_out & c_nodes & c_out & j_nodes & heads_from & heads
          & Hseq & Hcpg & Hjoint & Hheads & Hnodes & _).
    destruct (branch_namespace (Net.seq params) Net.seq_layers "s" s_nodes
                s_out seq_len (fun n => [n; 4]))
      as (Xs & S & HXs & HS & HndS);
      [apply seq_layers_names | intros p Hp; by apply (Hs p) | done |].
    destruct (branch_namespace (Net.cpg params) Net.cpg_layers "c" c_nodes
                c_out cpg_len
                (fun n => [2; default (Z.of_nat (length targets)) nb_unit; n]))
      as (Xc & C & HXc & HC & HndC);
      [apply cpg_layers_names | intros p Hp; by apply (Hc p) | done |].
    assert (HJ : exists J, Net.node_name <$> j_nodes = prefixed ("j", J) /\
                           NoDup J).
    { destruct Hjoint as [(_ & jp & w & last & _ & _ & -> & _)|(_ & -> & _)].
      - exists (Net.joint_layers jp).*1. split; [apply chain_names|].
        apply dense_names_NoDup.
      - exists []. split; [done | constructor]. }
    destruct HJ as (J & HJ & HndJ).
    set (gt := (fun t => (t, (Net.target_layers (Net.target params)).*1))
                 <$> targets).
    assert (HH : Net.node_name <$> heads = flat_map prefixed gt).
    { destruct Hheads as [[-> ->]|(w & _ & ->)]; [done|]. apply head_names. }
    assert (Hgroups :
      NoDup (flat_map prefixed
               ([("s", Xs ++ S); ("c", Xc ++ C); ("j", J)] ++ gt))).
    { apply prefixed_NoDup.
      - rewrite fmap_app. unfold gt. rewrite <- list_fmap_compose.
        rewrite (list_fmap_ext _ id targets) by done.
        rewrite list_fmap_id. cbn [fmap list_fmap fst app].
        assert (Hscj : forall x, x ∈ ["s"; "c"; "j"] -> x ∉ targets).
        { intros x Hx Hxt. by apply (Ht x Hxt). }
        repeat (apply NoDup_cons; split); try done.
        + intros [Heq|[Heq|Hxt]%elem_of_cons]%elem_of_cons; try done.
          apply (Hscj "s"); [by left | done].
        + intros [Heq|Hxt]%elem_of_cons; try done.
          apply (Hscj "c"); [right; by left | done].
        + apply (Hscj "j"). right. right. by left.
      - apply Forall_app. split.
        + repeat (apply Forall_cons; split); done.
        + unfold gt. apply Forall_fmap, Forall_forall. intros t Hxt.
          cbn [fst snd]. split; [by apply Ht | apply dense_names_NoDup]. }
    cbn [flat_map app] in Hgroups. rewrite !prefixed_app in Hgroups.
    assert (HXs' : (seq_input params seq_len).*1 = prefixed ("s", Xs))
      by exact HXs.
    assert (HXc' : (cpg_input params targets cpg_len nb_unit).*1
                   = prefixed ("c", Xc)) by exact HXc.
    unfold namespace. rewrite Hinputs, Hnodes, !fmap_app.
    rewrite HXs', HXc', HS, HC, HJ, HH.
    eapply NoDup_Permutation_proper; [|exact Hgroups].
    rewrite <- !app_assoc. apply Permutation_app_head.
    apply Permutation_app_swap_app.
  - rewrite (build_output_order _ _ _ _ _ _ _ Hb).
    apply NoDup_fmap_2_strong; [|done].
    intros t t' Hin Hin' Heq.
    by apply fmt_join_inj in Heq as [-> _]; [|apply Ht..].
Qed.

Lemma build_names_distinct_witness :
  exists model,
    Net.build ex_params ["u0"; "u1"] (Some 501) (Some 25) false None
      = Ok model /\
    NoDup (namespace model).
Proof.
  destruct (Net.build ex_params ["u0"; "u1"] (Some 501) (Some 25) false None)
    as [model|] eqn:Hb.
  - exists model. split; [reflexivity|].
    refine (proj1 (build_names_distinct _ _ _ _ _ _ _ Hb _ _)).
    + by apply (bool_decide_unpack _); vm_compute.
    + intros t Ht. split.
      * apply elem_of_cons in Ht as [->|Ht]; [reflexivity|].
        apply list_elem_of_singleton in Ht as ->. reflexivity.
      * apply elem_of_cons in Ht as [->|Ht];
          [by apply (bool_decide_unpack _); vm_compute|].
        apply list_elem_of_singleton in Ht as ->.
        by apply (bool_decide_unpack _); vm_compute.
  - vm_compute in Hb. discriminate Hb.
Defined.

(** A target named like a branch takes the names of the branch. *)
Example build_target_named_c :
  (fun m => length (List.filter (String.eqb "c_h1")
                      (Net.node_name <$> Net.nodes m)))
    <$> (match Net.build ex_params ["c"] (Some 501) (Some 25) false None
         with Ok m => Some m | Raise _ => None end)
  = Some 2%nat.
Proof. vm_compute. reflexivity. Qed.

(** ** The groups that [eval_io] makes of a built model *)

Lemma build_loss params targets seq_len cpg_len nb_unit model :
  Net.build params targets seq_len cpg_len true nb_unit = Ok model ->
  Net.loss model
  = Some (Net.loss_from_ids ((fun t => fmt_join t "y") <$> targets)
            (Net.p_loss params)).
Proof.
  intros Hb. pose proof (build_output_order _ _ _ _ _ _ _ Hb) as Horder.
  pose proof (build_frame params targets seq_len cpg_len true nb_unit) as Hf.
  rewrite Hb in Hf. destruct Hf as (model0 & -> & _).
  assert (Horder0 : Net.output_order model0
                    = (fun t => fmt_join t "y") <$> targets) by exact Horder.
  cbn [compile_phase Net.compile_graph Net.loss]. by rewrite Horder0.
Qed.

Lemma elem_of_List_filter {A} (f : A -> bool) (l : list A) (x : A) :
  x ∈ List.filter f l <-> f x = true /\ x ∈ l.
Proof. rewrite !list_elem_of_In, filter_In. tauto. Qed.

Lemma split_outputs_groups (loss : odict string) :
  forall k,
    (k ∈ (Train.split_outputs (items loss)).1 <->
     exists v, loss !! k = Some v /\
               Train.contains "binary_crossentropy" v = true) /\
    (k ∈ (Train.split_outputs (items loss)).2 <->
     exists v, loss !! k = Some v /\
               Train.contains "binary_crossentropy" v = false).
Proof.
  intros k. unfold Train.split_outputs. rewrite split_outputs_loop.
  cbn [fst snd app]. split.
  - rewrite list_elem_of_fmap. split.
    + intros ([k' v] & -> & Hin). apply elem_of_List_filter in Hin as [Hc Hin].
      apply odict_lookup_Some in Hin. by exists v.
    + intros (v & Hv & Hc). exists (k, v). split; [done|].
      apply elem_of_List_filter. split; [done|].
      by apply odict_lookup_Some.
  - rewrite list_elem_of_fmap. split.
    + intros ([k' v] & -> & Hin). apply elem_of_List_filter in Hin as [Hc Hin].
      apply odict_lookup_Some in Hin. exists v. split; [done|].
      cbn in Hc. by destruct (Train.contains _ v).
    + intros (v & Hv & Hc). exists (k, v). split; [done|].
      apply elem_of_List_filter. split; [cbn; by rewrite Hc|].
      by apply odict_lookup_Some.
Qed.

(** X20: for a model that [build] compiled with parameters that name no
    loss, and whatever the order in which [model.loss] keeps its items,
    the loop of [eval_io] over [model.loss] puts into the regression
    group exactly the outputs ['<target>_y'] of the targets whose name
    starts with ['s'], and into the classification group the outputs
    of all other targets. *)
Theorem built_model_groups (params : Net.Params) (targets : list string)
    (seq_len cpg_len nb_unit : option Z) (model : Net.CpgGraph) :
  Net.build params targets seq_len cpg_len true nb_unit = Ok model ->
  Net.p_loss params = None ->
  exists loss,
    Net.loss model = Some loss /\
    forall d : odict string, to_map d = loss ->
    forall k,
      (k ∈ (Train.split_outputs (items d)).1 <->
       exists t, t ∈ targets /\ k = fmt_join t "y" /\
                 Net.startswith t "s" = false) /\
      (k ∈ (Train.split_outputs (items d)).2 <->
       exists t, t ∈ targets /\ k = fmt_join t "y" /\
                 Net.startswith t "s" = true).
Proof.
  intros Hb Hspec. eexists. split; [by apply build_loss in Hb|].
  rewrite Hspec. intros d Hd k.
  destruct (split_outputs_groups d k) as [Hcla Hreg].
  rewrite Hcla, Hreg.
  assert (Hlook : forall v,
    d !! k = Some v <->
    exists t, t ∈ targets /\ k = fmt_join t "y" /\
      v = if Net.startswith t "s" then "mse" else "binary_crossentropy").
  { intros v. rewrite <- to_map_lookup, Hd.
    rewrite loss_from_ids_None_lookup. case_decide as Hk.
    - apply list_elem_of_fmap in Hk as (t & -> & Hin). unfold default_loss.
      rewrite startswith_fmt_join. split.
      + intros [= <-]. by exists t.
      + intros (t' & Hin' & Heq & ->).
        by rewrite <- (startswith_fmt_join t'), <- Heq, startswith_fmt_join.
    - split; [done|]. intros (t & Hin & -> & _). exfalso. apply Hk.
      apply list_elem_of_fmap. by exists t. }
  split.
  - split.
    + intros (v & (t & Hin & -> & ->)%Hlook & Hc). exists t.
      split_and!; try done. by destruct (Net.startswith t "s").
    + intros (t & Hin & -> & Hs). exists "binary_crossentropy".
      split; [|done]. apply Hlook. exists t. by rewrite Hs.
  - split.
    + intros (v & (t & Hin & -> & ->)%Hlook & Hc). exists t.
      split_and!; try done. by destruct (Net.startswith t "s").
    + intros (t & Hin & -> & Hs). exists "mse".
      split; [|done]. apply Hlook. exists t. by rewrite Hs.
Qed.

Lemma built_model_groups_witness :
  exists model,
    Net.build ex_params ["u0"; "s1"] (Some 501) (Some 25) true None
      = Ok model /\
    Net.loss model = Some (to_map ex_built_loss) /\
    "s1_y" ∈ (Train.split_outputs (items ex_built_loss)).2 /\
    "u0_y" ∈ (Train.split_outputs (items ex_built_loss)).1.
Proof.
  destruct (Net.build ex_params ["u0"; "s1"] (Some 501) (Some 25) true None)
    as [model|] eqn:Hb.
  - destruct (built_model_groups _ _ _ _ _ _ Hb eq_refl)
      as (loss & Hloss & Hgroups).
    assert (Hd : to_map ex_built_loss = loss).
    { vm_compute in Hb. injection Hb as <-. vm_compute in Hloss.
      injection Hloss as <-. vm_compute. reflexivity. }
    exists model. split_and!; [reflexivity | by rewrite Hd | |].
    + apply (Hgroups ex_built_loss Hd "s1_y"). exists "s1".
      split_and!; try reflexivity. right. by left.
    + apply (Hgroups ex_built_loss Hd "u0_y"). exists "u0".
      split_and!; try reflexivity. by left.
  - vm_compute in Hb. discriminate Hb.
Defined.

(** ** The wiring of a built model *)

Lemma well_wired_mono nodes :
  forall known known' : list string,
    (forall p, p ∈ known -> p ∈ known') ->
    well_wired known nodes -> well_wired known' nodes.
Proof.
  induction nodes as [|n nodes IH]; intros known known' Hsub; [done|].
  cbn [well_wired]. intros (Hne & Hsrc & Hrest). split_and!; [done| |].
  - intros p Hp. by apply Hsub, Hsrc.
  - apply (IH (Net.node_name n :: known)); [|done].
    intros p [->|Hp]%elem_of_cons; [by left|]. right. by apply Hsub.
Qed.

Lemma well_wired_app a :
  forall (known : list string) b,
    well_wired known a ->
    well_wired ((Net.node_name <$> a) ++ known) b ->
    well_wired known (a ++ b).
Proof.
  induction a as [|n a IH]; intros known b Ha Hb; [done|].
  cbn [well_wired app] in *. destruct Ha as (Hne & Hsrc & Ha).
  split_and!; [done|done|]. apply IH; [done|].
  eapply well_wired_mono; [|exact Hb].
  intros p Hp. cbn [fmap list_fmap app] in Hp.
  apply elem_of_cons in Hp as [->|[Hp|Hp]%elem_of_app].
  - apply elem_of_app. right. by left.
  - apply elem_of_app. by left.
  - apply elem_of_app. right. by right.
Qed.

Lemma chain_well_wired prefix layers :
  forall w (known : list string),
    sources w <> [] -> (forall p, p ∈ sources w -> p ∈ known) ->
    well_wired known (chain prefix w layers).
Proof.
  induction layers as [|[name l] layers IH]; intros w known Hne Hsrc; [done|].
  cbn [chain well_wired Net.node_wiring Net.node_name].
  split_and!; [done|done|]. apply IH; [done|].
  intros p ->%list_elem_of_singleton. by left.
Qed.

Lemma wiring_of_sources prev w :
  wiring_of prev = Some w -> sources w = prev /\ prev <> [].
Proof.
  destruct prev as [|p [|q prev]]; [done| |]; by intros [= <-].
Qed.

Lemma last_node_in_chain prefix w layers name :
  last_node prefix layers = Some name ->
  name ∈ Net.node_name <$> chain prefix w layers.
Proof.
  rewrite chain_names. unfold last_node, prefixed, Net.named_layer.
  cbn [fst snd].
  intros (nl & Hl & ->)%fmap_Some.
  rewrite <- list_fmap_compose. apply list_elem_of_fmap. exists nl.
  split; [done|]. by apply last_Some_elem_of.
Qed.

Lemma branch_well_wired (branch : option Net.ConvParams)
    (layers_of : Net.ConvParams -> result (list Net.named_layer))
    (prefix input : string) (ns : list Net.Node) (out : list string)
    (known : list string) :
  (is_Some branch -> input ∈ known) ->
  branch_of branch layers_of prefix input ns out ->
  well_wired known ns /\
  forall p, p ∈ out -> p ∈ Net.node_name <$> ns.
Proof.
  intros Hin Hbranch. unfold branch_of in Hbranch.
  destruct branch as [bp|].
  - destruct Hbranch as (layers & last & _ & -> & Hlast & ->). split.
    + apply chain_well_wired; [done|].
      intros p ->%list_elem_of_singleton. apply Hin. by eexists.
    + intros p ->%list_elem_of_singleton. by apply last_node_in_chain.
  - destruct Hbranch as [-> ->]. split; [done|]. by intros p ?%elem_of_nil.
Qed.

Lemma heads_well_wired params w (targets : list string) :
  forall known : list string,
    sources w <> [] -> (forall p, p ∈ sources w -> p ∈ known) ->
    well_wired known (flat_map (head_nodes params w) targets).
Proof.
  induction targets as [|t targets IH]; intros known Hne Hsrc; [done|].
  cbn [flat_map]. apply well_wired_app.
  - by apply chain_well_wired.
  - apply IH; [done|]. intros p Hp. apply elem_of_app. right. by apply Hsrc.
Qed.

(** X21: a model that [build] returns is wired from what is there:
    every node is fed by at least one name, and only by inputs of the
    model and by nodes added before it; and every output is fed by a
    node of the model. *)
Theorem build_well_wired (params : Net.Params) (targets : list string)
    (seq_len cpg_len : option Z) (compile : bool) (nb_unit : option Z)
    (model : Net.CpgGraph) :
  Net.build params targets seq_len cpg_len compile nb_unit = Ok model ->
  well_wired (Net.inputs model).*1 (Net.nodes model) /\
  forall name input, (name, input) ∈ Net.outputs model ->
    input ∈ Net.node_name <$> Net.nodes model.
Proof.
  intros Hb.
  pose proof (build_frame params targets seq_len cpg_len compile nb_unit)
    as Hf.
  rewrite Hb in Hf. destruct Hf as (model0 & Hm & Hin & _).
  assert (Hinputs : Net.inputs model
            = seq_input params seq_len
              ++ cpg_input params targets cpg_len nb_unit).
  { rewrite Hm. unfold compile_phase. by destruct compile. }
  destruct (proj1 (build_is_Ok _ _ _ _ _ _) (ex_intro _ _ Hb))
    as (Hs & Hc & _).
  apply build_inv in Hb
    as (s_nodes & s_out & c_nodes & c_out & j_nodes & heads_from & heads
        & Hseq & Hcpg & Hjoint & Hheads & Hnodes & Hout).
  set (I := (Net.inputs model).*1).
  assert (HsI : is_Some (Net.seq params) -> "s_x" ∈ I).
  { intros [sp Hsp]. destruct (Hs sp Hsp) as [[n Hn] _]. unfold I.
    rewrite Hinputs, fmap_app. apply elem_of_app. left.
    unfold seq_input. rewrite Hsp, Hn. by left. }
  assert (HcI : is_Some (Net.cpg params) -> "c_x" ∈ I).
  { intros [cp Hcp]. destruct (Hc cp Hcp) as [[n Hn] _]. unfold I.
    rewrite Hinputs, fmap_app. apply elem_of_app. right.
    unfold cpg_input. rewrite Hcp, Hn. by left. }
  destruct (branch_well_wired _ _ _ _ _ _ I HsI Hseq) as [Hws Hso].
  destruct (branch_well_wired _ _ _ _ _ _ I HcI Hcpg) as [Hwc Hco].
  set (Ks := (Net.node_name <$> s_nodes) ++ I).
  set (Kc := (Net.node_name <$> c_nodes) ++ Ks).
  assert (Hbranch_outs : forall p, p ∈ s_out ++ c_out -> p ∈ Kc).
  { intros p [Hp|Hp]%elem_of_app; unfold Kc, Ks.
    - apply elem_of_app. right. apply elem_of_app. left. by apply Hso.
    - apply elem_of_app. left. by apply Hco. }
  assert (Hj : well_wired Kc j_nodes /\
               forall p, p ∈ heads_from ->
                 p ∈ (Net.node_name <$> j_nodes) ++ Kc).
  { destruct Hjoint as [(_ & jp & w & last & _ & Hw & -> & Hlast & ->)
                       |(_ & -> & ->)].
    - apply wiring_of_sources in Hw as [Hsrc Hne]. split.
      + apply chain_well_wired; rewrite Hsrc; done.
      + intros p ->%list_elem_of_singleton. apply elem_of_app. left.
        by apply last_node_in_chain.
    - split; [done|]. intros p Hp. by apply Hbranch_outs. }
  destruct Hj as [Hwj Hjo].
  set (Kj := (Net.node_name <$> j_nodes) ++ Kc) in *.
  assert (Hh : well_wired Kj heads).
  { destruct Hheads as [[_ ->]|(w & Hw & ->)]; [done|].
    apply wiring_of_sources in Hw as [Hsrc Hne].
    apply heads_well_wired; rewrite Hsrc; done. }
  split.
  - rewrite Hnodes. fold I. apply well_wired_app; [done|].
    apply well_wired_app.
    + apply (well_wired_mono c_nodes I); [|done].
      intros p Hp. apply elem_of_app. by right.
    + apply well_wired_app; [done|]. done.
  - intros name input Hno. rewrite Hout in Hno.
    apply list_elem_of_fmap in Hno as (t & [= -> ->] & Ht).
    destruct Hheads as [[-> _]|(w & _ & Hheads)];
      [by apply elem_of_nil in Ht|].
    rewrite Hnodes, !fmap_app, Hheads.
    do 3 (apply elem_of_app; right).
    rewrite head_names. apply elem_of_flat_map.
    exists (t, (Net.target_layers (Net.target params)).*1). split.
    + apply list_elem_of_fmap. by exists t.
    + unfold prefixed. cbn [fst snd]. apply list_elem_of_fmap. exists "o".
      split; [done|].
      destruct (target_layers_last (Net.target params)) as (hidden & -> & _).
      rewrite fmap_app. apply elem_of_app. right. by left.
Qed.

Lemma build_well_wired_witness :
  exists model,
    Net.build ex_params ["u0"; "u1"] (Some 501) (Some 25) false None
      = Ok model /\
    well_wired (Net.inputs model).*1 (Net.nodes model).
Proof.
  destruct (Net.build ex_params ["u0"; "u1"] (Some 501) (Some 25) false None)
    as [model|] eqn:Hb.
  - exists model. split; [reflexivity|].
    exact (proj1 (build_well_wired _ _ _ _ _ _ _ Hb)).
  - vm_compute in Hb. discriminate Hb.
Defined.
